(** * Admin authentication, lockout and password reset of the portfolio backend

    A shallow embedding of [backend/models/Admin.js], of the admin routes
    ([/api/admin/login], [/forgot-password], [/reset-password/:token],
    [DELETE /:id]) and of [backend/middleware/auth.js], followed by the
    properties of the lockout counter and of the reset-token flow.

    Dates are milliseconds since the epoch, as [Date.now()] gives them.
    The libraries the code calls (bcryptjs, jsonwebtoken, crypto,
    express-validator, nodemailer) and [process.env] are the fields of an
    environment record; the store, the clock position, the random source
    and the mails handed to the transporter are the state threaded through
    every handler. *)

From Stdlib Require Import ZArith List Ascii String Bool Lia.
Import ListNotations.
Local Open Scope string_scope.
Local Open Scope Z_scope.

(** ** The schema *)

Inductive Role : Type :=
| role_admin         (* 'admin' *)
| role_super_admin.  (* 'super-admin' *)

Definition Role_eqb (r1 r2 : Role) : bool :=
  match r1, r2 with
  | role_admin, role_admin => true
  | role_super_admin, role_super_admin => true
  | _, _ => false
  end.

(** A document of the [admins] collection. A path that is absent from the
    document ([undefined] in JS) is [None].  [role], [isActive] and
    [createdAt] always exist: the schema gives them a default at creation
    and no handler removes them. *)
Record Admin : Type := {
  _id : string;
  name : string;
  email : string;
  password : option string;          (* [select: false] *)
  role : Role;
  avatar : option string;
  isActive : bool;
  lastLogin : option Z;
  loginAttempts : option Z;          (* [default: 0] *)
  lockUntil : option Z;
  passwordChangedAt : option Z;
  passwordResetToken : option string;
  passwordResetExpires : option Z;
  createdAt : Z;
  updatedAt : Z
}.

(** The paths a handler or a hook can write. *)
Inductive Path : Type :=
| P_name | P_email | P_password | P_role | P_avatar | P_isActive
| P_lastLogin | P_loginAttempts | P_lockUntil | P_passwordChangedAt
| P_passwordResetToken | P_passwordResetExpires | P_updatedAt.

Definition Path_eqb (p q : Path) : bool :=
  match p, q with
  | P_name, P_name | P_email, P_email | P_password, P_password
  | P_role, P_role | P_avatar, P_avatar | P_isActive, P_isActive
  | P_lastLogin, P_lastLogin | P_loginAttempts, P_loginAttempts
  | P_lockUntil, P_lockUntil | P_passwordChangedAt, P_passwordChangedAt
  | P_passwordResetToken, P_passwordResetToken
  | P_passwordResetExpires, P_passwordResetExpires
  | P_updatedAt, P_updatedAt => true
  | _, _ => false
  end.

(** The values of those paths; a Date and a Number are both [V_num]. *)
Inductive Value : Type :=
| V_str (s : string)
| V_num (n : Z)
| V_bool (b : bool)
| V_role (r : Role).

Definition getPath (p : Path) (a : Admin) : option Value :=
  match p with
  | P_name => Some (V_str (name a))
  | P_email => Some (V_str (email a))
  | P_password => option_map V_str (password a)
  | P_role => Some (V_role (role a))
  | P_avatar => option_map V_str (avatar a)
  | P_isActive => Some (V_bool (isActive a))
  | P_lastLogin => option_map V_num (lastLogin a)
  | P_loginAttempts => option_map V_num (loginAttempts a)
  | P_lockUntil => option_map V_num (lockUntil a)
  | P_passwordChangedAt => option_map V_num (passwordChangedAt a)
  | P_passwordResetToken => option_map V_str (passwordResetToken a)
  | P_passwordResetExpires => option_map V_num (passwordResetExpires a)
  | P_updatedAt => Some (V_num (updatedAt a))
  end.

Definition as_str (v : option Value) : option string :=
  match v with Some (V_str s) => Some s | _ => None end.

Definition as_num (v : option Value) : option Z :=
  match v with Some (V_num n) => Some n | _ => None end.

(** [setPath p v a] is [a] with path [p] holding [v]; [None] removes the
    path.  A value of the wrong kind, or the removal of a path that always
    exists, leaves the document as it is (the driver raises a cast error
    there; no handler below does either). *)
Definition setPath (p : Path) (v : option Value) (a : Admin) : Admin :=
  match p, v with
  | P_name, Some (V_str s) =>
      {| _id := _id a; name := s; email := email a; password := password a;
         role := role a; avatar := avatar a; isActive := isActive a;
         lastLogin := lastLogin a; loginAttempts := loginAttempts a;
         lockUntil := lockUntil a; passwordChangedAt := passwordChangedAt a;
         passwordResetToken := passwordResetToken a;
         passwordResetExpires := passwordResetExpires a;
         createdAt := createdAt a; updatedAt := updatedAt a |}
  | P_email, Some (V_str s) =>
      {| _id := _id a; name := name a; email := s; password := password a;
         role := role a; avatar := avatar a; isActive := isActive a;
         lastLogin := lastLogin a; loginAttempts := loginAttempts a;
         lockUntil := lockUntil a; passwordChangedAt := passwordChangedAt a;
         passwordResetToken := passwordResetToken a;
         passwordResetExpires := passwordResetExpires a;
         createdAt := createdAt a; updatedAt := updatedAt a |}
  | P_password, (None | Some (V_str _)) =>
      {| _id := _id a; name := name a; email := email a; password := as_str v;
         role := role a; avatar := avatar a; isActive := isActive a;
         lastLogin := lastLogin a; loginAttempts := loginAttempts a;
         lockUntil := lockUntil a; passwordChangedAt := passwordChangedAt a;
         passwordResetToken := passwordResetToken a;
         passwordResetExpires := passwordResetExpires a;
         createdAt := createdAt a; updatedAt := updatedAt a |}
  | P_role, Some (V_role r) =>
      {| _id := _id a; name := name a; email := email a; password := password a;
         role := r; avatar := avatar a; isActive := isActive a;
         lastLogin := lastLogin a; loginAttempts := loginAttempts a;
         lockUntil := lockUntil a; passwordChangedAt := passwordChangedAt a;
         passwordResetToken := passwordResetToken a;
         passwordResetExpires := passwordResetExpires a;
         createdAt := createdAt a; updatedAt := updatedAt a |}
  | P_avatar, (None | Some (V_str _)) =>
      {| _id := _id a; name := name a; email := email a; password := password a;
         role := role a; avatar := as_str v; isActive := isActive a;
         lastLogin := lastLogin a; loginAttempts := loginAttempts a;
         lockUntil := lockUntil a; passwordChangedAt := passwordChangedAt a;
         passwordResetToken := passwordResetToken a;
         passwordResetExpires := passwordResetExpires a;
         createdAt := createdAt a; updatedAt := updatedAt a |}
  | P_isActive, Some (V_bool b) =>
      {| _id := _id a; name := name a; email := email a; password := password a;
         role := role a; avatar := avatar a; isActive := b;
         lastLogin := lastLogin a; loginAttempts := loginAttempts a;
         lockUntil := lockUntil a; passwordChangedAt := passwordChangedAt a;
         passwordResetToken := passwordResetToken a;
         passwordResetExpires := passwordResetExpires a;
         createdAt := createdAt a; updatedAt := updatedAt a |}
  | P_lastLogin, (None | Some (V_num _)) =>
      {| _id := _id a; name := name a; email := email a; password := password a;
         role := role a; avatar := avatar a; isActive := isActive a;
         lastLogin := as_num v; loginAttempts := loginAttempts a;
         lockUntil := lockUntil a; passwordChangedAt := passwordChangedAt a;
         passwordResetToken := passwordResetToken a;
         passwordResetExpires := passwordResetExpires a;
         createdAt := createdAt a; updatedAt := updatedAt a |}
  | P_loginAttempts, (None | Some (V_num _)) =>
      {| _id := _id a; name := name a; email := email a; password := password a;
         role := role a; avatar := avatar a; isActive := isActive a;
         lastLogin := lastLogin a; loginAttempts := as_num v;
         lockUntil := lockUntil a; passwordChangedAt := passwordChangedAt a;
         passwordResetToken := passwordResetToken a;
         passwordResetExpires := passwordResetExpires a;
         createdAt := createdAt a; updatedAt := updatedAt a |}
  | P_lockUntil, (None | Some (V_num _)) =>
      {| _id := _id a; name := name a; email := email a; password := password a;
         role := role a; avatar := avatar a; isActive := isActive a;
         lastLogin := lastLogin a; loginAttempts := loginAttempts a;
         lockUntil := as_num v; passwordChangedAt := passwordChangedAt a;
         passwordResetToken := passwordResetToken a;
         passwordResetExpires := passwordResetExpires a;
         createdAt := createdAt a; updatedAt := updatedAt a |}
  | P_passwordChangedAt, (None | Some (V_num _)) =>
      {| _id := _id a; name := name a; email := email a; password := password a;
         role := role a; avatar := avatar a; isActive := isActive a;
         lastLogin := lastLogin a; loginAttempts := loginAttempts a;
         lockUntil := lockUntil a; passwordChangedAt := as_num v;
         passwordResetToken := passwordResetToken a;
         passwordResetExpires := passwordResetExpires a;
         createdAt := createdAt a; updatedAt := updatedAt a |}
  | P_passwordResetToken, (None | Some (V_str _)) =>
      {| _id := _id a; name := name a; email := email a; password := password a;
         role := role a; avatar := avatar a; isActive := isActive a;
         lastLogin := lastLogin a; loginAttempts := loginAttempts a;
         lockUntil := lockUntil a; passwordChangedAt := passwordChangedAt a;
         passwordResetToken := as_str v;
         passwordResetExpires := passwordResetExpires a;
         createdAt := createdAt a; updatedAt := updatedAt a |}
  | P_passwordResetExpires, (None | Some (V_num _)) =>
      {| _id := _id a; name := name a; email := email a; password := password a;
         role := role a; avatar := avatar a; isActive := isActive a;
         lastLogin := lastLogin a; loginAttempts := loginAttempts a;
         lockUntil := lockUntil a; passwordChangedAt := passwordChangedAt a;
         passwordResetToken := passwordResetToken a;
         passwordResetExpires := as_num v;
         createdAt := createdAt a; updatedAt := updatedAt a |}
  | P_updatedAt, Some (V_num n) =>
      {| _id := _id a; name := name a; email := email a; password := password a;
         role := role a; avatar := avatar a; isActive := isActive a;
         lastLogin := lastLogin a; loginAttempts := loginAttempts a;
         lockUntil := lockUntil a; passwordChangedAt := passwordChangedAt a;
         passwordResetToken := passwordResetToken a;
         passwordResetExpires := passwordResetExpires a;
         createdAt := createdAt a; updatedAt := n |}
  | _, _ => a
  end.

Definition Value_eqb (v1 v2 : Value) : bool :=
  match v1, v2 with
  | V_str s1, V_str s2 => String.eqb s1 s2
  | V_num n1, V_num n2 => Z.eqb n1 n2
  | V_bool b1, V_bool b2 => Bool.eqb b1 b2
  | V_role r1, V_role r2 => Role_eqb r1 r2
  | _, _ => false
  end.

Definition same_value (v1 v2 : option Value) : bool :=
  match v1, v2 with
  | Some x, Some y => Value_eqb x y
  | None, None => true
  | _, _ => false
  end.

(** ** Update documents of the store: [$set], [$unset], [$inc] *)

Inductive UpdateOp : Type :=
| U_set (p : Path) (v : Value)     (* $set:   { p: v } *)
| U_unset (p : Path)               (* $unset: { p: 1 } *)
| U_inc (p : Path) (n : Z).        (* $inc:   { p: n } *)

(** [$inc] adds to the value the store holds when the update is applied,
    and creates the path with the increment when it is absent. *)
Definition applyOp (a : Admin) (op : UpdateOp) : Admin :=
  match op with
  | U_set p v => setPath p (Some v) a
  | U_unset p => setPath p None a
  | U_inc p n =>
      match as_num (getPath p a) with
      | Some m => setPath p (Some (V_num (m + n))) a
      | None => setPath p (Some (V_num n)) a
      end
  end.

Definition applyUpdate (u : list UpdateOp) (a : Admin) : Admin :=
  fold_left applyOp u a.

(** ** The collection, in its natural order *)

Definition Collection : Type := list Admin.

Definition by_id (id : string) (a : Admin) : bool := String.eqb (_id a) id.

Definition findById (id : string) (c : Collection) : option Admin :=
  find (by_id id) c.

(** The first document with this [_id] is replaced by its image. *)
Fixpoint update_first (id : string) (f : Admin -> Admin) (c : Collection)
  : Collection :=
  match c with
  | [] => []
  | a :: c' =>
      if by_id id a then f a :: c' else a :: update_first id f c'
  end.

Fixpoint delete_first (id : string) (c : Collection) : Collection :=
  match c with
  | [] => []
  | a :: c' => if by_id id a then c' else a :: delete_first id c'
  end.

(** The store never holds two documents with one [_id]. *)
Definition unique_ids (c : Collection) : Prop := NoDup (map _id c).

(** ** Documents in memory *)

(** What a query returns: the fields read from the store, the paths
    assigned since, and whether the document was ever stored. *)
Record Document : Type := {
  fields :> Admin;
  modifiedPaths : list Path;
  isNew : bool
}.

Definition isModified (this : Document) (p : Path) : bool :=
  existsb (Path_eqb p) (modifiedPaths this).

(** [this.isModified()] *)
Definition isModified_any (this : Document) : bool :=
  match modifiedPaths this with
  | [] => false
  | _ :: _ => true
  end.

(** [this.p = v]: the path is marked modified when the value changes. *)
Definition assign (p : Path) (v : option Value) (this : Document) : Document :=
  if same_value (getPath p this) v then this
  else {| fields := setPath p v this;
          modifiedPaths :=
            if isModified this p then modifiedPaths this
            else modifiedPaths this ++ [p];
          isNew := isNew this |}.

(** A stored document as a query hands it over: [password] is left out
    unless the query selects it, and the default of [loginAttempts] is
    applied when the store has no value for it.  The default lives in
    the document in memory; the statements below read a stored count
    through this default, so they do not depend on whether a later save
    writes it back. *)
Definition hydrate (select_password : bool) (raw : Admin) : Document :=
  let a1 := if select_password then raw else setPath P_password None raw in
  let a2 := match loginAttempts a1 with
            | Some _ => a1
            | None => setPath P_loginAttempts (Some (V_num 0)) a1
            end in
  {| fields := a2; modifiedPaths := []; isNew := false |}.

(** The changes [save] sends for the modified paths. *)
Definition delta (this : Document) : list UpdateOp :=
  map (fun p => match getPath p this with
                | Some v => U_set p v
                | None => U_unset p
                end) (modifiedPaths this).

(** ** Environment: libraries and configuration *)

Record JwtPayload : Type := { jwt_id : string; jwt_role : Role }.

Record Env : Type := {
  clock : nat -> Z;                        (* successive readings of Date.now() *)
  bcrypt_genSalt : nat -> string;          (* bcrypt.genSalt(BCRYPT_ROUNDS || 12) *)
  bcrypt_hash : string -> string -> string;     (* bcrypt.hash(s, salt) *)
  bcrypt_compare : string -> string -> bool;    (* bcrypt.compare(candidate, hash) *)
  randomBytes_hex : nat -> string;         (* crypto.randomBytes(32).toString('hex') *)
  sha256_hex : string -> string;           (* createHash('sha256').update(s).digest('hex') *)
  jwt_sign : JwtPayload -> string -> string -> string;  (* payload, secret, expiresIn *)
  jwt_verify : string -> string -> option JwtPayload;   (* token, secret *)
  isEmail : string -> bool;
  normalizeEmail : string -> string;
  sendMail : string -> string -> bool;     (* does transporter.sendMail deliver? *)
  JWT_SECRET : string;
  JWT_EXPIRE : option string
}.

(** ** State and the monad of the handlers *)

Record World : Type := {
  db : Collection;
  tick : nat;                      (* readings of the clock taken so far *)
  rnd : nat;                       (* random values drawn so far *)
  outbox : list (string * string)  (* reset mails delivered: address, raw token *)
}.

Definition M (A : Type) : Type := World -> A * World.

Definition ret {A : Type} (x : A) : M A := fun w => (x, w).

Definition bind {A B : Type} (m : M A) (k : A -> M B) : M B :=
  fun w => let (x, w') := m w in k x w'.

Notation "x <- m ;; k" := (bind m (fun x => k))
  (at level 61, m at next level, right associativity).
Notation "m ;;; k" := (bind m (fun _ => k))
  (at level 61, right associativity).

Definition with_db (f : Collection -> Collection) : M unit :=
  fun w => (tt, {| db := f (db w); tick := tick w; rnd := rnd w;
                   outbox := outbox w |}).

Definition get_db : M Collection := fun w => (db w, w).

Definition fresh_random : M nat :=
  fun w => (rnd w, {| db := db w; tick := tick w; rnd := S (rnd w);
                      outbox := outbox w |}).

Definition deliver (address token : string) : M unit :=
  fun w => (tt, {| db := db w; tick := tick w; rnd := rnd w;
                   outbox := outbox w ++ [(address, token)] |}).

Definition run {A : Type} (m : M A) (w : World) : World := snd (m w).
Definition result {A : Type} (m : M A) (w : World) : A := fst (m w).

(** ** Responses *)

Record Profile : Type := {
  profile_id : string;
  profile_name : string;
  profile_email : string;
  profile_role : Role;
  profile_avatar : option string;
  profile_lastLogin : option Z
}.

Inductive Body : Type :=
| Failure (error : string)          (* { success: false, error } *)
| ValidationFailed                  (* { success: false, error: 'Validation failed', details } *)
| Success (message : string)        (* { success: true, message } *)
| LoginSuccess (token : string) (admin : Profile).

Inductive Outcome : Type :=
| Responded (status : Z) (body : Body)   (* res.status(status).json(body) *)
| NextError.                             (* next(error) *)

(** What a run of the first [pre('save')] hook did: the document as it was
    when [next()] was first called (what the rest of the save works on;
    [None] when the hook failed before any call), the number of calls of
    [next()] and of completed [bcrypt.hash], and the document once the
    body has run to its end. *)
Record HookRun : Type := {
  at_next : option Document;
  next_calls : nat;
  hash_calls : nat;
  at_end : Document
}.

Definition two_hours : Z := 2 * 60 * 60 * 1000.
Definition one_hour : Z := 60 * 60 * 1000.
Definition lock_threshold : Z := 5.

Definition has_prefix (p s : string) : bool := String.prefix p s.

(** [s.split(' ')] *)
Fixpoint split_space (cur : string) (s : string) : list string :=
  match s with
  | EmptyString => [cur]
  | String c s' =>
      if Ascii.eqb c " "%char then cur :: split_space EmptyString s'
      else split_space (cur ++ String c EmptyString) s'
  end.

Section Backend.

Variable E : Env.

Definition Date_now : M Z :=
  fun w => (clock E (tick w),
            {| db := db w; tick := S (tick w); rnd := rnd w;
               outbox := outbox w |}).

(** *** Queries of the model *)

Definition findOne (q : Admin -> bool) (select_password : bool)
  : M (option Document) :=
  c <- get_db ;;
  ret (option_map (hydrate select_password) (find q c)).

(** [this.updateOne(u)]: the update is applied by the store to the
    document it holds under [this._id]; the schema option
    [timestamps: true] adds the new [updatedAt]. *)
Definition updateOne (this : Document) (u : list UpdateOp) : M unit :=
  now <- Date_now ;;
  with_db (update_first (_id this)
             (applyUpdate (u ++ [U_set P_updatedAt (V_num now)]))).

(** [this.remove()] *)
Definition remove (this : Document) : M unit :=
  with_db (delete_first (_id this)).

(** *** The [pre('save')] hooks and [save] *)

(** The hook of the option [timestamps: true]. *)
Definition timestamps_pre_save (this : Document) : M Document :=
  if isNew this || isModified_any this then
    now <- Date_now ;;
    ret (assign P_updatedAt (Some (V_num now)) this)
  else ret this.

(** The hook that hashes the password.  When the password is not
    modified the hook calls [next()] and, having no [return], goes on:
    it draws a salt and hashes [this.password] all the same.
    [bcrypt.hash] rejects when [this.password] is [undefined], which ends
    the body there. *)
Definition pre_save_hash (this : Document) : M HookRun :=
  let unmodified := negb (isModified this P_password) in
  r <- fresh_random ;;
  let salt := bcrypt_genSalt E r in
  match password this with
  | None =>
      ret {| at_next := if unmodified then Some this else None;
             next_calls := if unmodified then 1 else 0;
             hash_calls := 0;
             at_end := this |}
  | Some s =>
      let this1 := assign P_password (Some (V_str (bcrypt_hash E s salt))) this in
      now <- Date_now ;;
      let this2 := assign P_updatedAt (Some (V_num now)) this1 in
      ret {| at_next := Some (if unmodified then this else this2);
             next_calls := if unmodified then 2 else 1;
             hash_calls := 1;
             at_end := this2 |}
  end.

(** The hook that records when the password changed. *)
Definition pre_save_passwordChangedAt (this : Document) : M Document :=
  if negb (isModified this P_password) || isNew this then ret this
  else
    now <- Date_now ;;
    ret (assign P_passwordChangedAt (Some (V_num (now - 1000))) this).

(** [this.save()].  The chain of hooks moves on at the first [next()] of
    a hook (later calls are ignored), so the write is made from the
    document as it was then; the modified paths are sent and then
    forgotten.  [None] is a rejected save.  The validators of the schema
    are left out: stored documents satisfy them, and the only string a
    handler below assigns to a validated path is a password that the
    route has already checked to have six characters or more. *)
Definition save (this : Document) : M (option Document) :=
  this1 <- timestamps_pre_save this ;;
  h <- pre_save_hash this1 ;;
  match at_next h with
  | None => ret None
  | Some this2 =>
      this3 <- pre_save_passwordChangedAt this2 ;;
      (if isNew this3 then with_db (fun c => (c ++ [fields this3])%list)
       else with_db (update_first (_id this3) (applyUpdate (delta this3)))) ;;;
      ret (Some {| fields := this3; modifiedPaths := []; isNew := false |})
  end.

(** *** Instance methods *)

(** [bcrypt.compare] rejects when the password was not selected. *)
Definition comparePassword (this : Document) (candidatePassword : string)
  : option bool :=
  option_map (bcrypt_compare E candidatePassword) (password this).

Definition generateAuthToken (this : Document) : string :=
  jwt_sign E {| jwt_id := _id this; jwt_role := role this |} (JWT_SECRET E)
    (match JWT_EXPIRE E with
     | None | Some EmptyString => "24h"
     | Some e => e
     end).

Definition isLocked (this : Document) : M bool :=
  match lockUntil this with
  | None => ret false
  | Some l => now <- Date_now ;; ret (now <? l)
  end.

Definition incLoginAttempts (this : Document) : M unit :=
  expired <- match lockUntil this with
             | None => ret false
             | Some l => now <- Date_now ;; ret (l <? now)
             end ;;
  if expired then
    updateOne this [U_unset P_lockUntil; U_set P_loginAttempts (V_num 1)]
  else
    let updates := [U_inc P_loginAttempts 1] in
    let reached := match loginAttempts this with
                   | Some n => lock_threshold <=? n + 1
                   | None => false
                   end in
    if reached then
      locked <- isLocked this ;;
      if negb locked then
        now <- Date_now ;;
        updateOne this (updates ++ [U_set P_lockUntil (V_num (now + two_hours))])
      else updateOne this updates
    else updateOne this updates.

Definition resetLoginAttempts (this : Document) : M unit :=
  updateOne this [U_unset P_loginAttempts; U_unset P_lockUntil].

Definition updateLastLogin (this : Document) : M (option Document) :=
  now <- Date_now ;;
  save (assign P_lastLogin (Some (V_num now)) this).

(** *** POST /api/admin/login *)

Definition email_is (e : string) (a : Admin) : bool := String.eqb (email a) e.

(** The handler once the account has been looked up. *)
Definition login_found (found : option Document) (req_password : string)
  : M Outcome :=
  match found with
  | None => ret (Responded 401 (Failure "Invalid credentials"))
  | Some admin =>
      locked <- isLocked admin ;;
      if locked then
        ret (Responded 423 (Failure
          "Account is locked due to too many failed login attempts. Please try again later."))
      else if negb (isActive admin) then
        ret (Responded 401 (Failure "Account is deactivated"))
      else
        match comparePassword admin req_password with
        | None => ret NextError
        | Some false =>
            incLoginAttempts admin ;;;
            ret (Responded 401 (Failure "Invalid credentials"))
        | Some true =>
            resetLoginAttempts admin ;;;
            saved <- updateLastLogin admin ;;
            match saved with
            | None => ret NextError
            | Some admin' =>
                let token := generateAuthToken admin' in
                ret (Responded 200 (LoginSuccess token
                       {| profile_id := _id admin';
                          profile_name := name admin';
                          profile_email := email admin';
                          profile_role := role admin';
                          profile_avatar := avatar admin';
                          profile_lastLogin := lastLogin admin' |}))
            end
        end
  end.

Definition login (req_email req_password : string) : M Outcome :=
  if negb (isEmail E req_email) || (String.length req_password <? 6)%nat then
    ret (Responded 400 ValidationFailed)
  else
    found <- findOne (email_is (normalizeEmail E req_email)) true ;;
    login_found found req_password.

(** *** POST /api/admin/forgot-password *)

(** What the module [nodemailer] exports.  The function that makes a
    transporter is [createTransport]. *)
Inductive NodemailerExport : Type :=
| createTransport
| createTestAccount
| getTestMessageUrl.

(** [nodemailer[property]]; [None] is [undefined]. *)
Definition nodemailer (property : string) : option NodemailerExport :=
  if String.eqb property "createTransport" then Some createTransport
  else if String.eqb property "createTestAccount" then Some createTestAccount
  else if String.eqb property "getTestMessageUrl" then Some getTestMessageUrl
  else None.

(** [createTransporter()] of [utils/emailService.js]: it calls
    [nodemailer.createTransporter(...)].  [None] is the [TypeError] of
    calling [undefined]. *)
Definition createTransporter : option NodemailerExport :=
  nodemailer "createTransporter".

(** [sendPasswordResetEmail]: [true] when the mail went out, [false] when
    an error was thrown: by [createTransporter()], with which the function
    starts, or by [transporter.sendMail], whose error is thrown on. *)
Definition sendPasswordResetEmail (address resetToken : string) : M bool :=
  match createTransporter with
  | None => ret false
  | Some _ =>
      if sendMail E address resetToken then
        deliver address resetToken ;;; ret true
      else ret false
  end.

Definition forgotPassword (req_email : string) : M Outcome :=
  if negb (isEmail E req_email) then ret (Responded 400 ValidationFailed)
  else
    let address := normalizeEmail E req_email in
    found <- findOne (email_is address) false ;;
    match found with
    | None => ret (Responded 404 (Failure "No admin found with that email"))
    | Some admin =>
        r <- fresh_random ;;
        let resetToken := randomBytes_hex E r in
        let admin1 := assign P_passwordResetToken
                        (Some (V_str (sha256_hex E resetToken))) admin in
        now <- Date_now ;;
        let admin2 := assign P_passwordResetExpires
                        (Some (V_num (now + one_hour))) admin1 in
        saved <- save admin2 ;;
        match saved with
        | None => ret NextError
        | Some admin3 =>
            sent <- sendPasswordResetEmail address resetToken ;;
            if sent then ret (Responded 200 (Success "Password reset email sent"))
            else
              let admin4 := assign P_passwordResetToken None admin3 in
              let admin5 := assign P_passwordResetExpires None admin4 in
              saved' <- save admin5 ;;
              match saved' with
              | None => ret NextError
              | Some _ => ret (Responded 500 (Failure "Email could not be sent"))
              end
        end
    end.

(** *** PUT /api/admin/reset-password/:token *)

(** [{ passwordResetToken: digest, passwordResetExpires: { $gt: now } }] *)
Definition reset_query (digest : string) (now : Z) (a : Admin) : bool :=
  match passwordResetToken a, passwordResetExpires a with
  | Some t, Some e => String.eqb t digest && (now <? e)
  | _, _ => false
  end.

Definition resetPassword (token req_password : string) : M Outcome :=
  if (String.length req_password <? 6)%nat then
    ret (Responded 400 ValidationFailed)
  else
    let resetToken := sha256_hex E token in
    now <- Date_now ;;
    found <- findOne (reset_query resetToken now) false ;;
    match found with
    | None => ret (Responded 400 (Failure "Invalid or expired reset token"))
    | Some admin =>
        let admin1 := assign P_password (Some (V_str req_password)) admin in
        let admin2 := assign P_passwordResetToken None admin1 in
        let admin3 := assign P_passwordResetExpires None admin2 in
        saved <- save admin3 ;;
        match saved with
        | None => ret NextError
        | Some _ => ret (Responded 200 (Success "Password reset successful"))
        end
    end.

(** *** middleware/auth.js *)

(** [protect]: the response it sends, or the account it puts in
    [req.admin]. *)
Definition protect (authorization : option string) : M (Outcome + Document) :=
  let token :=
    match authorization with
    | Some h => if has_prefix "Bearer" h
                then nth_error (split_space EmptyString h) 1
                else None
    | None => None
    end in
  match token with
  | None | Some EmptyString =>
      ret (inl (Responded 401 (Failure "Not authorized to access this route")))
  | Some t =>
      match jwt_verify E t (JWT_SECRET E) with
      | None => ret (inl (Responded 401 (Failure "Token is not valid")))
      | Some decoded =>
          found <- findOne (by_id (jwt_id decoded)) false ;;
          match found with
          | None => ret (inl (Responded 401 (Failure "Token is not valid")))
          | Some admin => ret (inr admin)
          end
      end
  end.

Definition role_name (r : Role) : string :=
  match r with
  | role_admin => "admin"
  | role_super_admin => "super-admin"
  end.

(** [authorize(...roles)]: [None] lets the request through. *)
Definition authorize (roles : list Role) (req_admin : option Document)
  : option Outcome :=
  match req_admin with
  | None => Some (Responded 401 (Failure "Not authorized to access this route"))
  | Some a =>
      if negb (existsb (Role_eqb (role a)) roles) then
        Some (Responded 403 (Failure
          ("User role " ++ role_name (role a)
           ++ " is not authorized to access this route")%string))
      else None
  end.

(** *** DELETE /api/admin/:id *)

(** The handler, with [req.admin] set by [protect]. *)
Definition deleteAdmin_handler (req_admin : Document) (id : string)
  : M Outcome :=
  found <- findOne (by_id id) false ;;
  match found with
  | None => ret (Responded 404 (Failure "Admin not found"))
  | Some admin =>
      if String.eqb (_id admin) (_id req_admin) then
        ret (Responded 400 (Failure "Cannot delete your own account"))
      else
        remove admin ;;;
        ret (Responded 200 (Success "Admin deleted successfully"))
  end.

(** The route: [protect], [authorize('super-admin')], then the handler. *)
Definition deleteAdmin (authorization : option string) (id : string)
  : M Outcome :=
  p <- protect authorization ;;
  match p with
  | inl response => ret response
  | inr req_admin =>
      match authorize [role_super_admin] (Some req_admin) with
      | Some response => ret response
      | None => deleteAdmin_handler req_admin id
      end
  end.

End Backend.


(** ** Notions used by the statements *)

(** The failure count as the model reads it: the default stands for a
    missing value. *)
Definition attempts_of (a : Admin) : Z :=
  match loginAttempts a with
  | Some n => n
  | None => 0
  end.

(** The value of a path as the model reads it from a stored document
    (schema defaults applied, password selected). *)
Definition readPath (q : Path) (a : Admin) : option Value :=
  getPath q (hydrate true a).

(** A path holds what was last written to it, when the value is of the
    kind of the path. *)
Definition well_kinded (p : Path) (v : option Value) : Prop :=
  exists a : Admin, getPath p a = v.

(** On path [p] the document [d] holds what the stored [x] holds, unless
    [p] was assigned a new value. *)
Definition synced (d : Document) (x : Admin) (p : Path) : Prop :=
  isModified d p = false -> getPath p d = getPath p x.

(** Readings of the clock never go back. *)
Definition monotone_clock (E : Env) : Prop :=
  forall i j : nat, (i <= j)%nat -> clock E i <= clock E j.

(** The request passes the validation chain of the login route. *)
Definition valid_login_request (E : Env) (req_email req_password : string) : Prop :=
  isEmail E req_email = true /\ (6 <= String.length req_password)%nat.

Definition locked_response : Outcome :=
  Responded 423 (Failure
    "Account is locked due to too many failed login attempts. Please try again later.").

Definition invalid_credentials : Outcome :=
  Responded 401 (Failure "Invalid credentials").

(** Login attempts made one after the other on one address. *)
Fixpoint attempt_all (E : Env) (req_email : string) (passwords : list string)
  : M (list Outcome) :=
  match passwords with
  | [] => ret []
  | p :: ps =>
      r <- login E req_email p ;;
      rs <- attempt_all E req_email ps ;;
      ret (r :: rs)
  end.

(** The account under address [e] is active, has no lock, has the hash
    [h] and has counted [c] failures. *)
Definition counting (e h : string) (c : Z) (w : World) : Prop :=
  unique_ids (db w) /\
  exists a, find (email_is e) (db w) = Some a /\
            isActive a = true /\ lockUntil a = None /\
            password a = Some h /\ attempts_of a = c.

(** [p] passes the validation of the login route and is not the password
    behind the hash [h]. *)
Definition wrong_password (E : Env) (h p : string) : Prop :=
  (6 <= String.length p)%nat /\ bcrypt_compare E p h = false.

(** The document in memory once its changes have been written. *)
Definition after_save (this : Document) : Document :=
  {| fields := this; modifiedPaths := []; isNew := false |}.

Definition deleted_response : Outcome :=
  Responded 200 (Success "Admin deleted successfully").

(** The document once the hook of [timestamps: true] has run at time [t]. *)
Definition stamped (t : Z) (this : Document) : Document :=
  if isModified_any this then assign P_updatedAt (Some (V_num t)) this
  else this.

(** The document [forgotPassword] saves for the stored account [a], in
    the world [w] the handler starts in. *)
Definition reset_request_doc (E : Env) (w : World) (a : Admin) : Document :=
  stamped (clock E (S (tick w)))
    (assign P_passwordResetExpires (Some (V_num (clock E (tick w) + one_hour)))
       (assign P_passwordResetToken
          (Some (V_str (sha256_hex E (randomBytes_hex E (rnd w)))))
          (hydrate false a))).

(** The document [resetPassword] saves for the stored account [a]. *)
Definition reset_doc (E : Env) (w : World) (req_password : string) (a : Admin)
  : Document :=
  assign P_passwordChangedAt (Some (V_num (clock E (S (S (S (tick w)))) - 1000)))
    (assign P_updatedAt (Some (V_num (clock E (S (S (tick w))))))
       (assign P_password
          (Some (V_str (bcrypt_hash E req_password (bcrypt_genSalt E (rnd w)))))
          (assign P_updatedAt (Some (V_num (clock E (S (tick w)))))
             (assign P_passwordResetExpires None
                (assign P_passwordResetToken None
                   (assign P_password (Some (V_str req_password))
                      (hydrate false a))))))).

Definition reset_done : Outcome :=
  Responded 200 (Success "Password reset successful").

Definition reset_refused : Outcome :=
  Responded 400 (Failure "Invalid or expired reset token").

(** A successful [resetPassword] leaves every path outside [paths] of the
    account it was made for reading as it did. *)
Definition reset_touches_only (E : Env) (paths : list Path) : Prop :=
  forall (w : World) (token req_password : string) (a a' : Admin),
    unique_ids (db w) ->
    result (resetPassword E token req_password) w = reset_done ->
    find (reset_query (sha256_hex E token) (clock E (tick w))) (db w) = Some a ->
    findById (_id a) (db (run (resetPassword E token req_password) w)) = Some a' ->
    forall q, existsb (Path_eqb q) paths = false -> readPath q a' = readPath q a.

(** *** Requests in flight together *)

(** The handler of the login route awaits between the lookup of the
    account and what it does with the document it got; another request
    can run in between. *)
Definition login_lookup (E : Env) (req_email : string) : M (option Document) :=
  findOne (email_is (normalizeEmail E req_email)) true.

(** Two requests that both look the account up before either goes on. *)
Definition interleaved_logins (E : Env) (req_email p1 p2 : string)
  : M (Outcome * Outcome) :=
  d1 <- login_lookup E req_email ;;
  d2 <- login_lookup E req_email ;;
  r1 <- login_found E d1 p1 ;;
  r2 <- login_found E d2 p2 ;;
  ret (r1, r2).

(** The same two requests, the second starting when the first is over. *)
Definition consecutive_logins (E : Env) (req_email p1 p2 : string)
  : M (Outcome * Outcome) :=
  r1 <- login E req_email p1 ;;
  r2 <- login E req_email p2 ;;
  ret (r1, r2).

(** The counter updates of requests that have each read the account
    earlier, in the order they reach the store. *)
Fixpoint count_all (E : Env) (read : list Document) : M unit :=
  match read with
  | [] => ret tt
  | d :: ds => incLoginAttempts E d ;;; count_all E ds
  end.

(** The count and the lock of the stored account [id]. *)
Definition counter_and_lock (id : string) (w : World)
  : option (option Z * option Z) :=
  option_map (fun a => (loginAttempts a, lockUntil a)) (findById id (db w)).

(** *** The request for a reset, step by step *)

(** [forgotPassword] up to the call of the mailer: the response that ends
    the request there, or the saved document with the address and the raw
    token. *)
Definition forgotPassword_issue (E : Env) (req_email : string)
  : M (Outcome + Document * string * string) :=
  if negb (isEmail E req_email) then ret (inl (Responded 400 ValidationFailed))
  else
    let address := normalizeEmail E req_email in
    found <- findOne (email_is address) false ;;
    match found with
    | None =>
        ret (inl (Responded 404 (Failure "No admin found with that email")))
    | Some admin =>
        r <- fresh_random ;;
        let resetToken := randomBytes_hex E r in
        let admin1 := assign P_passwordResetToken
                        (Some (V_str (sha256_hex E resetToken))) admin in
        now <- Date_now E ;;
        let admin2 := assign P_passwordResetExpires
                        (Some (V_num (now + one_hour))) admin1 in
        saved <- save E admin2 ;;
        match saved with
        | None => ret (inl NextError)
        | Some admin3 => ret (inr (admin3, address, resetToken))
        end
    end.

(** The rest of [forgotPassword]: the mail and, when it fails, the
    rollback. *)
Definition forgotPassword_dispatch (E : Env)
           (issued : Document * string * string) : M Outcome :=
  let admin3 := fst (fst issued) in
  let address := snd (fst issued) in
  let resetToken := snd issued in
  sent <- sendPasswordResetEmail E address resetToken ;;
  if sent then ret (Responded 200 (Success "Password reset email sent"))
  else
    let admin4 := assign P_passwordResetToken None admin3 in
    let admin5 := assign P_passwordResetExpires None admin4 in
    saved' <- save E admin5 ;;
    match saved' with
    | None => ret NextError
    | Some _ => ret (Responded 500 (Failure "Email could not be sent"))
    end.

(** The document the rollback saves for the stored account [a], [t] being
    the reading of the clock at that save. *)
Definition rollback_doc (E : Env) (w : World) (t : Z) (a : Admin) : Document :=
  stamped t
    (assign P_passwordResetExpires None
       (assign P_passwordResetToken None
          (after_save (reset_request_doc E w a)))).

Definition mail_failed : Outcome :=
  Responded 500 (Failure "Email could not be sent").

(** A request whose mail fails leaves the reset token of the account and
    its expiry as they were. *)
Definition failed_mail_keeps_reset_state (E : Env) : Prop :=
  forall (w : World) (req_email : string) (a a' : Admin),
    unique_ids (db w) ->
    find (email_is (normalizeEmail E req_email)) (db w) = Some a ->
    result (forgotPassword E req_email) w = mail_failed ->
    findById (_id a) (db (run (forgotPassword E req_email) w)) = Some a' ->
    passwordResetToken a' = passwordResetToken a /\
    passwordResetExpires a' = passwordResetExpires a.

(** ** The rest of [middleware/auth.js] *)

(** [optionalAuth]: what it leaves in [req.admin].  The request always
    goes on; a token that does not verify is logged and forgotten. *)
Definition optionalAuth (E : Env) (authorization : option string)
  : M (option Document) :=
  let token :=
    match authorization with
    | Some h => if has_prefix "Bearer" h
                then nth_error (split_space EmptyString h) 1
                else None
    | None => None
    end in
  match token with
  | None | Some EmptyString => ret None
  | Some t =>
      match jwt_verify E t (JWT_SECRET E) with
      | None => ret None
      | Some decoded => findOne (by_id (jwt_id decoded)) false
      end
  end.

(** ** More of the admin routes *)

(** *** PUT /api/admin/change-password *)

(** The handler, with [req.admin] set by [protect].  When the account is
    gone, [admin] is [null] and the call of [comparePassword] throws. *)
Definition changePassword_handler (E : Env) (req_admin : Document)
           (currentPassword newPassword : string) : M Outcome :=
  if (String.length currentPassword <? 6)%nat
     || (String.length newPassword <? 6)%nat then
    ret (Responded 400 ValidationFailed)
  else
    found <- findOne (by_id (_id req_admin)) true ;;
    match found with
    | None => ret NextError
    | Some admin =>
        match comparePassword E admin currentPassword with
        | None => ret NextError
        | Some false =>
            ret (Responded 400 (Failure "Current password is incorrect"))
        | Some true =>
            let admin1 := assign P_password (Some (V_str newPassword)) admin in
            saved <- save E admin1 ;;
            match saved with
            | None => ret NextError
            | Some _ =>
                ret (Responded 200 (Success "Password changed successfully"))
            end
        end
    end.

(** The route: [protect], then the handler. *)
Definition changePassword (E : Env) (authorization : option string)
           (currentPassword newPassword : string) : M Outcome :=
  p <- protect E authorization ;;
  match p with
  | inl response => ret response
  | inr req_admin => changePassword_handler E req_admin currentPassword newPassword
  end.

(** *** GET /api/admin/profile and GET /api/admin *)

(** The [data] of [GET /profile]: [Admin.findById(req.admin.id)]. *)
Definition getProfile (E : Env) (authorization : option string)
  : M (Outcome + option Document) :=
  p <- protect E authorization ;;
  match p with
  | inl response => ret (inl response)
  | inr req_admin =>
      found <- findOne (by_id (_id req_admin)) false ;;
      ret (inr found)
  end.

(** [Admin.find().select('-password')] *)
Definition find_all : M (list Document) :=
  c <- get_db ;; ret (map (hydrate false) c).

(** The [data] of [GET /api/admin]. *)
Definition listAdmins (E : Env) (authorization : option string)
  : M (Outcome + list Document) :=
  p <- protect E authorization ;;
  match p with
  | inl response => ret (inl response)
  | inr req_admin =>
      match authorize [role_super_admin] (Some req_admin) with
      | Some response => ret (inl response)
      | None => all <- find_all ;; ret (inr all)
      end
  end.

(** *** [AdminSchema.statics.getStats] *)

Record AdminStats : Type := {
  total : nat;
  active : nat;
  superAdmins : nat;
  admins : nat
}.

Definition countDocuments (q : Admin -> bool) : M nat :=
  c <- get_db ;; ret (List.length (filter q c)).

Definition getStats : M AdminStats :=
  total <- countDocuments (fun _ => true) ;;
  active <- countDocuments (fun a => Bool.eqb (isActive a) true) ;;
  superAdmins <- countDocuments (fun a => Role_eqb (role a) role_super_admin) ;;
  admins <- countDocuments (fun a => Role_eqb (role a) role_admin) ;;
  ret {| total := total; active := active;
         superAdmins := superAdmins; admins := admins |}.

(** The [data] of [GET /api/admin/stats]. *)
Definition adminStats (E : Env) (authorization : option string)
  : M (Outcome + AdminStats) :=
  p <- protect E authorization ;;
  match p with
  | inl response => ret (inl response)
  | inr req_admin =>
      match authorize [role_super_admin] (Some req_admin) with
      | Some response => ret (inl response)
      | None => stats <- getStats ;; ret (inr stats)
      end
  end.


(** ** The pattern the schema requires of [email]

    [match: /^\w+([\.-]?\w+)*@\w+([\.-]?\w+)*(\.\w{2,3})+$/].  The pattern
    has neither back-references nor look-around, so [test] is membership in
    a regular language; it is decided here with derivatives.  A character
    is a code unit below 256. *)

Inductive Regex : Type :=
| R_none
| R_empty
| R_class (c : ascii -> bool)
| R_seq (r s : Regex)
| R_alt (r s : Regex)
| R_star (r : Regex).

Definition R_opt (r : Regex) : Regex := R_alt R_empty r.
Definition R_plus (r : Regex) : Regex := R_seq r (R_star r).

Fixpoint nullable (r : Regex) : bool :=
  match r with
  | R_none => false
  | R_empty => true
  | R_class _ => false
  | R_seq r s => nullable r && nullable s
  | R_alt r s => nullable r || nullable s
  | R_star _ => true
  end.

Fixpoint derive (c : ascii) (r : Regex) : Regex :=
  match r with
  | R_none => R_none
  | R_empty => R_none
  | R_class p => if p c then R_empty else R_none
  | R_seq r s =>
      if nullable r then R_alt (R_seq (derive c r) s) (derive c s)
      else R_seq (derive c r) s
  | R_alt r s => R_alt (derive c r) (derive c s)
  | R_star r => R_seq (derive c r) (R_star r)
  end.

Fixpoint test_from (r : Regex) (s : list ascii) : bool :=
  match s with
  | [] => nullable r
  | c :: s' => test_from (derive c r) s'
  end.

Definition test (r : Regex) (s : string) : bool :=
  test_from r (list_ascii_of_string s).

(** [\w] *)
Definition is_word (c : ascii) : bool :=
  let n := nat_of_ascii c in
  ((48 <=? n) && (n <=? 57) || (65 <=? n) && (n <=? 90)
   || (97 <=? n) && (n <=? 122) || (n =? 95))%nat.

(** [[\.-]] *)
Definition is_dot_or_dash (c : ascii) : bool :=
  Ascii.eqb c "."%char || Ascii.eqb c "-"%char.

(** [\w+] *)
Definition words : Regex := R_plus (R_class is_word).

(** [\w+([\.-]?\w+)*] *)
Definition labels : Regex :=
  R_seq words (R_star (R_seq (R_opt (R_class is_dot_or_dash)) words)).

(** [\.\w{2,3}] *)
Definition final_label : Regex :=
  R_seq (R_class (Ascii.eqb "."%char))
    (R_seq (R_class is_word) (R_seq (R_class is_word) (R_opt (R_class is_word)))).

Definition email_pattern : Regex :=
  R_seq labels
    (R_seq (R_class (Ascii.eqb "@"%char)) (R_seq labels (R_plus final_label))).

(** The strings of a pattern. *)
Inductive Matches : Regex -> list ascii -> Prop :=
| M_empty : Matches R_empty []
| M_class p c : p c = true -> Matches (R_class p) [c]
| M_seq r s u v : Matches r u -> Matches s v -> Matches (R_seq r s) (u ++ v)%list
| M_alt_l r s u : Matches r u -> Matches (R_alt r s) u
| M_alt_r r s u : Matches s u -> Matches (R_alt r s) u
| M_star_nil r : Matches (R_star r) []
| M_star_cons r u v : Matches r u -> Matches (R_star r) v -> Matches (R_star r) (u ++ v)%list.

(** Made of word characters only, and not empty. *)
Definition plain (s : string) : Prop :=
  s <> EmptyString /\ forallb is_word (list_ascii_of_string s) = true.

(** ** The routes that edit an account

    [PUT /api/admin/profile] and [PUT /api/admin/:id].  The body is JSON
    whose [name], [email], [role] and [avatar] are strings and whose
    [isActive] is a boolean, each of them possibly absent. *)

Record AccountBody : Type := {
  body_name : option string;
  body_email : option string;
  body_role : option string;
  body_isActive : option bool;
  body_avatar : option string
}.

(** [\s], the characters that [trim()] of express-validator and
    [trim: true] of the schema remove at both ends. *)
Definition is_space (c : ascii) : bool :=
  let n := nat_of_ascii c in
  ((9 <=? n) && (n <=? 13) || (n =? 32) || (n =? 160))%nat.

Fixpoint ltrim (s : string) : string :=
  match s with
  | EmptyString => EmptyString
  | String c s' => if is_space c then ltrim s' else s
  end.

Fixpoint rtrim (s : string) : string :=
  match s with
  | EmptyString => EmptyString
  | String c s' =>
      match rtrim s' with
      | EmptyString => if is_space c then EmptyString else String c EmptyString
      | t => String c t
      end
  end.

Definition trim (s : string) : string := rtrim (ltrim s).

(** [body('name').optional().trim().isLength({ min: 2, max: 50 })] *)
Definition valid_name (v : option string) : bool :=
  match v with
  | None => true
  | Some n => (2 <=? String.length (trim n))%nat
              && (String.length (trim n) <=? 50)%nat
  end.

(** [body('email').optional().isEmail().normalizeEmail()] *)
Definition valid_email (E : Env) (v : option string) : bool :=
  match v with
  | None => true
  | Some e => isEmail E e
  end.

Definition role_of_string (s : string) : option Role :=
  if String.eqb s "admin" then Some role_admin
  else if String.eqb s "super-admin" then Some role_super_admin
  else None.

(** [body('role').optional().isIn(['admin', 'super-admin'])] *)
Definition valid_role (v : option string) : bool :=
  match v with
  | None => true
  | Some r => match role_of_string r with Some _ => true | None => false end
  end.

(** [if (v) ...] on a string or [undefined]. *)
Definition truthy (v : option string) : option string :=
  match v with
  | Some EmptyString => None
  | _ => v
  end.

(** [if (present) this.p = v] *)
Definition assign_if (p : Path) (v : option Value) (this : Document) : Document :=
  match v with
  | Some _ => assign p v this
  | None => this
  end.

(** The validators of the schema on the paths these routes assign:
    [name] is required and has at most 50 characters, [email] is required
    and matches the pattern.  Mongoose validates the modified paths, and
    does so before the other [pre('save')] hooks. *)
Definition schema_valid (this : Document) : bool :=
  (negb (isModified this P_name)
   || negb (String.eqb (name this) EmptyString)
      && (String.length (name this) <=? 50)%nat)
  && (negb (isModified this P_email)
      || negb (String.eqb (email this) EmptyString)
         && test email_pattern (email this)).

(** [unique: true] on [email]: the index refuses a write that would give
    the address of another document. *)
Definition email_taken (this : Document) (c : Collection) : bool :=
  existsb (fun b => String.eqb (email b) (email this)
                    && negb (String.eqb (_id b) (_id this))) c.

(** [this.save()] with the validators and the unique index.  A write
    that the index refuses comes after the hooks have run. *)
Definition save_checked (E : Env) (this : Document) : M (option Document) :=
  if negb (schema_valid this) then ret None
  else
    c <- get_db ;;
    if isModified this P_email && email_taken this c then
      this1 <- timestamps_pre_save E this ;;
      h <- pre_save_hash E this1 ;;
      match at_next h with
      | None => ret None
      | Some this2 => pre_save_passwordChangedAt E this2 ;;; ret None
      end
    else save E this.

(** *** PUT /api/admin/profile *)

(** The response and its [data]. *)
Definition updateProfile_handler (E : Env) (req_admin : Document)
           (b : AccountBody) : M (Outcome * option Document) :=
  if negb (valid_name (body_name b) && valid_email E (body_email b)) then
    ret (Responded 400 ValidationFailed, None)
  else
    let name := option_map trim (body_name b) in
    let email := option_map (normalizeEmail E) (body_email b) in
    let avatar := body_avatar b in
    found <- findOne (by_id (_id req_admin)) false ;;
    match found with
    | None => ret (NextError, None)
    | Some admin =>
        let admin1 :=
          assign_if P_name
            (option_map (fun n => V_str (trim n)) (truthy name)) admin in
        let admin2 := assign_if P_email (option_map V_str (truthy email)) admin1 in
        let admin3 :=
          assign_if P_avatar
            (option_map (fun a => V_str (trim a)) (truthy avatar)) admin2 in
        saved <- save_checked E admin3 ;;
        match saved with
        | None => ret (NextError, None)
        | Some admin' =>
            ret (Responded 200 (Success "Profile updated successfully"),
                 Some admin')
        end
    end.

Definition updateProfile (E : Env) (authorization : option string)
           (b : AccountBody) : M (Outcome * option Document) :=
  p <- protect E authorization ;;
  match p with
  | inl response => ret (response, None)
  | inr req_admin => updateProfile_handler E req_admin b
  end.

(** *** PUT /api/admin/:id *)

Definition updateAdmin_handler (E : Env) (id : string) (b : AccountBody)
  : M (Outcome * option Document) :=
  if negb (valid_name (body_name b) && valid_email E (body_email b)
           && valid_role (body_role b)) then
    ret (Responded 400 ValidationFailed, None)
  else
    found <- findOne (by_id id) false ;;
    match found with
    | None => ret (Responded 404 (Failure "Admin not found"), None)
    | Some admin =>
        let name := option_map trim (body_name b) in
        let email := option_map (normalizeEmail E) (body_email b) in
        let role := body_role b in
        let isActive := body_isActive b in
        let avatar := body_avatar b in
        let admin1 :=
          assign_if P_name
            (option_map (fun n => V_str (trim n)) (truthy name)) admin in
        let admin2 := assign_if P_email (option_map V_str (truthy email)) admin1 in
        let admin3 :=
          assign_if P_role
            (option_map V_role
               (match truthy role with
                | Some r => role_of_string r
                | None => None
                end)) admin2 in
        let admin4 := assign_if P_isActive (option_map V_bool isActive) admin3 in
        let admin5 :=
          assign_if P_avatar
            (option_map (fun a => V_str (trim a)) (truthy avatar)) admin4 in
        saved <- save_checked E admin5 ;;
        match saved with
        | None => ret (NextError, None)
        | Some admin' =>
            ret (Responded 200 (Success "Admin updated successfully"),
                 Some admin')
        end
    end.

Definition updateAdmin (E : Env) (authorization : option string) (id : string)
           (b : AccountBody) : M (Outcome * option Document) :=
  p <- protect E authorization ;;
  match p with
  | inl response => ret (response, None)
  | inr req_admin =>
      match authorize [role_super_admin] (Some req_admin) with
      | Some response => ret (response, None)
      | None => updateAdmin_handler E id b
      end
  end.

(** The documents the two routes save for the stored account [raw]. *)
Definition edited_profile (E : Env) (b : AccountBody) (raw : Admin) : Document :=
  assign_if P_avatar
    (option_map (fun a => V_str (trim a)) (truthy (body_avatar b)))
    (assign_if P_email
       (option_map V_str (truthy (option_map (normalizeEmail E) (body_email b))))
       (assign_if P_name
          (option_map (fun n => V_str (trim n))
             (truthy (option_map trim (body_name b))))
          (hydrate false raw))).

Definition edited_account (E : Env) (b : AccountBody) (raw : Admin) : Document :=
  assign_if P_avatar
    (option_map (fun a => V_str (trim a)) (truthy (body_avatar b)))
    (assign_if P_isActive (option_map V_bool (body_isActive b))
       (assign_if P_role
          (option_map V_role
             (match truthy (body_role b) with
              | Some r => role_of_string r
              | None => None
              end))
          (assign_if P_email
             (option_map V_str
                (truthy (option_map (normalizeEmail E) (body_email b))))
             (assign_if P_name
                (option_map (fun n => V_str (trim n))
                   (truthy (option_map trim (body_name b))))
                (hydrate false raw))))).

(** A body that only sets [role] and [isActive]. *)
Definition access_body (r : option string) (active : option bool) : AccountBody :=
  {| body_name := None; body_email := None; body_role := r;
     body_isActive := active; body_avatar := None |}.

(** A body that only sets [email]. *)
Definition email_body (e : string) : AccountBody :=
  {| body_name := None; body_email := Some e; body_role := None;
     body_isActive := None; body_avatar := None |}.

(** The paths the two routes can write. *)
Definition profile_paths : list Path :=
  [P_name; P_email; P_avatar; P_updatedAt].

Definition account_paths : list Path :=
  [P_name; P_email; P_role; P_isActive; P_avatar; P_updatedAt].

(** What a run of one of the two routes can have done to the store:
    nothing, or one save of a document for the account [id] that has
    changes on [paths] only. *)
Definition edited_store (paths : list Path) (id : string) (w w' : World) : Prop :=
  outbox w' = outbox w /\
  (db w' = db w \/
   exists d : Document,
     db w' = update_first id (applyUpdate (delta d)) (db w) /\
     forall q, existsb (Path_eqb q) paths = false -> isModified d q = false).

(** ** Notions used by the further statements *)

Definition deactivated_response : Outcome :=
  Responded 401 (Failure "Account is deactivated").

Definition no_space (t : string) : Prop :=
  forall c, In c (list_ascii_of_string t) -> c <> " "%char.

Definition forbidden_for_admin : Outcome :=
  Responded 403
    (Failure "User role admin is not authorized to access this route").

(** The paths a failed login can write. *)
Definition counter_paths : list Path :=
  [P_loginAttempts; P_lockUntil; P_updatedAt].

(** The document [changePassword] saves for the stored account [a]. *)
Definition changed_doc (E : Env) (w : World) (newPassword : string) (a : Admin)
  : Document :=
  assign P_passwordChangedAt (Some (V_num (clock E (S (S (tick w))) - 1000)))
    (assign P_updatedAt (Some (V_num (clock E (S (tick w)))))
       (assign P_password
          (Some (V_str (bcrypt_hash E newPassword (bcrypt_genSalt E (rnd w)))))
          (assign P_updatedAt (Some (V_num (clock E (tick w))))
             (assign P_password (Some (V_str newPassword)) (hydrate true a))))).

(** The path an update operator writes. *)
Definition op_path (op : UpdateOp) : Path :=
  match op with
  | U_set p _ => p
  | U_unset p => p
  | U_inc p _ => p
  end.

(** ** The skills kept in memory ([backend/routes/skills.js])

    [skills] is an array of the module, shared by every request.  The
    handlers below are the bodies of the routes once [protect] and
    [authorize('admin', 'super-admin')] have let the request through; the
    body is JSON whose [category] and [name] are strings and whose
    [level] is an integer.  An identifier is below 2^53, so that the
    comparison with the number [parseInt] returns is that of integers. *)

Module Skills.

Record Skill : Type := {
  name : string;
  level : Z
}.

Record Category : Type := {
  id : Z;
  category : string;
  skills : list Skill
}.

Definition Store : Type := list Category.

(** The array the module starts with. *)
Definition initial : Store :=
  [ {| id := 1; category := "Programming Languages";
       skills := [ {| name := "HTML"; level := 90 |};
                   {| name := "CSS"; level := 85 |};
                   {| name := "JavaScript"; level := 80 |};
                   {| name := "Java"; level := 75 |};
                   {| name := "Python"; level := 85 |} ] |};
    {| id := 2; category := "Databases";
       skills := [ {| name := "SQL"; level := 80 |};
                   {| name := "MySQL"; level := 75 |};
                   {| name := "MongoDB"; level := 70 |} ] |};
    {| id := 3; category := "Computer Fundamentals";
       skills := [ {| name := "Object Oriented Programming"; level := 85 |};
                   {| name := "Operating System"; level := 80 |};
                   {| name := "DBMS"; level := 75 |} ] |};
    {| id := 4; category := "Development Tools";
       skills := [ {| name := "VS Code"; level := 90 |};
                   {| name := "GitHub"; level := 85 |};
                   {| name := "Git"; level := 80 |} ] |} ].

(** [String.prototype.toLowerCase] on code units below 256. *)
Definition lower_char (c : ascii) : ascii :=
  let n := nat_of_ascii c in
  if ((65 <=? n) && (n <=? 90)
      || (192 <=? n) && (n <=? 222) && negb (n =? 215))%nat
  then ascii_of_nat (n + 32)
  else c.

Fixpoint toLowerCase (s : string) : string :=
  match s with
  | EmptyString => EmptyString
  | String c s' => String (lower_char c) (toLowerCase s')
  end.

(** The value of a digit in the radix, if it is one. *)
Definition digit_value (radix : Z) (c : ascii) : option Z :=
  let n := Z.of_nat (nat_of_ascii c) in
  let v := if (48 <=? n) && (n <=? 57) then Some (n - 48)
           else if (97 <=? n) && (n <=? 122) then Some (n - 87)
           else if (65 <=? n) && (n <=? 90) then Some (n - 55)
           else None in
  match v with
  | Some d => if d <? radix then Some d else None
  | None => None
  end.

(** The longest prefix of digits; [None] when there is no digit. *)
Fixpoint digits (radix : Z) (acc : option Z) (s : string) : option Z :=
  match s with
  | EmptyString => acc
  | String c s' =>
      match digit_value radix c with
      | Some d =>
          digits radix
            (Some (radix * (match acc with Some a => a | None => 0 end) + d)) s'
      | None => acc
      end
  end.

(** [parseInt(s)]; [None] is [NaN]. *)
Definition parseInt (s : string) : option Z :=
  let s1 := ltrim s in
  let signed :=
    match s1 with
    | String "-" r => (true, r)
    | String "+" r => (false, r)
    | _ => (false, s1)
    end in
  let prefixed :=
    match snd signed with
    | String "0" (String "x" r) => (16, r)
    | String "0" (String "X" r) => (16, r)
    | r => (10, r)
    end in
  option_map (fun n => if fst signed then - n else n)
             (digits (fst prefixed) None (snd prefixed)).

(** [s.id === categoryId] *)
Definition id_is (categoryId : option Z) (c : Category) : bool :=
  match categoryId with
  | Some n => id c =? n
  | None => false
  end.

(** [array.findIndex(p)]; [None] is -1. *)
Fixpoint findIndex {A : Type} (p : A -> bool) (l : list A) : option nat :=
  match l with
  | [] => None
  | x :: l' => if p x then Some O else option_map S (findIndex p l')
  end.

(** [array.splice(i, 1)]: what is left in the array. *)
Fixpoint splice1 {A : Type} (i : nat) (l : list A) {struct l} : list A :=
  match l, i with
  | [], _ => []
  | _ :: l', O => l'
  | x :: l', S i' => x :: splice1 i' l'
  end.

(** The element of the array that [find] returned is changed in place. *)
Fixpoint update_found (p : Category -> bool) (f : Category -> Category)
         (s : Store) : Store :=
  match s with
  | [] => []
  | c :: s' => if p c then f c :: s' else c :: update_found p f s'
  end.

Definition same_name (a b : string) : bool :=
  String.eqb (toLowerCase a) (toLowerCase b).

(** [POST /api/skills/category] *)
Definition createCategory (body_category : string) (s : Store)
  : (Outcome * option Category) * Store :=
  let category := trim body_category in
  if negb ((3 <=? String.length category)%nat
           && (String.length category <=? 50)%nat) then
    ((Responded 400 ValidationFailed, None), s)
  else
    match find (fun c => same_name (Skills.category c) category) s with
    | Some _ =>
        ((Responded 400 (Failure "Skill category already exists"), None), s)
    | None =>
        let newCategory :=
          {| id := Z.of_nat (List.length s) + 1;
             category := category; skills := [] |} in
        ((Responded 201 (Success "Skill category created successfully"),
          Some newCategory),
         (s ++ [newCategory])%list)
    end.

(** [POST /api/skills/category/:categoryId] *)
Definition addSkill (param_categoryId : string) (body_name : string)
           (body_level : Z) (s : Store) : (Outcome * option Skill) * Store :=
  let name := trim body_name in
  if negb ((2 <=? String.length name)%nat && (String.length name <=? 30)%nat
           && (0 <=? body_level) && (body_level <=? 100)) then
    ((Responded 400 ValidationFailed, None), s)
  else
    let categoryId := parseInt param_categoryId in
    match find (id_is categoryId) s with
    | None => ((Responded 404 (Failure "Skill category not found"), None), s)
    | Some category =>
        match find (fun k => same_name (Skills.name k) name) (skills category) with
        | Some _ =>
            ((Responded 400 (Failure "Skill already exists in this category"),
              None), s)
        | None =>
            let newSkill := {| name := name; level := body_level |} in
            ((Responded 201 (Success "Skill added successfully"), Some newSkill),
             update_found (id_is categoryId)
               (fun c => {| id := id c; category := Skills.category c;
                            skills := (skills c ++ [newSkill])%list |}) s)
        end
    end.

(** [DELETE /api/skills/category/:categoryId] *)
Definition deleteCategory (param_categoryId : string) (s : Store)
  : (Outcome * option Category) * Store :=
  let categoryId := parseInt param_categoryId in
  match findIndex (id_is categoryId) s with
  | None => ((Responded 404 (Failure "Skill category not found"), None), s)
  | Some categoryIndex =>
      ((Responded 200 (Success "Skill category deleted successfully"),
        nth_error s categoryIndex),
       splice1 categoryIndex s)
  end.


(** No two categories have the same name, whatever the case. *)
Definition distinct_names (s : Store) : Prop :=
  NoDup (map (fun c => toLowerCase (category c)) s).

End Skills.
(** ** A small environment and store to run the handlers on *)

Module Sample.

Definition env : Env := {|
  clock := fun n => 1000000 + Z.of_nat n;
  bcrypt_genSalt := fun _ => "s";
  bcrypt_hash := fun s salt => ("$" ++ salt ++ "$" ++ s)%string;
  bcrypt_compare := fun candidate h => String.eqb ("$s$" ++ candidate)%string h;
  randomBytes_hex := fun n => match n with O => "c0ffee" | S _ => "decade" end;
  sha256_hex := fun s => ("#" ++ s)%string;
  jwt_sign := fun p secret _ => (jwt_id p ++ "." ++ role_name (jwt_role p) ++ "." ++ secret)%string;
  jwt_verify := fun t secret =>
    if String.eqb t ("a1.super-admin." ++ secret)%string
    then Some {| jwt_id := "a1"; jwt_role := role_super_admin |}
    else if String.eqb t ("a2.admin." ++ secret)%string
    then Some {| jwt_id := "a2"; jwt_role := role_admin |}
    else None;
  isEmail := fun s => existsb (Ascii.eqb "@"%char) (list_ascii_of_string s);
  normalizeEmail := fun s => s;
  sendMail := fun address _ => negb (String.eqb address "bounce@example.com");
  JWT_SECRET := "secret";
  JWT_EXPIRE := None
|}.

Definition account (id address : string) (r : Role) (attempts : option Z)
           (lock : option Z) : Admin := {|
  _id := id; name := "Admin"; email := address;
  password := Some "$s$admin123"; role := r; avatar := None;
  isActive := true; lastLogin := None; loginAttempts := attempts;
  lockUntil := lock; passwordChangedAt := None;
  passwordResetToken := None; passwordResetExpires := None;
  createdAt := 0; updatedAt := 0
|}.

Definition world (c : Collection) : World :=
  {| db := c; tick := 0; rnd := 0; outbox := [] |}.

Definition root : Admin := account "a1" "root@example.com" role_super_admin (Some 0) None.
Definition editor (attempts : option Z) (lock : option Z) : Admin :=
  account "a2" "ed@example.com" role_admin attempts lock.

(** The editor with a reset token issued for the raw token [c0ffee]. *)
Definition editor_resetting (attempts : option Z) (lock : option Z)
           (expires : Z) : Admin := {|
  _id := "a2"; name := "Admin"; email := "ed@example.com";
  password := Some "$s$admin123"; role := role_admin; avatar := None;
  isActive := true; lastLogin := None; loginAttempts := attempts;
  lockUntil := lock; passwordChangedAt := None;
  passwordResetToken := Some "#c0ffee"; passwordResetExpires := Some expires;
  createdAt := 0; updatedAt := 0
|}.

End Sample.

(** More of the sample store, for the further properties. *)
Module SampleMore.

Definition root_header : option string := Some "Bearer a1.super-admin.secret".
Definition editor_header : option string := Some "Bearer a2.admin.secret".

(** The editor, deactivated. *)
Definition dormant : Admin := {|
  _id := "a2"; name := "Admin"; email := "ed@example.com";
  password := Some "$s$admin123"; role := role_admin; avatar := None;
  isActive := false; lastLogin := None; loginAttempts := Some 0;
  lockUntil := None; passwordChangedAt := None;
  passwordResetToken := None; passwordResetExpires := None;
  createdAt := 0; updatedAt := 0
|}.

Definition editor : Admin := Sample.editor (Some 0) None.

Definition store : World := Sample.world [Sample.root; editor].

End SampleMore.
(** ** Facts about the collection *)

Lemma setPath_id (p : Path) (v : option Value) (a : Admin) :
  _id (setPath p v a) = _id a.
Proof. destruct p, v as [[s|n|b|r]|]; reflexivity. Qed.

Lemma applyOp_id (a : Admin) (op : UpdateOp) : _id (applyOp a op) = _id a.
Proof.
  destruct op as [p v|p|p n]; simpl; try apply setPath_id.
  destruct (as_num (getPath p a)); apply setPath_id.
Qed.

Lemma applyUpdate_id (u : list UpdateOp) (a : Admin) :
  _id (applyUpdate u a) = _id a.
Proof.
  unfold applyUpdate. revert a.
  induction u as [|op u IH]; intros a; simpl; [reflexivity|].
  rewrite IH. apply applyOp_id.
Qed.

Lemma findById_update_first (id : string) (f : Admin -> Admin) (c : Collection) :
  (forall a, _id (f a) = _id a) ->
  findById id (update_first id f c) = option_map f (findById id c).
Proof.
  intros Hf. unfold findById.
  induction c as [|a c IH]; simpl; [reflexivity|].
  destruct (by_id id a) eqn:Ha; simpl.
  - unfold by_id in *. rewrite Hf, Ha. reflexivity.
  - rewrite Ha. exact IH.
Qed.

Lemma findById_update_other (id id' : string) (f : Admin -> Admin) (c : Collection) :
  (forall a, _id (f a) = _id a) -> id' <> id ->
  findById id' (update_first id f c) = findById id' c.
Proof.
  intros Hf Hne. unfold findById.
  induction c as [|a c IH]; simpl; [reflexivity|].
  destruct (by_id id a) eqn:Ha; simpl.
  - unfold by_id in *. rewrite Hf.
    apply String.eqb_eq in Ha. rewrite Ha.
    destruct (String.eqb_spec id id'); [congruence | reflexivity].
  - rewrite IH. reflexivity.
Qed.

Lemma update_first_ids (id : string) (f : Admin -> Admin) (c : Collection) :
  (forall a, _id (f a) = _id a) ->
  map _id (update_first id f c) = map _id c.
Proof.
  intros Hf. induction c as [|a c IH]; simpl; [reflexivity|].
  destruct (by_id id a); simpl; [rewrite Hf | rewrite IH]; reflexivity.
Qed.

Lemma update_first_unique (id : string) (f : Admin -> Admin) (c : Collection) :
  (forall a, _id (f a) = _id a) ->
  unique_ids c -> unique_ids (update_first id f c).
Proof.
  intros Hf H. unfold unique_ids. rewrite update_first_ids; assumption.
Qed.

Lemma find_In {A : Type} (q : A -> bool) (l : list A) (x : A) :
  find q l = Some x -> In x l /\ q x = true.
Proof. apply find_some. Qed.

(** With unique identifiers, the document a query finds is the one the
    store holds under its [_id]. *)
Lemma unique_findById (c : Collection) (a : Admin) :
  unique_ids c -> In a c -> findById (_id a) c = Some a.
Proof.
  unfold unique_ids, findById.
  induction c as [|b c IH]; simpl; intros Hu Hin; [contradiction|].
  inversion Hu as [|x l Hnotin Hu']; subst.
  destruct Hin as [->|Hin].
  - unfold by_id. rewrite String.eqb_refl. reflexivity.
  - unfold by_id at 1. destruct (String.eqb_spec (_id b) (_id a)) as [Heq|Hne].
    + exfalso. apply Hnotin. rewrite Heq. apply in_map. exact Hin.
    + apply IH; assumption.
Qed.

(** A query on paths the update leaves alone finds the updated document. *)
Lemma find_update_first (q : Admin -> bool) (f : Admin -> Admin)
      (c : Collection) (a : Admin) :
  (forall x, _id (f x) = _id x) ->
  (forall x, q (f x) = q x) ->
  unique_ids c ->
  find q c = Some a ->
  find q (update_first (_id a) f c) = Some (f a).
Proof.
  intros Hid Hq. unfold unique_ids.
  induction c as [|b c IH]; simpl; intros Hu Hfind; [discriminate|].
  inversion Hu as [|x l Hnotin Hu']; subst.
  destruct (q b) eqn:Hqb.
  - injection Hfind as ->. unfold by_id. rewrite String.eqb_refl.
    simpl. rewrite Hq, Hqb. reflexivity.
  - unfold by_id at 1. destruct (String.eqb_spec (_id b) (_id a)) as [Heq|Hne].
    + exfalso. apply Hnotin. rewrite Heq. apply in_map.
      apply find_some in Hfind. tauto.
    + simpl. rewrite Hqb. apply IH; assumption.
Qed.

Lemma update_first_absent (id : string) (f : Admin -> Admin) (c : Collection) :
  findById id c = None -> update_first id f c = c.
Proof.
  unfold findById. induction c as [|a c IH]; simpl; [reflexivity|].
  destruct (by_id id a); [discriminate|]. intros H. rewrite IH; auto.
Qed.

Lemma delete_first_gone (id : string) (c : Collection) :
  unique_ids c -> findById id (delete_first id c) = None.
Proof.
  unfold unique_ids, findById.
  induction c as [|a c IH]; simpl; intros Hu; [reflexivity|].
  inversion Hu as [|x l Hnotin Hu']; subst.
  destruct (by_id id a) eqn:Ha.
  - apply String.eqb_eq in Ha. subst id.
    destruct (find (by_id (_id a)) c) as [b|] eqn:Hb; [|reflexivity].
    exfalso. apply find_some in Hb. destruct Hb as [Hin Hb].
    apply String.eqb_eq in Hb. apply Hnotin. rewrite <- Hb.
    apply in_map. exact Hin.
  - simpl. rewrite Ha. apply IH. exact Hu'.
Qed.

Lemma delete_first_other (id id' : string) (c : Collection) :
  id' <> id -> findById id' (delete_first id c) = findById id' c.
Proof.
  intros Hne. unfold findById.
  induction c as [|a c IH]; simpl; [reflexivity|].
  destruct (by_id id a) eqn:Ha.
  - apply String.eqb_eq in Ha. unfold by_id.
    destruct (String.eqb_spec (_id a) id'); [congruence | reflexivity].
  - simpl. rewrite IH. reflexivity.
Qed.


Lemma update_first_compose (id : string) (f g : Admin -> Admin) (c : Collection) :
  (forall a, _id (f a) = _id a) ->
  update_first id g (update_first id f c) = update_first id (fun a => g (f a)) c.
Proof.
  intros Hf. induction c as [|a c IH]; simpl; [reflexivity|].
  destruct (by_id id a) eqn:Ha; simpl.
  - unfold by_id in *. rewrite Hf, Ha. reflexivity.
  - rewrite Ha, IH. reflexivity.
Qed.

(** A query that only the updated document can satisfy finds it. *)
Lemma find_updated_only (q : Admin -> bool) (f : Admin -> Admin)
      (c : Collection) (a : Admin) :
  unique_ids c -> In a c ->
  (forall b, In b c -> _id b <> _id a -> q b = false) ->
  q (f a) = true ->
  find q (update_first (_id a) f c) = Some (f a).
Proof.
  unfold unique_ids.
  induction c as [|b c IH]; simpl; intros Hu Hin Hothers Hq; [contradiction|].
  inversion Hu as [|x l Hnotin Hu']; subst.
  unfold by_id at 1.
  destruct (String.eqb_spec (_id b) (_id a)) as [Heq|Hne].
  - assert (b = a) as ->.
    { destruct Hin as [->|Hin]; [reflexivity|].
      exfalso. apply Hnotin. rewrite Heq. apply in_map. exact Hin. }
    simpl. rewrite Hq. reflexivity.
  - simpl. rewrite (Hothers b) by auto.
    apply IH; auto.
    destruct Hin as [->|Hin]; [congruence | exact Hin].
Qed.

(** A query that no document satisfies once the update is made. *)
Lemma find_updated_none (q : Admin -> bool) (f : Admin -> Admin)
      (c : Collection) (a : Admin) :
  unique_ids c -> In a c ->
  (forall b, In b c -> _id b <> _id a -> q b = false) ->
  q (f a) = false ->
  find q (update_first (_id a) f c) = None.
Proof.
  unfold unique_ids.
  induction c as [|b c IH]; simpl; intros Hu Hin Hothers Hq; [contradiction|].
  inversion Hu as [|x l Hnotin Hu']; subst.
  unfold by_id at 1.
  destruct (String.eqb_spec (_id b) (_id a)) as [Heq|Hne].
  - assert (b = a) as ->.
    { destruct Hin as [->|Hin]; [reflexivity|].
      exfalso. apply Hnotin. rewrite Heq. apply in_map. exact Hin. }
    simpl. rewrite Hq.
    destruct (find q c) as [x|] eqn:Hx; [|reflexivity].
    apply find_some in Hx. destruct Hx as [Hxin Hqx].
    rewrite (Hothers x) in Hqx; [discriminate | auto |].
    intros Heq'. apply Hnotin. rewrite <- Heq'. apply in_map. exact Hxin.
  - simpl. rewrite (Hothers b) by auto.
    apply IH; auto.
    destruct Hin as [->|Hin]; [congruence | exact Hin].
Qed.

Lemma find_all_false {A : Type} (q : A -> bool) (l : list A) :
  (forall x, In x l -> q x = false) -> find q l = None.
Proof.
  intros H. destruct (find q l) as [x|] eqn:Hx; [|reflexivity].
  apply find_some in Hx. destruct Hx as [Hin Hq].
  rewrite (H x Hin) in Hq. discriminate.
Qed.

Lemma Some_eq {A : Type} (x y : A) : Some x = Some y -> x = y.
Proof. intros H. congruence. Qed.

(** ** Facts about documents in memory *)

Lemma hydrate_loginAttempts (s : bool) (a : Admin) :
  loginAttempts (hydrate s a) = Some (attempts_of a).
Proof.
  unfold hydrate, attempts_of.
  destruct s; cbn; destruct (loginAttempts a) eqn:H; cbn; rewrite ?H; reflexivity.
Qed.

Lemma hydrate_lockUntil (s : bool) (a : Admin) :
  lockUntil (hydrate s a) = lockUntil a.
Proof.
  unfold hydrate. destruct s; simpl; destruct (loginAttempts a); reflexivity.
Qed.

Lemma hydrate_id (s : bool) (a : Admin) : _id (hydrate s a) = _id a.
Proof.
  unfold hydrate. destruct s; simpl; destruct (loginAttempts a); reflexivity.
Qed.

Lemma hydrate_isActive (s : bool) (a : Admin) :
  isActive (hydrate s a) = isActive a.
Proof.
  unfold hydrate. destruct s; simpl; destruct (loginAttempts a); reflexivity.
Qed.

Lemma hydrate_role (s : bool) (a : Admin) : role (hydrate s a) = role a.
Proof.
  unfold hydrate. destruct s; simpl; destruct (loginAttempts a); reflexivity.
Qed.

Lemma hydrate_password (a : Admin) :
  password (hydrate true a) = password a.
Proof. unfold hydrate. cbn. destruct (loginAttempts a) eqn:H; reflexivity. Qed.

Lemma hydrate_no_password (a : Admin) : password (hydrate false a) = None.
Proof. unfold hydrate. cbn. destruct (loginAttempts a) eqn:H; reflexivity. Qed.

Lemma hydrate_modifiedPaths (s : bool) (a : Admin) :
  modifiedPaths (hydrate s a) = [].
Proof. reflexivity. Qed.


Lemma Path_eqb_eq (p q : Path) : Path_eqb p q = true <-> p = q.
Proof. split; [destruct p, q; simpl; congruence | intros ->; destruct q; reflexivity]. Qed.

Lemma Path_eqb_refl (p : Path) : Path_eqb p p = true.
Proof. destruct p; reflexivity. Qed.

Lemma Path_eqb_neq (p q : Path) : Path_eqb p q = false <-> p <> q.
Proof.
  split.
  - intros H Heq. subst. rewrite Path_eqb_refl in H. discriminate.
  - intros H. destruct (Path_eqb p q) eqn:Hpq; [|reflexivity].
    apply Path_eqb_eq in Hpq. contradiction.
Qed.

Lemma Value_eqb_eq (v1 v2 : Value) : Value_eqb v1 v2 = true -> v1 = v2.
Proof.
  destruct v1, v2; simpl; try discriminate; intros H.
  - apply String.eqb_eq in H. congruence.
  - apply Z.eqb_eq in H. congruence.
  - apply Bool.eqb_prop in H. congruence.
  - destruct r, r0; simpl in H; congruence.
Qed.

Lemma same_value_eq (v1 v2 : option Value) : same_value v1 v2 = true -> v1 = v2.
Proof.
  destruct v1, v2; simpl; try discriminate; [|reflexivity].
  intros H. apply Value_eqb_eq in H. congruence.
Qed.


Lemma getPath_setPath_same (p : Path) (v : option Value) (a : Admin) :
  well_kinded p v -> getPath p (setPath p v a) = v.
Proof.
  intros [b <-]. destruct p; simpl; try reflexivity;
    match goal with
    | |- context [option_map _ (?f b)] => destruct (f b); reflexivity
    end.
Qed.

Lemma getPath_setPath_other (p q : Path) (v : option Value) (a : Admin) :
  p <> q -> getPath q (setPath p v a) = getPath q a.
Proof.
  intros Hne. destruct p, q; try congruence;
    destruct v as [[s|n|b|r]|]; reflexivity.
Qed.

Lemma createdAt_setPath (p : Path) (v : option Value) (a : Admin) :
  createdAt (setPath p v a) = createdAt a.
Proof. destruct p, v as [[s|n|b|r]|]; reflexivity. Qed.

Lemma V_num_inj (o1 o2 : option Z) :
  option_map V_num o1 = option_map V_num o2 -> o1 = o2.
Proof. destruct o1, o2; simpl; congruence. Qed.

Lemma V_str_inj (o1 o2 : option string) :
  option_map V_str o1 = option_map V_str o2 -> o1 = o2.
Proof. destruct o1, o2; simpl; congruence. Qed.

(** The fields behind the paths. *)
Lemma password_get (x : Admin) (v : option string) :
  getPath P_password x = option_map V_str v -> password x = v.
Proof. apply V_str_inj. Qed.

Lemma lastLogin_get (x : Admin) (v : option Z) :
  getPath P_lastLogin x = option_map V_num v -> lastLogin x = v.
Proof. apply V_num_inj. Qed.

Lemma loginAttempts_get (x : Admin) (v : option Z) :
  getPath P_loginAttempts x = option_map V_num v -> loginAttempts x = v.
Proof. apply V_num_inj. Qed.

Lemma lockUntil_get (x : Admin) (v : option Z) :
  getPath P_lockUntil x = option_map V_num v -> lockUntil x = v.
Proof. apply V_num_inj. Qed.

Lemma passwordChangedAt_get (x : Admin) (v : option Z) :
  getPath P_passwordChangedAt x = option_map V_num v -> passwordChangedAt x = v.
Proof. apply V_num_inj. Qed.

Lemma passwordResetToken_get (x : Admin) (v : option string) :
  getPath P_passwordResetToken x = option_map V_str v -> passwordResetToken x = v.
Proof. apply V_str_inj. Qed.

Lemma passwordResetExpires_get (x : Admin) (v : option Z) :
  getPath P_passwordResetExpires x = option_map V_num v ->
  passwordResetExpires x = v.
Proof. apply V_num_inj. Qed.

Lemma email_get_eq (x y : Admin) :
  getPath P_email x = getPath P_email y -> email x = email y.
Proof. cbn [getPath]. congruence. Qed.

Lemma name_get_eq (x y : Admin) :
  getPath P_name x = getPath P_name y -> name x = name y.
Proof. cbn [getPath]. congruence. Qed.

Lemma role_get_eq (x y : Admin) :
  getPath P_role x = getPath P_role y -> role x = role y.
Proof. cbn [getPath]. congruence. Qed.

Lemma avatar_get_eq (x y : Admin) :
  getPath P_avatar x = getPath P_avatar y -> avatar x = avatar y.
Proof. cbn [getPath]. apply V_str_inj. Qed.

(** *** Assignments *)

Lemma assign_id (p : Path) (v : option Value) (d : Document) :
  _id (assign p v d) = _id d.
Proof.
  unfold assign. destruct (same_value (getPath p d) v); [reflexivity|].
  apply setPath_id.
Qed.

Lemma assign_createdAt (p : Path) (v : option Value) (d : Document) :
  createdAt (assign p v d) = createdAt d.
Proof.
  unfold assign. destruct (same_value (getPath p d) v); [reflexivity|].
  apply createdAt_setPath.
Qed.

Lemma assign_isNew (p : Path) (v : option Value) (d : Document) :
  isNew (assign p v d) = isNew d.
Proof. unfold assign. destruct (same_value (getPath p d) v); reflexivity. Qed.

Lemma assign_get_same (p : Path) (v : option Value) (d : Document) :
  well_kinded p v -> getPath p (assign p v d) = v.
Proof.
  intros Hk. unfold assign.
  destruct (same_value (getPath p d) v) eqn:Hs.
  - apply same_value_eq. exact Hs.
  - apply getPath_setPath_same. exact Hk.
Qed.

Lemma assign_get_other (p q : Path) (v : option Value) (d : Document) :
  p <> q -> getPath q (assign p v d) = getPath q d.
Proof.
  intros Hne. unfold assign.
  destruct (same_value (getPath p d) v); [reflexivity|].
  apply getPath_setPath_other. exact Hne.
Qed.

Lemma isModified_app (d : Document) (l : list Path) (q : Path) :
  existsb (Path_eqb q) (modifiedPaths d ++ l)
  = isModified d q || existsb (Path_eqb q) l.
Proof. unfold isModified. apply existsb_app. Qed.

Lemma assign_isModified_other (p q : Path) (v : option Value) (d : Document) :
  p <> q -> isModified (assign p v d) q = isModified d q.
Proof.
  intros Hne. unfold assign.
  destruct (same_value (getPath p d) v); [reflexivity|].
  unfold isModified at 1. cbn [modifiedPaths].
  destruct (isModified d p); [reflexivity|].
  rewrite isModified_app. cbn.
  replace (Path_eqb q p) with false
    by (symmetry; apply Path_eqb_neq; congruence).
  rewrite !orb_false_r. reflexivity.
Qed.

(** After [this.p = v] the path is modified exactly when it was before
    or the value changed. *)
Lemma assign_isModified_same (p : Path) (v : option Value) (d : Document) :
  isModified (assign p v d) p
  = isModified d p || negb (same_value (getPath p d) v).
Proof.
  unfold assign.
  destruct (same_value (getPath p d) v); cbn [negb].
  - rewrite orb_false_r. reflexivity.
  - unfold isModified at 1. cbn [modifiedPaths].
    destruct (isModified d p) eqn:Hm; [exact Hm|].
    rewrite isModified_app, Hm. cbn. rewrite Path_eqb_refl. reflexivity.
Qed.

(** *** What a save writes *)

Lemma applyOp_delta_get (d : Document) (x : Admin) (p q : Path) :
  getPath q (applyOp x (match getPath p d with
                        | Some v => U_set p v
                        | None => U_unset p
                        end))
  = if Path_eqb q p then getPath q d else getPath q x.
Proof.
  destruct (Path_eqb q p) eqn:Hqp.
  - apply Path_eqb_eq in Hqp. subst q.
    destruct (getPath p d) as [v|] eqn:Hg; cbn [applyOp].
    + apply getPath_setPath_same. exists d. exact Hg.
    + apply getPath_setPath_same. exists d. exact Hg.
  - apply Path_eqb_neq in Hqp.
    destruct (getPath p d) as [v|]; cbn [applyOp];
      apply getPath_setPath_other; congruence.
Qed.

(** The stored document after the changes of [this] were applied: the
    modified paths hold the values of [this], the others are untouched. *)
Lemma applyUpdate_delta_get (d : Document) (x : Admin) (q : Path) :
  getPath q (applyUpdate (delta d) x)
  = if isModified d q then getPath q d else getPath q x.
Proof.
  unfold applyUpdate, delta, isModified.
  generalize (modifiedPaths d) as l. intros l. revert x.
  induction l as [|p l IH]; intros x; cbn [map fold_left existsb]; [reflexivity|].
  rewrite IH, applyOp_delta_get.
  destruct (existsb (Path_eqb q) l); [rewrite orb_true_r; reflexivity|].
  rewrite orb_false_r. reflexivity.
Qed.

Lemma applyUpdate_createdAt (u : list UpdateOp) (a : Admin) :
  createdAt (applyUpdate u a) = createdAt a.
Proof.
  unfold applyUpdate. revert a.
  induction u as [|op u IH]; intros a; simpl; [reflexivity|].
  rewrite IH. destruct op as [p v|p|p n]; simpl; try apply createdAt_setPath.
  destruct (as_num (getPath p a)); apply createdAt_setPath.
Qed.

Lemma hydrate_get (s : bool) (a : Admin) (q : Path) :
  q <> P_loginAttempts -> (s = false -> q <> P_password) ->
  getPath q (hydrate s a) = getPath q a.
Proof.
  intros H1 H2. unfold hydrate.
  destruct s; cbn; destruct (loginAttempts a) eqn:Hl; cbn;
    destruct q; try reflexivity; try congruence;
    exfalso; apply H2; reflexivity.
Qed.

Lemma hydrate_createdAt (s : bool) (a : Admin) :
  createdAt (hydrate s a) = createdAt a.
Proof.
  unfold hydrate. destruct s; cbn; destruct (loginAttempts a) eqn:H; reflexivity.
Qed.

Lemma hydrate_isModified (s : bool) (a : Admin) (q : Path) :
  isModified (hydrate s a) q = false.
Proof. reflexivity. Qed.

(** *** Documents in step with the store *)


Lemma synced_hydrate (s : bool) (x : Admin) (p : Path) :
  p <> P_loginAttempts -> (s = false -> p <> P_password) ->
  synced (hydrate s x) x p.
Proof. intros H1 H2 _. apply hydrate_get; assumption. Qed.

Lemma synced_assign (q : Path) (v : option Value) (d : Document)
      (x : Admin) (p : Path) :
  synced d x p -> synced (assign q v d) x p.
Proof.
  unfold synced. intros Hs Hm.
  destruct (Path_eqb q p) eqn:Hqp.
  - apply Path_eqb_eq in Hqp. subst q.
    rewrite assign_isModified_same in Hm.
    apply orb_false_iff in Hm. destruct Hm as [Hm Hsame].
    apply negb_false_iff in Hsame.
    unfold assign. rewrite Hsame. apply Hs. exact Hm.
  - apply Path_eqb_neq in Hqp.
    rewrite assign_isModified_other in Hm by exact Hqp.
    rewrite assign_get_other by exact Hqp. apply Hs. exact Hm.
Qed.

(** Saving a document in step with the store leaves the store holding
    the value of the document. *)
Lemma stored_synced (d : Document) (x : Admin) (p : Path) :
  synced d x p -> getPath p (applyUpdate (delta d) x) = getPath p d.
Proof.
  intros Hs. rewrite applyUpdate_delta_get.
  destruct (isModified d p) eqn:Hm; [reflexivity|].
  symmetry. apply Hs. exact Hm.
Qed.

Lemma synced_after_save (d : Document) (x : Admin) (p : Path) :
  synced d x p -> synced (after_save d) (applyUpdate (delta d) x) p.
Proof. intros Hs _. cbn. symmetry. apply stored_synced. exact Hs. Qed.

Lemma stamped_id (t : Z) (d : Document) : _id (stamped t d) = _id d.
Proof. unfold stamped. destruct (isModified_any d); [apply assign_id | reflexivity]. Qed.

Lemma stamped_get_other (t : Z) (d : Document) (q : Path) :
  q <> P_updatedAt -> getPath q (stamped t d) = getPath q d.
Proof.
  intros H. unfold stamped. destruct (isModified_any d); [|reflexivity].
  apply assign_get_other. congruence.
Qed.

Lemma stamped_isModified_other (t : Z) (d : Document) (q : Path) :
  q <> P_updatedAt -> isModified (stamped t d) q = isModified d q.
Proof.
  intros H. unfold stamped. destruct (isModified_any d); [|reflexivity].
  apply assign_isModified_other. congruence.
Qed.

Lemma synced_stamped (t : Z) (d : Document) (x : Admin) (p : Path) :
  synced d x p -> synced (stamped t d) x p.
Proof.
  intros H. unfold stamped. destruct (isModified_any d); [|exact H].
  apply synced_assign. exact H.
Qed.

Lemma well_kinded_None_token : well_kinded P_passwordResetToken None.
Proof.
  exists {| _id := ""; name := ""; email := ""; password := None;
            role := role_admin; avatar := None; isActive := true;
            lastLogin := None; loginAttempts := None; lockUntil := None;
            passwordChangedAt := None; passwordResetToken := None;
            passwordResetExpires := None; createdAt := 0; updatedAt := 0 |}.
  reflexivity.
Qed.

Lemma well_kinded_None_expires : well_kinded P_passwordResetExpires None.
Proof.
  exists {| _id := ""; name := ""; email := ""; password := None;
            role := role_admin; avatar := None; isActive := true;
            lastLogin := None; loginAttempts := None; lockUntil := None;
            passwordChangedAt := None; passwordResetToken := None;
            passwordResetExpires := None; createdAt := 0; updatedAt := 0 |}.
  reflexivity.
Qed.

Lemma well_kinded_str_token (s : string) :
  well_kinded P_passwordResetToken (Some (V_str s)).
Proof.
  exists {| _id := ""; name := ""; email := ""; password := None;
            role := role_admin; avatar := None; isActive := true;
            lastLogin := None; loginAttempts := None; lockUntil := None;
            passwordChangedAt := None; passwordResetToken := Some s;
            passwordResetExpires := None; createdAt := 0; updatedAt := 0 |}.
  reflexivity.
Qed.

Lemma well_kinded_num_expires (n : Z) :
  well_kinded P_passwordResetExpires (Some (V_num n)).
Proof.
  exists {| _id := ""; name := ""; email := ""; password := None;
            role := role_admin; avatar := None; isActive := true;
            lastLogin := None; loginAttempts := None; lockUntil := None;
            passwordChangedAt := None; passwordResetToken := None;
            passwordResetExpires := Some n; createdAt := 0; updatedAt := 0 |}.
  reflexivity.
Qed.

Lemma well_kinded_str_password (s : string) :
  well_kinded P_password (Some (V_str s)).
Proof.
  exists {| _id := ""; name := ""; email := ""; password := Some s;
            role := role_admin; avatar := None; isActive := true;
            lastLogin := None; loginAttempts := None; lockUntil := None;
            passwordChangedAt := None; passwordResetToken := None;
            passwordResetExpires := None; createdAt := 0; updatedAt := 0 |}.
  reflexivity.
Qed.

Lemma well_kinded_num_changedAt (n : Z) :
  well_kinded P_passwordChangedAt (Some (V_num n)).
Proof.
  exists {| _id := ""; name := ""; email := ""; password := None;
            role := role_admin; avatar := None; isActive := true;
            lastLogin := None; loginAttempts := None; lockUntil := None;
            passwordChangedAt := Some n; passwordResetToken := None;
            passwordResetExpires := None; createdAt := 0; updatedAt := 0 |}.
  reflexivity.
Qed.

(** *** Reading through the model *)

Lemma readPath_loginAttempts (a : Admin) :
  readPath P_loginAttempts a = Some (V_num (attempts_of a)).
Proof.
  unfold readPath. cbn [getPath]. rewrite hydrate_loginAttempts. reflexivity.
Qed.

Lemma readPath_other (q : Path) (a : Admin) :
  q <> P_loginAttempts -> readPath q a = getPath q a.
Proof. intros H. unfold readPath. apply hydrate_get; congruence. Qed.

(** Paths that hold the same in two stored documents read the same. *)
Lemma readPath_same (q : Path) (a a' : Admin) :
  getPath q a' = getPath q a -> readPath q a' = readPath q a.
Proof.
  intros H. destruct (Path_eqb q P_loginAttempts) eqn:Hq.
  - apply Path_eqb_eq in Hq. subst q. rewrite !readPath_loginAttempts.
    apply loginAttempts_get in H. unfold attempts_of. rewrite H. reflexivity.
  - apply Path_eqb_neq in Hq. rewrite !readPath_other by exact Hq. exact H.
Qed.

Lemma attempts_of_read (a a' : Admin) :
  readPath P_loginAttempts a' = readPath P_loginAttempts a ->
  attempts_of a' = attempts_of a.
Proof. rewrite !readPath_loginAttempts. congruence. Qed.

(** Unfolds the combinators of the monad and reduces the pairs. *)
Ltac monad :=
  cbv beta iota zeta delta
    [bind ret findOne get_db Date_now with_db fresh_random deliver
     updateOne remove run result fst snd negb];
  cbn [db tick rnd outbox app at_next orb].

Section Properties.

Variable E : Env.

Lemma valid_login_request_passes (req_email req_password : string) :
  valid_login_request E req_email req_password ->
  negb (isEmail E req_email) || (String.length req_password <? 6)%nat = false.
Proof.
  intros [He Hp]. rewrite He. simpl.
  apply Nat.ltb_ge. exact Hp.
Qed.

(** A login on an account whose lock is still running answers 423 and
    leaves the store as it is. *)
Lemma login_locked (w : World) (req_email req_password : string)
      (a : Admin) (l : Z) :
  valid_login_request E req_email req_password ->
  find (email_is (normalizeEmail E req_email)) (db w) = Some a ->
  lockUntil a = Some l ->
  clock E (tick w) < l ->
  result (login E req_email req_password) w = locked_response /\
  db (run (login E req_email req_password) w) = db w /\
  outbox (run (login E req_email req_password) w) = outbox w.
Proof.
  intros Hv Hfind Hl Hlt.
  unfold result, run, login.
  rewrite (valid_login_request_passes _ _ Hv).
  unfold bind, findOne, get_db, ret. simpl.
  rewrite Hfind. simpl.
  unfold isLocked. rewrite hydrate_lockUntil, Hl.
  unfold bind, Date_now, ret. simpl.
  apply Z.ltb_lt in Hlt. rewrite Hlt. simpl. auto.
Qed.

(** The stored effect of the three updates [incLoginAttempts] can send. *)
Lemma restart_update_fields (t : Z) (a : Admin) :
  let a' := applyUpdate [U_unset P_lockUntil; U_set P_loginAttempts (V_num 1);
                         U_set P_updatedAt (V_num t)] a in
  lockUntil a' = None /\ loginAttempts a' = Some 1.
Proof. split; reflexivity. Qed.

Lemma inc_update_fields (t : Z) (a : Admin) :
  let a' := applyUpdate [U_inc P_loginAttempts 1; U_set P_updatedAt (V_num t)] a in
  loginAttempts a' = Some (attempts_of a + 1) /\ lockUntil a' = lockUntil a.
Proof.
  unfold applyUpdate, attempts_of. cbn.
  destruct (loginAttempts a); cbn; split; reflexivity.
Qed.

Lemma inc_lock_update_fields (t u : Z) (a : Admin) :
  let a' := applyUpdate [U_inc P_loginAttempts 1; U_set P_lockUntil (V_num u);
                         U_set P_updatedAt (V_num t)] a in
  loginAttempts a' = Some (attempts_of a + 1) /\ lockUntil a' = Some u.
Proof.
  unfold applyUpdate, attempts_of. cbn.
  destruct (loginAttempts a); cbn; split; reflexivity.
Qed.

Lemma found_is_stored (q : Admin -> bool) (c : Collection) (a : Admin) :
  unique_ids c -> find q c = Some a -> findById (_id a) c = Some a.
Proof.
  intros Hu Hf. apply unique_findById; [exact Hu|].
  apply find_some in Hf. tauto.
Qed.

(** C1.  A failed login on an existing, active account that is not locked
    when the handler checks it answers "Invalid credentials" and updates
    the stored counter.  With [now] a reading of the clock taken during
    the request: if a lock was set and has expired ([lockUntil < now]),
    the lock is removed and the counter is set to 1, whatever the old
    count was; otherwise the counter is the old count plus 1, and when
    that reaches the threshold of 5, [lockUntil] is set to a reading of
    the clock taken during the request plus two hours (below the
    threshold [lockUntil] is left as it was).  The clock is assumed not
    to go back, so an account found unlocked by the handler is still
    unlocked when [incLoginAttempts] checks it again. *)
Theorem failed_login_updates_counter
        (w : World) (req_email req_password : string) (a : Admin) (h : string) :
  monotone_clock E ->
  valid_login_request E req_email req_password ->
  unique_ids (db w) ->
  find (email_is (normalizeEmail E req_email)) (db w) = Some a ->
  isActive a = true ->
  (forall l, lockUntil a = Some l -> l <= clock E (tick w)) ->
  password a = Some h ->
  bcrypt_compare E req_password h = false ->
  let w' := run (login E req_email req_password) w in
  result (login E req_email req_password) w = invalid_credentials /\
  exists (a' : Admin) (now : Z),
    findById (_id a) (db w') = Some a' /\
    clock E (tick w) <= now <= clock E (tick w') /\
    ((exists l, lockUntil a = Some l /\ l < now) ->
       lockUntil a' = None /\ loginAttempts a' = Some 1) /\
    (~ (exists l, lockUntil a = Some l /\ l < now) ->
       loginAttempts a' = Some (attempts_of a + 1) /\
       (lock_threshold <= attempts_of a + 1 ->
          exists now', now <= now' <= clock E (tick w') /\
                       lockUntil a' = Some (now' + two_hours)) /\
       (attempts_of a + 1 < lock_threshold -> lockUntil a' = lockUntil a)).
Proof.
  intros Hmono Hv Hu Hfind Hact Hnl Hpw Hcmp.
  pose proof (found_is_stored _ _ _ Hu Hfind) as Hst.
  unfold login.
  rewrite (valid_login_request_passes _ _ Hv).
  monad. rewrite Hfind. cbn [option_map]. unfold login_found. monad.
  unfold isLocked, comparePassword.
  rewrite hydrate_lockUntil, hydrate_isActive, hydrate_password, Hact, Hpw.
  cbn [option_map negb]. rewrite Hcmp.
  unfold incLoginAttempts, isLocked.
  rewrite hydrate_lockUntil, hydrate_loginAttempts.
  assert (Hstep : forall n, clock E (tick w) <= clock E (n + tick w)%nat)
    by (intros n; apply Hmono; lia).
  destruct (lockUntil a) as [l|] eqn:Hl.
  - specialize (Hnl l eq_refl).
    monad. rewrite ?hydrate_id.
    replace (clock E (tick w) <? l) with false by (symmetry; apply Z.ltb_ge; exact Hnl).
    monad.
    destruct (l <? clock E (S (tick w))) eqn:Hexp; monad.
    + (* the lock has expired *)
      split; [reflexivity|].
      eexists. exists (clock E (S (tick w))).
      rewrite findById_update_first by apply applyUpdate_id.
      rewrite Hst. cbn [option_map].
      split; [reflexivity|]. split.
      { split; [apply (Hstep 1%nat) | apply Hmono; lia]. }
      split.
      { intros _. apply restart_update_fields. }
      intros Hne. exfalso. apply Hne. exists l. split; [reflexivity|].
      apply Z.ltb_lt. exact Hexp.
    + (* the lock ends at this very reading: counted like no lock *)
      apply Z.ltb_ge in Hexp.
      assert (Hnot : ~ (exists l0, Some l = Some l0 /\ l0 < clock E (S (tick w)))).
      { intros [l0 [Heq Hlt]]. injection Heq as <-. lia. }
      destruct (lock_threshold <=? attempts_of a + 1) eqn:Hth; monad.
      * replace (clock E (S (S (tick w))) <? l) with false
          by (symmetry; apply Z.ltb_ge;
              pose proof (Hstep 2%nat) as H2; simpl in H2; lia).
        monad.
        split; [reflexivity|].
        eexists. exists (clock E (S (tick w))).
        rewrite findById_update_first by apply applyUpdate_id.
        rewrite Hst. cbn [option_map].
        split; [reflexivity|]. split.
        { split; [apply (Hstep 1%nat) | apply Hmono; lia]. }
        split; [intros Hex; contradiction|].
        intros _.
        destruct (inc_lock_update_fields (clock E (S (S (S (S (tick w))))))
                    (clock E (S (S (S (tick w)))) + two_hours) a) as [Hc Hk].
        split; [exact Hc|]. split.
        { intros _. exists (clock E (S (S (S (tick w))))).
          split; [split; apply Hmono; lia | exact Hk]. }
        intros Hlt. apply Z.leb_le in Hth. lia.
      * split; [reflexivity|].
        eexists. exists (clock E (S (tick w))).
        rewrite findById_update_first by apply applyUpdate_id.
        rewrite Hst. cbn [option_map].
        split; [reflexivity|]. split.
        { split; [apply (Hstep 1%nat) | apply Hmono; lia]. }
        split; [intros Hex; contradiction|].
        intros _.
        destruct (inc_update_fields (clock E (S (S (tick w)))) a) as [Hc Hk].
        split; [exact Hc|]. split.
        { intros Hge. apply Z.leb_gt in Hth. lia. }
        intros _. exact (eq_trans Hk Hl).
  - (* no lock was ever set, or it was cleared *)
    monad. rewrite ?hydrate_id.
    assert (Hnot : ~ (exists l0, @None Z = Some l0 /\ l0 < clock E (tick w))).
    { intros [l0 [Heq _]]. discriminate. }
    destruct (lock_threshold <=? attempts_of a + 1) eqn:Hth; monad.
    + split; [reflexivity|].
      eexists. exists (clock E (tick w)).
      rewrite findById_update_first by apply applyUpdate_id.
      rewrite Hst. cbn [option_map].
      split; [reflexivity|]. split.
      { split; [lia | apply Hmono; lia]. }
      split; [intros Hex; contradiction|].
      intros _.
      destruct (inc_lock_update_fields (clock E (S (tick w)))
                  (clock E (tick w) + two_hours) a) as [Hc Hk].
      split; [exact Hc|]. split.
      { intros _. exists (clock E (tick w)).
        split; [split; [lia | apply Hmono; lia] | exact Hk]. }
      intros Hlt. apply Z.leb_le in Hth. lia.
    + split; [reflexivity|].
      eexists. exists (clock E (tick w)).
      rewrite findById_update_first by apply applyUpdate_id.
      rewrite Hst. cbn [option_map].
      split; [reflexivity|]. split.
      { split; [lia | apply Hmono; lia]. }
      split; [intros Hex; contradiction|].
      intros _.
      destruct (inc_update_fields (clock E (S (tick w))) a) as [Hc Hk].
      split; [exact Hc|]. split.
      { intros Hge. apply Z.leb_gt in Hth. lia. }
      intros _. exact (eq_trans Hk Hl).
Qed.

(** *** Five failures in a row *)

Lemma inc_update_frame (t : Z) (a : Admin) :
  let a' := applyUpdate [U_inc P_loginAttempts 1; U_set P_updatedAt (V_num t)] a in
  email a' = email a /\ isActive a' = isActive a /\ password a' = password a.
Proof.
  unfold applyUpdate. cbn.
  destruct (loginAttempts a); cbn; repeat split; reflexivity.
Qed.

Lemma inc_lock_update_frame (t u : Z) (a : Admin) :
  let a' := applyUpdate [U_inc P_loginAttempts 1; U_set P_lockUntil (V_num u);
                         U_set P_updatedAt (V_num t)] a in
  email a' = email a /\ isActive a' = isActive a /\ password a' = password a.
Proof.
  unfold applyUpdate. cbn.
  destruct (loginAttempts a); cbn; repeat split; reflexivity.
Qed.

(** A wrong password on an account without a lock, below the threshold. *)
Lemma failure_counted (w : World) (req_email req_password h : string) (c : Z) :
  valid_login_request E req_email req_password ->
  bcrypt_compare E req_password h = false ->
  counting (normalizeEmail E req_email) h c w ->
  c + 1 < lock_threshold ->
  result (login E req_email req_password) w = invalid_credentials /\
  tick (run (login E req_email req_password) w) = S (tick w) /\
  counting (normalizeEmail E req_email) h (c + 1)
           (run (login E req_email req_password) w).
Proof.
  intros Hv Hcmp [Hu [a [Hfind [Hact [Hl [Hpw Hc]]]]]] Hlt.
  unfold login.
  rewrite (valid_login_request_passes _ _ Hv).
  monad. rewrite Hfind. cbn [option_map]. unfold login_found. monad.
  unfold isLocked, comparePassword.
  rewrite hydrate_lockUntil, hydrate_isActive, hydrate_password, Hact, Hpw, Hl.
  cbn [option_map]. rewrite Hcmp. monad.
  unfold incLoginAttempts.
  rewrite hydrate_lockUntil, hydrate_loginAttempts, Hl, Hc. monad.
  replace (lock_threshold <=? c + 1) with false
    by (symmetry; apply Z.leb_gt; exact Hlt).
  monad. rewrite hydrate_id.
  split; [reflexivity|]. split; [reflexivity|]. split.
  - apply update_first_unique; [apply applyUpdate_id | exact Hu].
  - destruct (inc_update_fields (clock E (tick w)) a) as [Hn Hk].
    destruct (inc_update_frame (clock E (tick w)) a) as [He [Ha Hp]].
    eexists. split.
    + apply find_update_first; [apply applyUpdate_id | | exact Hu | exact Hfind].
      intros x. unfold email_is.
      destruct (inc_update_frame (clock E (tick w)) x) as [Hx _].
      cbv zeta in Hx. rewrite Hx. reflexivity.
    + cbv zeta in *. repeat split; try congruence.
      unfold attempts_of at 1. rewrite Hn. congruence.
Qed.

(** The wrong password that brings the count to the threshold. *)
Lemma failure_locks (w : World) (req_email req_password h : string) (c : Z) :
  valid_login_request E req_email req_password ->
  bcrypt_compare E req_password h = false ->
  counting (normalizeEmail E req_email) h c w ->
  lock_threshold <= c + 1 ->
  let w' := run (login E req_email req_password) w in
  result (login E req_email req_password) w = invalid_credentials /\
  tick w' = S (S (tick w)) /\
  exists a', find (email_is (normalizeEmail E req_email)) (db w') = Some a' /\
             loginAttempts a' = Some (c + 1) /\
             lockUntil a' = Some (clock E (tick w) + two_hours).
Proof.
  intros Hv Hcmp [Hu [a [Hfind [Hact [Hl [Hpw Hc]]]]]] Hge.
  unfold login.
  rewrite (valid_login_request_passes _ _ Hv).
  monad. rewrite Hfind. cbn [option_map]. unfold login_found. monad.
  unfold isLocked, comparePassword.
  rewrite hydrate_lockUntil, hydrate_isActive, hydrate_password, Hact, Hpw, Hl.
  cbn [option_map]. rewrite Hcmp. monad.
  unfold incLoginAttempts, isLocked.
  rewrite hydrate_lockUntil, hydrate_loginAttempts, Hl, Hc. monad.
  replace (lock_threshold <=? c + 1) with true
    by (symmetry; apply Z.leb_le; exact Hge).
  monad. rewrite hydrate_id.
  split; [reflexivity|]. split; [reflexivity|].
  destruct (inc_lock_update_fields (clock E (S (tick w)))
              (clock E (tick w) + two_hours) a) as [Hn Hk].
  eexists. split.
  - apply find_update_first; [apply applyUpdate_id | | exact Hu | exact Hfind].
    intros x. unfold email_is.
    destruct (inc_lock_update_frame (clock E (S (tick w)))
                (clock E (tick w) + two_hours) x) as [Hx _].
    cbv zeta in Hx. rewrite Hx. reflexivity.
  - cbv zeta in *. split; [rewrite Hn; congruence | exact Hk].
Qed.

Lemma attempt_all_result (req_email p : string) (ps : list string) (w : World) :
  result (attempt_all E req_email (p :: ps)) w =
  result (login E req_email p) w
    :: result (attempt_all E req_email ps) (run (login E req_email p) w).
Proof.
  unfold result, run. cbn [attempt_all]. unfold bind, ret.
  destruct (login E req_email p w) as [r w1]. cbn [fst snd].
  destruct (attempt_all E req_email ps w1). reflexivity.
Qed.

Lemma attempt_all_run (req_email p : string) (ps : list string) (w : World) :
  run (attempt_all E req_email (p :: ps)) w =
  run (attempt_all E req_email ps) (run (login E req_email p) w).
Proof.
  unfold result, run. cbn [attempt_all]. unfold bind, ret.
  destruct (login E req_email p w) as [r w1]. cbn [fst snd].
  destruct (attempt_all E req_email ps w1). reflexivity.
Qed.

(** Failures below the threshold are counted one by one. *)
Lemma failures_counted (req_email h : string) (ps : list string) :
  isEmail E req_email = true ->
  Forall (wrong_password E h) ps ->
  forall (w : World) (c : Z),
    counting (normalizeEmail E req_email) h c w ->
    c + Z.of_nat (List.length ps) < lock_threshold ->
    result (attempt_all E req_email ps) w
      = repeat invalid_credentials (List.length ps) /\
    tick (run (attempt_all E req_email ps) w) = (List.length ps + tick w)%nat /\
    counting (normalizeEmail E req_email) h (c + Z.of_nat (List.length ps))
             (run (attempt_all E req_email ps) w).
Proof.
  intros He Hall. induction Hall as [|p ps [Hlen Hcmp] Hall IH]; intros w c Hc Hlt.
  - cbn. rewrite Z.add_0_r. auto.
  - cbn [List.length] in *. rewrite Nat2Z.inj_succ in *.
    destruct (failure_counted w req_email p h c) as [Hr [Ht Hc']];
      [split; assumption | exact Hcmp | exact Hc | lia |].
    destruct (IH _ _ Hc') as [Hrs [Hts Hcs]]; [lia|].
    rewrite attempt_all_result, attempt_all_run, Hr, Hrs, Hts, Ht.
    cbn [repeat]. split; [reflexivity|]. split; [lia|].
    replace (c + Z.succ (Z.of_nat (List.length ps)))
      with (c + 1 + Z.of_nat (List.length ps)) by lia.
    exact Hcs.
Qed.

(** C2.  First part: a login on an account whose [lockUntil] is set and
    later than the reading of the clock answers 423 "Account is locked"
    whatever the password, correct or not, and changes nothing: the store
    (so [loginAttempts], [lockUntil] and [lastLogin]) and the outbox are
    as before.  Second part: on an active account with no lock and a
    count of 0, five wrong passwords in a row each answer "Invalid
    credentials"; the store then holds a count of 5 and a [lockUntil] of
    a reading of the clock taken during those attempts plus two hours;
    and a sixth attempt made before that time, with any password of six
    characters or more (the correct one included), answers 423 and
    leaves the store as it is. *)
Theorem locked_account_refuses_login :
  (forall (w : World) (req_email req_password : string) (a : Admin) (l : Z),
      valid_login_request E req_email req_password ->
      find (email_is (normalizeEmail E req_email)) (db w) = Some a ->
      lockUntil a = Some l ->
      clock E (tick w) < l ->
      result (login E req_email req_password) w = locked_response /\
      db (run (login E req_email req_password) w) = db w /\
      outbox (run (login E req_email req_password) w) = outbox w)
  /\
  (forall (w : World) (req_email h sixth : string) (passwords : list string),
      isEmail E req_email = true ->
      List.length passwords = 5%nat ->
      Forall (wrong_password E h) passwords ->
      (6 <= String.length sixth)%nat ->
      counting (normalizeEmail E req_email) h 0 w ->
      let w5 := run (attempt_all E req_email passwords) w in
      result (attempt_all E req_email passwords) w
        = repeat invalid_credentials 5 /\
      exists (a5 : Admin) (k : nat),
        find (email_is (normalizeEmail E req_email)) (db w5) = Some a5 /\
        loginAttempts a5 = Some 5 /\
        (tick w <= k < tick w5)%nat /\
        lockUntil a5 = Some (clock E k + two_hours) /\
        (clock E (tick w5) < clock E k + two_hours ->
         result (login E req_email sixth) w5 = locked_response /\
         db (run (login E req_email sixth) w5) = db w5)).
Proof.
  split.
  - intros w req_email req_password a l. apply login_locked.
  - intros w req_email h sixth passwords He Hlen Hall H6 Hc w5.
    destruct (exists_last (l := passwords)) as [first [fifth ->]];
      [intros ->; discriminate|].
    rewrite length_app in Hlen. cbn in Hlen.
    apply Forall_app in Hall. destruct Hall as [Hfirst Hfifth].
    inversion Hfifth as [|x xs [Hl5 Hc5] _]; subst x xs.
    destruct (failures_counted req_email h first He Hfirst w 0 Hc)
      as [Hr [Ht Hc4]]; [unfold lock_threshold; lia|].
    assert (Hsplit : forall w0,
      attempt_all E req_email (first ++ [fifth]) w0 =
      let (rs, w1) := attempt_all E req_email first w0 in
      let (r, w2) := login E req_email fifth w1 in
      ((rs ++ [r])%list, w2)).
    { clear. induction first as [|p ps IH]; intros w0.
      - cbn. unfold bind, ret. destruct (login E req_email fifth w0). reflexivity.
      - cbn [attempt_all app]. unfold bind, ret.
        destruct (login E req_email p w0) as [r w1]. rewrite IH.
        destruct (attempt_all E req_email ps w1) as [rs w2].
        destruct (login E req_email fifth w2). reflexivity. }
    set (w4 := run (attempt_all E req_email first) w) in *.
    destruct (failure_locks w4 req_email fifth h (0 + Z.of_nat (List.length first)))
      as [Hr5 [Ht5 [a5 [Hf5 [Hn5 Hk5]]]]];
      [split; assumption | exact Hc5 | exact Hc4 | unfold lock_threshold; lia |].
    assert (Hw5 : w5 = run (login E req_email fifth) w4).
    { unfold w5, w4, run. rewrite Hsplit.
      destruct (attempt_all E req_email first w) as [rs w1]. cbn [snd].
      destruct (login E req_email fifth w1). reflexivity. }
    split.
    + unfold result. rewrite Hsplit.
      unfold result in Hr, Hr5. unfold w4, run in Hr5.
      destruct (attempt_all E req_email first w) as [rs w1]. cbn [fst snd] in *.
      destruct (login E req_email fifth w1) as [r w2]. cbn [fst snd] in *.
      subst rs r. replace (List.length first) with 4%nat by lia. reflexivity.
    + exists a5, (tick w4). rewrite Hw5.
      split; [exact Hf5|]. split.
      { rewrite Hn5. f_equal. lia. }
      split; [rewrite Ht5, Ht; lia|].
      split; [exact Hk5|].
      intros Hlt.
      destruct (login_locked (run (login E req_email fifth) w4) req_email sixth
                  a5 (clock E (tick w4) + two_hours)) as [Hres [Hdb _]];
        [split; assumption | exact Hf5 | exact Hk5 | exact Hlt |].
      split; assumption.
Qed.

(** *** What [save] does *)


Lemma isModified_any_true (this : Document) (p : Path) :
  isModified this p = true -> isModified_any this = true.
Proof.
  unfold isModified, isModified_any.
  destruct (modifiedPaths this); [discriminate | reflexivity].
Qed.

Lemma password_assign_other (p : Path) (v : option Value) (d : Document) :
  p <> P_password -> password (assign p v d) = password d.
Proof.
  intros Hne.
  pose proof (assign_get_other p P_password v d Hne) as H.
  cbn [getPath] in H.
  destruct (password (assign p v d)), (password d); simpl in H; congruence.
Qed.

(** A save of a stored document whose password was not assigned: the
    write is made when the hashing hook first calls [next()]. *)
Lemma save_password_unmodified (this : Document) (w : World) :
  isModified this P_password = false ->
  isNew this = false ->
  let this1 := stamped (clock E (tick w)) this in
  save E this w =
  (Some (after_save this1),
   {| db := update_first (_id this) (applyUpdate (delta this1)) (db w);
      tick := ((match password this with Some _ => 1 | None => 0 end)
               + (if isModified_any this then 1 else 0) + tick w)%nat;
      rnd := S (rnd w);
      outbox := outbox w |}).
Proof.
  intros Hm Hn this1. unfold stamped in this1.
  assert (Hm1 : isModified this1 P_password = false).
  { unfold this1. destruct (isModified_any this); [|exact Hm].
    rewrite assign_isModified_other by discriminate. exact Hm. }
  assert (Hn1 : isNew this1 = false).
  { unfold this1. destruct (isModified_any this); [|exact Hn].
    rewrite assign_isNew. exact Hn. }
  assert (Hp1 : password this1 = password this).
  { unfold this1. destruct (isModified_any this); [|reflexivity].
    apply password_assign_other. discriminate. }
  assert (Hi1 : _id this1 = _id this).
  { unfold this1. destruct (isModified_any this); [|reflexivity].
    apply assign_id. }
  unfold save, timestamps_pre_save. rewrite Hn. cbn [orb].
  fold this1.
  destruct (isModified_any this) eqn:Hany; monad;
    unfold pre_save_hash, pre_save_passwordChangedAt; monad;
    fold this1; rewrite Hp1;
    destruct (password this) as [s|]; monad;
    rewrite ?Hm1; monad; rewrite ?Hm1, ?Hn1; monad; rewrite ?Hn1, ?Hi1;
    reflexivity.
Qed.

(** A save of a stored document whose password was assigned: the hook
    hashes it once, the second hook dates the change, then the write. *)
Lemma save_password_modified (this : Document) (w : World) (s : string) :
  isModified this P_password = true ->
  isNew this = false ->
  password this = Some s ->
  let this1 := assign P_updatedAt (Some (V_num (clock E (tick w)))) this in
  let this2 :=
    assign P_updatedAt (Some (V_num (clock E (S (tick w)))))
      (assign P_password
         (Some (V_str (bcrypt_hash E s (bcrypt_genSalt E (rnd w))))) this1) in
  let this3 :=
    assign P_passwordChangedAt
      (Some (V_num (clock E (S (S (tick w))) - 1000))) this2 in
  save E this w =
  (Some (after_save this3),
   {| db := update_first (_id this) (applyUpdate (delta this3)) (db w);
      tick := S (S (S (tick w)));
      rnd := S (rnd w);
      outbox := outbox w |}).
Proof.
  intros Hm Hn Hp this1 this2 this3.
  assert (Hm1 : isModified this1 P_password = true).
  { unfold this1. rewrite assign_isModified_other by discriminate. exact Hm. }
  assert (Hp1 : password this1 = Some s).
  { unfold this1. rewrite password_assign_other by discriminate. exact Hp. }
  assert (Hm2 : isModified this2 P_password = true).
  { unfold this2. rewrite assign_isModified_other by discriminate.
    rewrite assign_isModified_same, Hm1. reflexivity. }
  assert (Hn2 : isNew this2 = false).
  { unfold this2, this1. rewrite !assign_isNew. exact Hn. }
  assert (Hn3 : isNew this3 = false).
  { unfold this3. rewrite assign_isNew. exact Hn2. }
  assert (Hi3 : _id this3 = _id this).
  { unfold this3, this2, this1. rewrite !assign_id. reflexivity. }
  unfold save, timestamps_pre_save.
  rewrite Hn, (isModified_any_true _ _ Hm). cbn [orb]. monad.
  fold this1. unfold pre_save_hash, pre_save_passwordChangedAt. monad.
  rewrite Hp1. monad. rewrite Hm1. monad. fold this2.
  rewrite Hm2, Hn2. monad. fold this3. rewrite Hn3, Hi3. monad.
  reflexivity.
Qed.

(** C3.  A login with the matching password on an existing, active
    account that is not locked removes the stored [loginAttempts] (the
    count then reads 0, the default of the schema) and [lockUntil],
    stores [lastLogin] as a reading [clock E k] of the clock taken during
    the request, and answers 200 with the token
    [jwt.sign({ id, role }, JWT_SECRET, { expiresIn: JWT_EXPIRE || '24h' })]
    of the account and its profile, whose [lastLogin] is that reading. *)
Theorem successful_login_resets_counter
        (w : World) (req_email req_password : string) (a : Admin) (h : string) :
  valid_login_request E req_email req_password ->
  unique_ids (db w) ->
  find (email_is (normalizeEmail E req_email)) (db w) = Some a ->
  isActive a = true ->
  (forall l, lockUntil a = Some l -> l <= clock E (tick w)) ->
  password a = Some h ->
  bcrypt_compare E req_password h = true ->
  let w' := run (login E req_email req_password) w in
  exists (a' : Admin) (k : nat),
    findById (_id a) (db w') = Some a' /\
    attempts_of a' = 0 /\
    lockUntil a' = None /\
    (tick w <= k < tick w')%nat /\
    lastLogin a' = Some (clock E k) /\
    result (login E req_email req_password) w =
      Responded 200
        (LoginSuccess
           (jwt_sign E {| jwt_id := _id a; jwt_role := role a |} (JWT_SECRET E)
              (match JWT_EXPIRE E with
               | None | Some EmptyString => "24h"
               | Some e => e
               end))
           {| profile_id := _id a; profile_name := name a;
              profile_email := email a; profile_role := role a;
              profile_avatar := avatar a;
              profile_lastLogin := Some (clock E k) |}).
Proof.
  intros Hv Hu Hfind Hact Hnl Hpw Hcmp.
  pose proof (found_is_stored _ _ _ Hu Hfind) as Hst.
  unfold login.
  rewrite (valid_login_request_passes _ _ Hv).
  monad. rewrite Hfind. cbn [option_map]. unfold login_found. monad.
  unfold isLocked, comparePassword.
  rewrite hydrate_lockUntil, hydrate_isActive, hydrate_password, Hact, Hpw.
  cbn [option_map]. rewrite Hcmp.
  unfold resetLoginAttempts, updateLastLogin.
  (* the world once the lock has been checked *)
  assert (Hcheck : exists n : nat, (n <= 1)%nat /\
            match lockUntil a with
            | Some l => now <- Date_now E;; ret (now <? l)
            | None => ret false
            end w = (false, {| db := db w; tick := (n + tick w)%nat;
                               rnd := rnd w; outbox := outbox w |})).
  { destruct (lockUntil a) as [l|].
    - exists 1%nat. split; [lia|]. monad.
      replace (clock E (tick w) <? l) with false
        by (symmetry; apply Z.ltb_ge; apply Hnl; reflexivity).
      reflexivity.
    - exists 0%nat. split; [lia|]. destruct w; reflexivity. }
  destruct Hcheck as [n [Hn ->]]. monad.
  set (t := clock E (S (n + tick w))).
  set (d0 := assign P_lastLogin (Some (V_num t)) (hydrate true a)).
  assert (Hm0 : isModified d0 P_password = false).
  { unfold d0. rewrite assign_isModified_other by discriminate. reflexivity. }
  assert (Hn0 : isNew d0 = false).
  { unfold d0. rewrite assign_isNew. reflexivity. }
  rewrite (save_password_unmodified d0 _ Hm0 Hn0). monad.
  unfold stamped. set (d1 := if isModified_any d0 then _ else d0).
  pose (a0 := applyUpdate [U_unset P_loginAttempts; U_unset P_lockUntil;
                            U_set P_updatedAt (V_num (clock E (n + tick w)%nat))] a).
  assert (Hid1 : _id d1 = _id a).
  { unfold d1, d0. destruct (isModified_any _); rewrite ?assign_id; apply hydrate_id. }
  assert (Hget1 : forall q, q <> P_lastLogin -> q <> P_updatedAt ->
                            q <> P_loginAttempts -> getPath q d1 = getPath q a).
  { intros q H1 H2 H3. unfold d1, d0.
    destruct (isModified_any _); rewrite ?assign_get_other by congruence;
      apply hydrate_get; congruence. }
  assert (Hmod1 : forall q, q <> P_lastLogin -> q <> P_updatedAt ->
                            isModified d1 q = false).
  { intros q H1 H2. unfold d1, d0.
    destruct (isModified_any _); rewrite ?assign_isModified_other by congruence;
      reflexivity. }
  assert (Hlast1 : lastLogin d1 = Some t).
  { apply lastLogin_get. cbn [option_map].
    unfold d1. destruct (isModified_any d0);
      rewrite ?assign_get_other by discriminate;
      unfold d0; apply assign_get_same;
      exists (setPath P_lastLogin (Some (V_num t)) a); reflexivity. }
  exists (applyUpdate (delta d1) a0), (S (n + tick w)).
  assert (Hid0 : _id d0 = _id a)
    by (unfold d0; rewrite assign_id; apply hydrate_id).
  rewrite Hid0, hydrate_id.
  rewrite !findById_update_first by apply applyUpdate_id.
  rewrite Hst. cbn [option_map].
  split; [reflexivity|].
  assert (Hlock : lockUntil (applyUpdate (delta d1) a0) = None).
  { apply lockUntil_get. cbn [option_map].
    rewrite applyUpdate_delta_get, Hmod1 by discriminate. reflexivity. }
  assert (Hcount : loginAttempts (applyUpdate (delta d1) a0) = None).
  { apply loginAttempts_get. cbn [option_map].
    rewrite applyUpdate_delta_get, Hmod1 by discriminate. reflexivity. }
  assert (Hlast : lastLogin (applyUpdate (delta d1) a0) = Some t).
  { apply lastLogin_get. cbn [option_map].
    rewrite applyUpdate_delta_get.
    destruct (isModified d1 P_lastLogin) eqn:Hml.
    - cbn [getPath]. rewrite Hlast1. reflexivity.
    - assert (Hml0 : isModified d0 P_lastLogin = false).
      { unfold d1 in Hml. destruct (isModified_any d0); [|exact Hml].
        rewrite assign_isModified_other in Hml by discriminate. exact Hml. }
      unfold d0 in Hml0. rewrite assign_isModified_same in Hml0.
      cbn [orb] in Hml0. apply negb_false_iff in Hml0.
      apply same_value_eq in Hml0.
      rewrite hydrate_get in Hml0 by congruence.
      unfold a0. cbn. exact Hml0. }
  split; [unfold attempts_of; rewrite Hcount; reflexivity|].
  split; [exact Hlock|].
  split.
  { destruct (password d0), (isModified_any d0); cbn; lia. }
  split; [exact Hlast|].
  unfold generateAuthToken, after_save. cbn [fields].
  rewrite Hid1, Hlast1.
  assert (H1 : name d1 = name a) by (apply name_get_eq, Hget1; discriminate).
  assert (H2 : email d1 = email a) by (apply email_get_eq, Hget1; discriminate).
  assert (H3 : role d1 = role a) by (apply role_get_eq, Hget1; discriminate).
  assert (H4 : avatar d1 = avatar a) by (apply avatar_get_eq, Hget1; discriminate).
  rewrite H1, H2, H3, H4. reflexivity.
Qed.

(** *** The two ways to answer "Invalid credentials" *)

Lemma login_unknown_email (w : World) (req_email req_password : string) :
  valid_login_request E req_email req_password ->
  find (email_is (normalizeEmail E req_email)) (db w) = None ->
  login E req_email req_password w = (invalid_credentials, w).
Proof.
  intros Hv Hfind. unfold login.
  rewrite (valid_login_request_passes _ _ Hv).
  monad. rewrite Hfind. cbn [option_map login_found]. monad.
  destruct w; reflexivity.
Qed.

Lemma login_wrong_password_result
      (w : World) (req_email req_password : string) (a : Admin) (h : string) :
  valid_login_request E req_email req_password ->
  find (email_is (normalizeEmail E req_email)) (db w) = Some a ->
  isActive a = true ->
  (forall l, lockUntil a = Some l -> l <= clock E (tick w)) ->
  password a = Some h ->
  bcrypt_compare E req_password h = false ->
  result (login E req_email req_password) w = invalid_credentials.
Proof.
  intros Hv Hfind Hact Hnl Hpw Hcmp. unfold login.
  rewrite (valid_login_request_passes _ _ Hv).
  monad. rewrite Hfind. cbn [option_map]. unfold login_found. monad.
  unfold isLocked, comparePassword.
  rewrite hydrate_lockUntil, hydrate_isActive, hydrate_password, Hact, Hpw.
  cbn [option_map]. rewrite Hcmp.
  destruct (lockUntil a) as [l|]; monad.
  - replace (clock E (tick w) <? l) with false
      by (symmetry; apply Z.ltb_ge; apply Hnl; reflexivity).
    monad. destruct (incLoginAttempts E (hydrate true a) _). reflexivity.
  - destruct (incLoginAttempts E (hydrate true a) _). reflexivity.
Qed.

(** C7.  A login for an address that no account has and a login with a
    wrong password on an existing, active, unlocked account get the same
    response: status 401 with the error "Invalid credentials". *)
Theorem unknown_email_answers_like_wrong_password
        (w1 w2 : World) (email1 password1 email2 password2 : string)
        (a : Admin) (h : string) :
  valid_login_request E email1 password1 ->
  valid_login_request E email2 password2 ->
  find (email_is (normalizeEmail E email1)) (db w1) = None ->
  find (email_is (normalizeEmail E email2)) (db w2) = Some a ->
  isActive a = true ->
  (forall l, lockUntil a = Some l -> l <= clock E (tick w2)) ->
  password a = Some h ->
  bcrypt_compare E password2 h = false ->
  result (login E email1 password1) w1 = result (login E email2 password2) w2 /\
  result (login E email1 password1) w1
    = Responded 401 (Failure "Invalid credentials").
Proof.
  intros Hv1 Hv2 Hnone Hsome Hact Hnl Hpw Hcmp.
  rewrite (login_wrong_password_result w2 email2 password2 a h) by assumption.
  unfold result. rewrite login_unknown_email by assumption.
  split; reflexivity.
Qed.

(** *** Deleting an account *)

Lemma by_id_found (id : string) (c : Collection) (a : Admin) :
  find (by_id id) c = Some a -> _id a = id.
Proof.
  intros H. apply find_some in H. destruct H as [_ H].
  apply String.eqb_eq. exact H.
Qed.

Lemma protect_reads_only (authorization : option string) (w : World) :
  run (protect E authorization) w = w.
Proof.
  unfold protect.
  destruct (match authorization with
            | Some h => if has_prefix "Bearer" h
                        then nth_error (split_space EmptyString h) 1
                        else None
            | None => None
            end) as [[|c t]|]; monad; try (destruct w; reflexivity).
  destruct (jwt_verify E (String c t) (JWT_SECRET E)); monad;
    [|destruct w; reflexivity].
  destruct (find (by_id (jwt_id j)) (db w)); cbn [option_map]; monad;
    destruct w; reflexivity.
Qed.

Lemma protect_account_stored (authorization : option string) (w : World)
      (caller : Document) :
  result (protect E authorization) w = inr caller ->
  exists raw, find (by_id (_id caller)) (db w) = Some raw /\
              caller = hydrate false raw.
Proof.
  unfold protect.
  destruct (match authorization with
            | Some h => if has_prefix "Bearer" h
                        then nth_error (split_space EmptyString h) 1
                        else None
            | None => None
            end) as [[|c t]|]; monad; try discriminate.
  destruct (jwt_verify E (String c t) (JWT_SECRET E)); monad; [|discriminate].
  destruct (find (by_id (jwt_id j)) (db w)) as [raw|] eqn:Hf;
    cbn [option_map]; monad; [|discriminate].
  intros H. injection H as <-. exists raw.
  rewrite hydrate_id, (by_id_found _ _ _ Hf). auto.
Qed.


(** C8.  For a request to [DELETE /api/admin/:id] that [protect] has
    authenticated as a super-admin: when [id] is the caller's own
    identifier the answer is 400 "Cannot delete your own account" and the
    store is unchanged; the answer is "Admin deleted successfully"
    exactly when [id] differs from the caller's identifier and an account
    is stored under it; in that case the account is gone and the others
    are untouched; in every other case the store is unchanged. *)
Theorem super_admin_cannot_delete_own_account
        (w : World) (authorization : option string) (id : string)
        (caller : Document) :
  unique_ids (db w) ->
  result (protect E authorization) w = inr caller ->
  role caller = role_super_admin ->
  let out := result (deleteAdmin E authorization id) w in
  let w' := run (deleteAdmin E authorization id) w in
  (id = _id caller ->
     out = Responded 400 (Failure "Cannot delete your own account") /\
     db w' = db w) /\
  (out = deleted_response <->
     id <> _id caller /\ exists target, findById id (db w) = Some target) /\
  (out = deleted_response ->
     findById id (db w') = None /\
     forall id', id' <> id -> findById id' (db w') = findById id' (db w)) /\
  (out <> deleted_response -> db w' = db w).
Proof.
  intros Hu Hp Hrole.
  destruct (protect_account_stored _ _ _ Hp) as [raw [Hraw Hcaller]].
  pose proof (protect_reads_only authorization w) as Hw.
  unfold result in Hp. unfold run in Hw.
  unfold deleteAdmin. monad.
  destruct (protect E authorization w) as [p w0]. cbn [fst snd] in *.
  subst p w0. unfold authorize. rewrite Hrole. cbn [existsb Role_eqb orb negb].
  unfold deleteAdmin_handler. monad. fold (findById id (db w)).
  destruct (findById id (db w)) as [target|] eqn:Hfind; cbn [option_map]; monad.
  - rewrite hydrate_id. unfold findById in Hfind.
    pose proof (by_id_found _ _ _ Hfind) as Hid. rewrite Hid.
    destruct (String.eqb_spec id (_id caller)) as [Heq|Hne]; monad.
    + split; [auto|]. split; [|split; [discriminate | auto]].
      split; [discriminate | intros [Hne _]; contradiction].
    + split; [intros Heq; contradiction|].
      split; [split; [intros _; split; [exact Hne | eauto] | reflexivity]|].
      split; [|intros H; exfalso; apply H; reflexivity].
      intros _. split.
      * apply delete_first_gone. exact Hu.
      * intros id' Hne'. apply delete_first_other. exact Hne'.
  - split.
    + intros Heq. subst id. unfold findById in Hfind. congruence.
    + split; [|split; [discriminate | auto]].
      split; [discriminate | intros [_ [t Ht]]; discriminate].
Qed.

(** *** Requesting and completing a password reset *)


(** [nodemailer] has no [createTransporter]. *)
Lemma createTransporter_throws : createTransporter = None.
Proof. reflexivity. Qed.

(** The mailer fails before it has a transporter. *)
Lemma sendPasswordResetEmail_throws (address resetToken : string) (w : World) :
  sendPasswordResetEmail E address resetToken w = (false, w).
Proof. unfold sendPasswordResetEmail. rewrite createTransporter_throws. reflexivity. Qed.

Lemma forgotPassword_is_issue_then_dispatch (req_email : string) (w : World) :
  forgotPassword E req_email w
  = (issued <- forgotPassword_issue E req_email ;;
     match issued with
     | inl response => ret response
     | inr p => forgotPassword_dispatch E p
     end) w.
Proof.
  unfold forgotPassword, forgotPassword_issue, forgotPassword_dispatch.
  destruct (negb (isEmail E req_email)); [reflexivity|].
  monad.
  destruct (find (email_is (normalizeEmail E req_email)) (db w)) as [a|];
    cbn [option_map]; monad; [|reflexivity].
  destruct (save E _ _) as [[admin3|] w1]; reflexivity.
Qed.

(** What the request has done when it calls the mailer. *)
Lemma forgotPassword_issued (w : World) (req_email : string) (a : Admin) :
  isEmail E req_email = true ->
  find (email_is (normalizeEmail E req_email)) (db w) = Some a ->
  exists w0,
    forgotPassword_issue E req_email w
    = (inr (after_save (reset_request_doc E w a), normalizeEmail E req_email,
            randomBytes_hex E (rnd w)), w0) /\
    db w0 = update_first (_id a) (applyUpdate (delta (reset_request_doc E w a)))
              (db w) /\
    outbox w0 = outbox w /\
    (S (tick w) <= tick w0 <= S (S (tick w)))%nat.
Proof.
  intros He Hfind.
  unfold forgotPassword_issue. rewrite He. cbn [negb].
  monad. rewrite Hfind. cbn [option_map]. monad.
  set (d2 := assign P_passwordResetExpires _ _).
  assert (Hm : isModified d2 P_password = false).
  { unfold d2. rewrite !assign_isModified_other by discriminate. reflexivity. }
  assert (Hn : isNew d2 = false).
  { unfold d2. rewrite !assign_isNew. reflexivity. }
  assert (Hid : _id d2 = _id a).
  { unfold d2. rewrite !assign_id. apply hydrate_id. }
  rewrite (save_password_unmodified d2 _ Hm Hn). monad. rewrite Hid.
  eexists. split; [reflexivity|]. cbn [db tick outbox].
  split; [reflexivity|]. split; [reflexivity|].
  assert (Hp : password d2 = None).
  { unfold d2. rewrite !password_assign_other by discriminate.
    apply hydrate_no_password. }
  rewrite Hp. destruct (isModified_any d2); cbn; lia.
Qed.

(** What the store holds once the request has been saved. *)
Lemma reset_request_stored (w : World) (a : Admin) :
  let a1 := applyUpdate (delta (reset_request_doc E w a)) a in
  passwordResetToken a1 = Some (sha256_hex E (randomBytes_hex E (rnd w))) /\
  passwordResetExpires a1 = Some (clock E (tick w) + one_hour) /\
  (forall q, q <> P_passwordResetToken -> q <> P_passwordResetExpires ->
             q <> P_updatedAt -> getPath q a1 = getPath q a).
Proof.
  intros a1. unfold a1, reset_request_doc.
  split; [|split].
  - apply passwordResetToken_get. cbn [option_map].
    unfold reset_request_doc. rewrite stored_synced.
    + rewrite stamped_get_other, assign_get_other by discriminate.
      apply assign_get_same, well_kinded_str_token.
    + apply synced_stamped. do 2 apply synced_assign.
      apply synced_hydrate; discriminate.
  - apply passwordResetExpires_get. cbn [option_map].
    unfold reset_request_doc. rewrite stored_synced.
    + rewrite stamped_get_other by discriminate.
      apply assign_get_same, well_kinded_num_expires.
    + apply synced_stamped. do 2 apply synced_assign.
      apply synced_hydrate; discriminate.
  - intros q H1 H2 H3. rewrite applyUpdate_delta_get.
    rewrite stamped_isModified_other by exact H3.
    rewrite !assign_isModified_other by congruence. reflexivity.
Qed.

(** The whole request for an account that exists: the mailer throws and
    the handler saves the document again without the token. *)
Lemma forgotPassword_rolled_back (w : World) (req_email : string) (a : Admin) :
  isEmail E req_email = true ->
  find (email_is (normalizeEmail E req_email)) (db w) = Some a ->
  exists (w' : World) (t : Z),
    forgotPassword E req_email w = (mail_failed, w') /\
    outbox w' = outbox w /\
    db w' = update_first (_id a)
              (fun x => applyUpdate (delta (rollback_doc E w t a))
                          (applyUpdate (delta (reset_request_doc E w a)) x))
              (db w).
Proof.
  intros He Hfind.
  rewrite forgotPassword_is_issue_then_dispatch. unfold bind at 1.
  destruct (forgotPassword_issued w req_email a He Hfind)
    as [w0 [-> [Hdb0 [Hout0 _]]]].
  unfold forgotPassword_dispatch. cbn [fst snd]. unfold bind at 1.
  rewrite sendPasswordResetEmail_throws.
  set (d3 := after_save (reset_request_doc E w a)).
  set (d5 := assign P_passwordResetExpires None
               (assign P_passwordResetToken None d3)).
  assert (Hm5 : isModified d5 P_password = false).
  { unfold d5. rewrite !assign_isModified_other by discriminate. reflexivity. }
  assert (Hn5 : isNew d5 = false).
  { unfold d5. rewrite !assign_isNew. reflexivity. }
  assert (Hid5 : _id d5 = _id a).
  { unfold d5, d3. rewrite !assign_id. cbn [after_save fields].
    unfold reset_request_doc. rewrite stamped_id, !assign_id. apply hydrate_id. }
  unfold bind. rewrite (save_password_unmodified d5 _ Hm5 Hn5).
  cbv beta iota. unfold ret, mail_failed.
  eexists. exists (clock E (tick w0)).
  split; [reflexivity|]. cbn [db outbox].
  split; [exact Hout0|].
  rewrite Hid5, Hdb0.
  rewrite update_first_compose by apply applyUpdate_id.
  reflexivity.
Qed.

(** What the store holds once the rollback has been saved. *)
Lemma rolled_back_stored (w : World) (t : Z) (a : Admin) :
  let a1 := applyUpdate (delta (reset_request_doc E w a)) a in
  let a2 := applyUpdate (delta (rollback_doc E w t a)) a1 in
  passwordResetToken a2 = None /\
  passwordResetExpires a2 = None /\
  (forall q, q <> P_passwordResetToken -> q <> P_passwordResetExpires ->
             q <> P_updatedAt -> getPath q a2 = getPath q a).
Proof.
  intros a1 a2.
  set (d3 := after_save (reset_request_doc E w a)).
  set (d5 := assign P_passwordResetExpires None
               (assign P_passwordResetToken None d3)).
  assert (Hsync : forall p, p <> P_loginAttempts -> p <> P_password ->
                            synced (stamped t d5) a1 p).
  { intros p H1 H2. apply synced_stamped. unfold d5. do 2 apply synced_assign.
    unfold d3, a1. apply synced_after_save. unfold reset_request_doc.
    apply synced_stamped. do 2 apply synced_assign.
    apply synced_hydrate; congruence. }
  split; [|split].
  - apply passwordResetToken_get. cbn [option_map].
    unfold a2, rollback_doc. fold d3. fold d5.
    rewrite stored_synced by (apply Hsync; discriminate).
    rewrite stamped_get_other by discriminate. unfold d5.
    rewrite assign_get_other by discriminate.
    apply assign_get_same, well_kinded_None_token.
  - apply passwordResetExpires_get. cbn [option_map].
    unfold a2, rollback_doc. fold d3. fold d5.
    rewrite stored_synced by (apply Hsync; discriminate).
    rewrite stamped_get_other by discriminate. unfold d5.
    apply assign_get_same, well_kinded_None_expires.
  - intros q H1 H2 H3. unfold a2, rollback_doc. fold d3. fold d5.
    rewrite applyUpdate_delta_get.
    rewrite stamped_isModified_other by exact H3.
    unfold d5. rewrite !assign_isModified_other by congruence.
    cbn [isModified after_save d3 modifiedPaths existsb].
    destruct (reset_request_stored w a) as [_ [_ Hframe]].
    apply Hframe; assumption.
Qed.

(** The account a request was made for, once the request is over. *)
Lemma forgotPassword_account_after
      (w : World) (req_email : string) (a : Admin) :
  isEmail E req_email = true ->
  unique_ids (db w) ->
  find (email_is (normalizeEmail E req_email)) (db w) = Some a ->
  exists (w' : World) (f : Admin -> Admin),
    forgotPassword E req_email w = (mail_failed, w') /\
    outbox w' = outbox w /\
    db w' = update_first (_id a) f (db w) /\
    (forall x, _id (f x) = _id x) /\
    findById (_id a) (db w') = Some (f a) /\
    passwordResetToken (f a) = None /\
    passwordResetExpires (f a) = None /\
    (forall q, q <> P_passwordResetToken -> q <> P_passwordResetExpires ->
               q <> P_updatedAt -> getPath q (f a) = getPath q a).
Proof.
  intros He Hu Hfind.
  destruct (forgotPassword_rolled_back w req_email a He Hfind)
    as [w' [t [Hrun [Hout Hdb]]]].
  destruct (rolled_back_stored w t a) as [Htok [Hexp Hframe]].
  cbv zeta in Htok, Hexp, Hframe.
  exists w'.
  exists (fun x => applyUpdate (delta (rollback_doc E w t a))
                     (applyUpdate (delta (reset_request_doc E w a)) x)).
  split; [exact Hrun|]. split; [exact Hout|]. split; [exact Hdb|].
  assert (Hid : forall x,
             _id (applyUpdate (delta (rollback_doc E w t a))
                    (applyUpdate (delta (reset_request_doc E w a)) x)) = _id x)
    by (intros x; rewrite !applyUpdate_id; reflexivity).
  split; [exact Hid|].
  split.
  { rewrite Hdb, findById_update_first by exact Hid.
    rewrite (found_is_stored _ _ _ Hu Hfind). reflexivity. }
  split; [exact Htok|]. split; [exact Hexp | exact Hframe].
Qed.

(** C6, as amended.  When [forgotPassword] finds the account, the
    mailer fails (it throws for every mail: [createTransporter] calls a
    function that [nodemailer] does not have), the answer is 500 "Email
    could not be sent", no mail is in the outbox, and the stored account
    has neither [passwordResetToken] nor [passwordResetExpires]; every
    other path but [updatedAt] reads as before.  The rollback clears what
    it finds: the reset token and the expiry of the account are as they
    were before the request exactly when the account had neither. *)
Theorem failed_mail_clears_reset_token
        (w : World) (req_email : string) (a : Admin) :
  isEmail E req_email = true ->
  unique_ids (db w) ->
  find (email_is (normalizeEmail E req_email)) (db w) = Some a ->
  let w' := run (forgotPassword E req_email) w in
  result (forgotPassword E req_email) w = mail_failed /\
  outbox w' = outbox w /\
  exists a',
    findById (_id a) (db w') = Some a' /\
    passwordResetToken a' = None /\
    passwordResetExpires a' = None /\
    (forall q, q <> P_passwordResetToken -> q <> P_passwordResetExpires ->
               q <> P_updatedAt -> readPath q a' = readPath q a) /\
    (passwordResetToken a' = passwordResetToken a /\
     passwordResetExpires a' = passwordResetExpires a
     <-> passwordResetToken a = None /\ passwordResetExpires a = None).
Proof.
  intros He Hu Hfind w'.
  destruct (forgotPassword_account_after w req_email a He Hu Hfind)
    as [w1 [f [Hrun [Hout [_ [_ [Hst [Htok [Hexp Hframe]]]]]]]]].
  assert (Hw : w' = w1) by (unfold w', run; rewrite Hrun; reflexivity).
  split; [unfold result; rewrite Hrun; reflexivity|].
  rewrite Hw. split; [exact Hout|].
  exists (f a). split; [exact Hst|].
  split; [exact Htok|]. split; [exact Hexp|]. split.
  - intros q H1 H2 H3. apply readPath_same. apply Hframe; assumption.
  - rewrite Htok, Hexp. split; intros [H1 H2]; split; congruence.
Qed.

Lemma reset_assigns_password (req_password : string) (a : Admin) :
  let d0 := assign P_password (Some (V_str req_password)) (hydrate false a) in
  isModified d0 P_password = true /\ password d0 = Some req_password.
Proof.
  intros d0. split.
  - unfold d0. rewrite assign_isModified_same. cbn [getPath].
    rewrite hydrate_no_password. reflexivity.
  - apply password_get. cbn [option_map].
    apply assign_get_same, well_kinded_str_password.
Qed.

Lemma resetPassword_found (w : World) (token req_password : string) (a : Admin) :
  (6 <= String.length req_password)%nat ->
  find (reset_query (sha256_hex E token) (clock E (tick w))) (db w) = Some a ->
  resetPassword E token req_password w =
  (reset_done,
   {| db := update_first (_id a)
              (applyUpdate (delta (reset_doc E w req_password a))) (db w);
      tick := S (S (S (S (tick w))));
      rnd := S (rnd w);
      outbox := outbox w |}).
Proof.
  intros Hlen Hfind. unfold resetPassword.
  replace (String.length req_password <? 6)%nat with false
    by (symmetry; apply Nat.ltb_ge; exact Hlen).
  monad. rewrite Hfind. cbn [option_map]. monad.
  destruct (reset_assigns_password req_password a) as [Hm0 Hp0].
  set (d0 := assign P_password (Some (V_str req_password)) (hydrate false a)) in *.
  set (d3 := assign P_passwordResetExpires None (assign P_passwordResetToken None d0)).
  assert (Hm3 : isModified d3 P_password = true).
  { unfold d3. rewrite !assign_isModified_other by discriminate. exact Hm0. }
  assert (Hp3 : password d3 = Some req_password).
  { unfold d3. rewrite !password_assign_other by discriminate. exact Hp0. }
  assert (Hn3 : isNew d3 = false).
  { unfold d3, d0. rewrite !assign_isNew. reflexivity. }
  assert (Hid3 : _id d3 = _id a).
  { unfold d3, d0. rewrite !assign_id. apply hydrate_id. }
  rewrite (save_password_modified d3 _ req_password Hm3 Hn3 Hp3). monad.
  rewrite Hid3. subst d3 d0. unfold reset_doc. reflexivity.
Qed.

Lemma resetPassword_none (w : World) (token req_password : string) :
  (6 <= String.length req_password)%nat ->
  find (reset_query (sha256_hex E token) (clock E (tick w))) (db w) = None ->
  result (resetPassword E token req_password) w = reset_refused /\
  db (run (resetPassword E token req_password) w) = db w.
Proof.
  intros Hlen Hfind. unfold resetPassword.
  replace (String.length req_password <? 6)%nat with false
    by (symmetry; apply Nat.ltb_ge; exact Hlen).
  monad. rewrite Hfind. cbn [option_map]. monad. auto.
Qed.

(** What the store holds once the reset has been saved. *)
Lemma reset_stored (w : World) (req_password : string) (a : Admin) :
  let a2 := applyUpdate (delta (reset_doc E w req_password a)) a in
  password a2
    = Some (bcrypt_hash E req_password (bcrypt_genSalt E (rnd w))) /\
  passwordResetToken a2 = None /\
  passwordResetExpires a2 = None /\
  passwordChangedAt a2 = Some (clock E (S (S (S (tick w)))) - 1000) /\
  (forall q, q <> P_password -> q <> P_passwordResetToken ->
             q <> P_passwordResetExpires -> q <> P_passwordChangedAt ->
             q <> P_updatedAt -> getPath q a2 = getPath q a).
Proof.
  intros a2.
  destruct (reset_assigns_password req_password a) as [Hm0 Hp0].
  assert (Hsync : forall p, p <> P_loginAttempts -> p <> P_password ->
                            synced (reset_doc E w req_password a) a p).
  { intros p H1 H2. unfold reset_doc. do 7 apply synced_assign.
    apply synced_hydrate; congruence. }
  split; [|split; [|split; [|split]]].
  - apply password_get. cbn [option_map].
    unfold a2. rewrite applyUpdate_delta_get. unfold reset_doc.
    rewrite !(assign_isModified_other P_passwordChangedAt) by discriminate.
    rewrite !(assign_isModified_other P_updatedAt) by discriminate.
    rewrite assign_isModified_same.
    rewrite !(assign_isModified_other P_updatedAt) by discriminate.
    rewrite !(assign_isModified_other P_passwordResetExpires) by discriminate.
    rewrite !(assign_isModified_other P_passwordResetToken) by discriminate.
    rewrite Hm0. cbn [orb].
    rewrite !(assign_get_other P_passwordChangedAt) by discriminate.
    rewrite !(assign_get_other P_updatedAt) by discriminate.
    apply assign_get_same, well_kinded_str_password.
  - apply passwordResetToken_get. cbn [option_map].
    unfold a2. rewrite stored_synced by (apply Hsync; discriminate).
    unfold reset_doc. rewrite !assign_get_other by discriminate.
    apply assign_get_same, well_kinded_None_token.
  - apply passwordResetExpires_get. cbn [option_map].
    unfold a2. rewrite stored_synced by (apply Hsync; discriminate).
    unfold reset_doc. rewrite !assign_get_other by discriminate.
    apply assign_get_same, well_kinded_None_expires.
  - apply passwordChangedAt_get. cbn [option_map].
    unfold a2. rewrite stored_synced by (apply Hsync; discriminate).
    unfold reset_doc. apply assign_get_same, well_kinded_num_changedAt.
  - intros q H1 H2 H3 H4 H5. unfold a2.
    rewrite applyUpdate_delta_get. unfold reset_doc.
    rewrite !assign_isModified_other by congruence. reflexivity.
Qed.

Lemma reset_query_false_without_token (dg : string) (now : Z) (a : Admin) :
  passwordResetToken a <> Some dg -> reset_query dg now a = false.
Proof.
  intros H. unfold reset_query.
  destruct (passwordResetToken a) as [t|]; [|reflexivity].
  destruct (passwordResetExpires a); [|reflexivity].
  destruct (String.eqb_spec t dg); [congruence | reflexivity].
Qed.

(** After a request for an account that exists no account of the store
    answers to a digest that no other account held. *)
Lemma forgotPassword_leaves_no_digest
      (w : World) (req_email dg : string) (now : Z) (a : Admin) :
  isEmail E req_email = true ->
  unique_ids (db w) ->
  find (email_is (normalizeEmail E req_email)) (db w) = Some a ->
  (forall b, In b (db w) -> _id b <> _id a -> passwordResetToken b <> Some dg) ->
  find (reset_query dg now) (db (run (forgotPassword E req_email) w)) = None.
Proof.
  intros He Hu Hfind Hothers.
  destruct (forgotPassword_account_after w req_email a He Hu Hfind)
    as [w' [f [Hrun [_ [Hdb [_ [_ [Htok _]]]]]]]].
  unfold run. rewrite Hrun. cbn [snd]. rewrite Hdb.
  pose proof (find_some _ _ Hfind) as [Hin _].
  apply find_updated_none; auto.
  - intros b Hb Hne. apply reset_query_false_without_token. auto.
  - unfold reset_query. rewrite Htok. reflexivity.
Qed.

(** On a store where the digest of [token] finds [a] and no other account
    holds it, [resetPassword] succeeds and leaves a store where the digest
    finds nothing. *)
Lemma resetPassword_consumes_the_token
      (w : World) (token new_password : string) (a : Admin) :
  (6 <= String.length new_password)%nat ->
  unique_ids (db w) ->
  find (reset_query (sha256_hex E token) (clock E (tick w))) (db w) = Some a ->
  (forall b, In b (db w) -> _id b <> _id a ->
             passwordResetToken b <> Some (sha256_hex E token)) ->
  exists w2,
    resetPassword E token new_password w = (reset_done, w2) /\
    findById (_id a) (db w2)
    = Some (applyUpdate (delta (reset_doc E w new_password a)) a) /\
    forall now, find (reset_query (sha256_hex E token) now) (db w2) = None.
Proof.
  intros Hlen Hu Hfind Hothers.
  pose proof (resetPassword_found w token new_password a Hlen Hfind) as Hreset.
  pose proof (find_some _ _ Hfind) as [Hin _].
  destruct (reset_stored w new_password a) as [_ [Htok2 _]].
  cbv zeta in Htok2.
  eexists. split; [exact Hreset|]. cbn [db]. split.
  - rewrite findById_update_first by (intros x; apply applyUpdate_id).
    rewrite (unique_findById _ _ Hu Hin). reflexivity.
  - intros now. apply find_updated_none; auto.
    + intros b Hb Hne. apply reset_query_false_without_token. auto.
    + unfold reset_query. rewrite Htok2. reflexivity.
Qed.

(** C5.  The request and the completion do not meet in this code.
    First part, the defect: [forgotPassword] for an existing account
    never hands the raw token to the mailer, because [createTransporter]
    calls [nodemailer.createTransporter], which does not exist (the
    library has [createTransport]); the handler answers 500 "Email could
    not be sent", the outbox is as before, and a [resetPassword] with the
    raw token of that request, made right after it, is refused with
    "Invalid or expired reset token" and changes nothing: the request
    followed by the completion succeeds not once but never.
    Second part, what the handler had stored when it called the mailer:
    the digest of the raw token and, as expiry, the clock as the handler
    read it plus one hour.
    Third part, the completion on its own: on a store where the digest of
    the token finds an account whose expiry is in the future,
    [resetPassword] succeeds, stores the hash of the new password and
    removes digest and expiry, and a second [resetPassword] with the same
    token is refused and changes nothing.
    Fourth part: a [resetPassword] is refused, and changes nothing, when
    every account whose stored digest matches the token has an expiry
    that is not later than the reading of the clock.
    (In the first and third part no other account holds the digest of the
    token: tokens are 32 random bytes.) *)
Theorem reset_request_never_mails_the_token :
  (forall (w : World) (req_email new_password : string) (a : Admin),
      isEmail E req_email = true ->
      (6 <= String.length new_password)%nat ->
      unique_ids (db w) ->
      find (email_is (normalizeEmail E req_email)) (db w) = Some a ->
      let token := randomBytes_hex E (rnd w) in
      (forall b, In b (db w) -> _id b <> _id a ->
                 passwordResetToken b <> Some (sha256_hex E token)) ->
      let w1 := run (forgotPassword E req_email) w in
      createTransporter = None /\
      result (forgotPassword E req_email) w = mail_failed /\
      outbox w1 = outbox w /\
      result (resetPassword E token new_password) w1 = reset_refused /\
      db (run (resetPassword E token new_password) w1) = db w1)
  /\
  (forall (w : World) (req_email : string) (a : Admin),
      isEmail E req_email = true ->
      unique_ids (db w) ->
      find (email_is (normalizeEmail E req_email)) (db w) = Some a ->
      let w0 := run (forgotPassword_issue E req_email) w in
      outbox w0 = outbox w /\
      exists a1,
        findById (_id a) (db w0) = Some a1 /\
        passwordResetToken a1
        = Some (sha256_hex E (randomBytes_hex E (rnd w))) /\
        passwordResetExpires a1 = Some (clock E (tick w) + one_hour))
  /\
  (forall (w : World) (token new_password again : string) (a : Admin),
      (6 <= String.length new_password)%nat ->
      (6 <= String.length again)%nat ->
      unique_ids (db w) ->
      find (reset_query (sha256_hex E token) (clock E (tick w))) (db w)
      = Some a ->
      (forall b, In b (db w) -> _id b <> _id a ->
                 passwordResetToken b <> Some (sha256_hex E token)) ->
      let w2 := run (resetPassword E token new_password) w in
      result (resetPassword E token new_password) w = reset_done /\
      (exists a2, findById (_id a) (db w2) = Some a2 /\
                  passwordResetToken a2 = None /\
                  passwordResetExpires a2 = None /\
                  password a2 = Some (bcrypt_hash E new_password
                                        (bcrypt_genSalt E (rnd w)))) /\
      result (resetPassword E token again) w2 = reset_refused /\
      db (run (resetPassword E token again) w2) = db w2)
  /\
  (forall (w : World) (token req_password : string),
      (6 <= String.length req_password)%nat ->
      (forall b e, In b (db w) ->
                   passwordResetToken b = Some (sha256_hex E token) ->
                   passwordResetExpires b = Some e ->
                   e <= clock E (tick w)) ->
      result (resetPassword E token req_password) w = reset_refused /\
      db (run (resetPassword E token req_password) w) = db w).
Proof.
  split; [|split; [|split]].
  - intros w req_email new_password a He Hlen Hu Hfind token Hothers w1.
    destruct (forgotPassword_account_after w req_email a He Hu Hfind)
      as [w' [f [Hrun [Hout _]]]].
    split; [exact createTransporter_throws|].
    split; [unfold result; rewrite Hrun; reflexivity|].
    split; [unfold w1, run; rewrite Hrun; exact Hout|].
    apply resetPassword_none; [exact Hlen|].
    unfold w1. apply (forgotPassword_leaves_no_digest w req_email _ _ a);
      assumption.
  - intros w req_email a He Hu Hfind w0.
    destruct (forgotPassword_issued w req_email a He Hfind)
      as [w0' [Hrun [Hdb [Hout _]]]].
    assert (Hw : w0 = w0') by (unfold w0, run; rewrite Hrun; reflexivity).
    rewrite Hw. split; [exact Hout|].
    destruct (reset_request_stored w a) as [Htok [Hexp _]].
    cbv zeta in Htok, Hexp.
    exists (applyUpdate (delta (reset_request_doc E w a)) a).
    split; [|split; assumption].
    rewrite Hdb, findById_update_first by (intros x; apply applyUpdate_id).
    rewrite (found_is_stored _ _ _ Hu Hfind). reflexivity.
  - intros w token new_password again a Hlen Hlen' Hu Hfind Hothers w2.
    destruct (resetPassword_consumes_the_token w token new_password a
                Hlen Hu Hfind Hothers) as [w2' [Hrun [Hst Hnone]]].
    assert (Hw : w2 = w2') by (unfold w2, run; rewrite Hrun; reflexivity).
    destruct (reset_stored w new_password a) as [Hpw2 [Htok2 [Hexp2 _]]].
    cbv zeta in Hpw2, Htok2, Hexp2.
    split; [unfold result; rewrite Hrun; reflexivity|].
    rewrite Hw. split.
    { eexists. split; [exact Hst|]. auto. }
    apply resetPassword_none; [exact Hlen'|]. apply Hnone.
  - intros w token req_password Hlen Hexpired.
    apply resetPassword_none; [exact Hlen|].
    apply find_all_false. intros b Hb. unfold reset_query.
    destruct (passwordResetToken b) as [t|] eqn:Ht; [|reflexivity].
    destruct (passwordResetExpires b) as [e|] eqn:He; [|reflexivity].
    destruct (String.eqb_spec t (sha256_hex E token)) as [->|]; [|reflexivity].
    cbn [andb]. apply Z.ltb_ge. eapply Hexpired; eauto.
Qed.

(** C10, as amended.  A successful [resetPassword] leaves every path of
    the account reading as before except [password],
    [passwordResetToken], [passwordResetExpires], [passwordChangedAt]
    and [updatedAt]; the other accounts are untouched.  In particular the
    count of failures and [lockUntil] are as before, so an account locked
    at the time of the reset still answers 423 to a login made before
    [lockUntil]. *)
Theorem reset_keeps_counter_and_lock :
  reset_touches_only E
    [P_password; P_passwordResetToken; P_passwordResetExpires;
     P_passwordChangedAt; P_updatedAt]
  /\
  (forall (w : World) (token req_password : string) (a : Admin),
      (6 <= String.length req_password)%nat ->
      unique_ids (db w) ->
      find (reset_query (sha256_hex E token) (clock E (tick w))) (db w) = Some a ->
      let w' := run (resetPassword E token req_password) w in
      result (resetPassword E token req_password) w = reset_done /\
      (forall id', id' <> _id a -> findById id' (db w') = findById id' (db w)) /\
      exists a',
        findById (_id a) (db w') = Some a' /\
        _id a' = _id a /\ createdAt a' = createdAt a /\
        attempts_of a' = attempts_of a /\
        lockUntil a' = lockUntil a /\
        (forall (l : Z) (req_email login_password : string),
            lockUntil a = Some l ->
            valid_login_request E req_email login_password ->
            find (email_is (normalizeEmail E req_email)) (db w) = Some a ->
            clock E (tick w') < l ->
            result (login E req_email login_password) w' = locked_response /\
            db (run (login E req_email login_password) w') = db w')).
Proof.
  assert (Hframe' : forall w req_password a q,
             existsb (Path_eqb q)
               [P_password; P_passwordResetToken; P_passwordResetExpires;
                P_passwordChangedAt; P_updatedAt] = false ->
             getPath q (applyUpdate (delta (reset_doc E w req_password a)) a)
             = getPath q a).
  { intros w req_password a q Hq. cbn [existsb] in Hq.
    repeat (apply orb_false_iff in Hq; destruct Hq as [? Hq]).
    destruct (reset_stored w req_password a) as [_ [_ [_ [_ Hframe]]]].
    apply Hframe; apply Path_eqb_neq; assumption. }
  split.
  - intros w token req_password a a' Hu Hres Hfind Hst' q Hq.
    assert (Hlen : (6 <= String.length req_password)%nat).
    { destruct (Nat.ltb_spec (String.length req_password) 6) as [Hlt|Hge];
        [|exact Hge].
      exfalso. unfold result, resetPassword in Hres.
      apply Nat.ltb_lt in Hlt. rewrite Hlt in Hres. discriminate. }
    pose proof (resetPassword_found w token req_password a Hlen Hfind) as Hrun.
    pose proof (found_is_stored _ _ _ Hu Hfind) as Hst.
    unfold run in Hst'. rewrite Hrun in Hst'. cbn [snd db] in Hst'.
    rewrite findById_update_first in Hst' by (intros x; apply applyUpdate_id).
    rewrite Hst in Hst'. cbn [option_map] in Hst'.
    apply Some_eq in Hst'. subst a'.
    apply readPath_same, Hframe'. exact Hq.
  - intros w token req_password a Hlen Hu Hfind w'.
    pose proof (resetPassword_found w token req_password a Hlen Hfind) as Hrun.
    pose proof (found_is_stored _ _ _ Hu Hfind) as Hst.
    specialize (Hframe' w req_password a).
    set (g := applyUpdate (delta (reset_doc E w req_password a))) in *.
    assert (Hdb : db w' = update_first (_id a) g (db w))
      by (unfold w', run; rewrite Hrun; reflexivity).
    split; [unfold result; rewrite Hrun; reflexivity|].
    split.
    { intros id' Hne. rewrite Hdb. apply findById_update_other; [|exact Hne].
      intros x. apply applyUpdate_id. }
    exists (g a).
    assert (Hlock : lockUntil (g a) = lockUntil a)
      by (apply lockUntil_get; apply (Hframe' P_lockUntil); reflexivity).
    split.
    { rewrite Hdb, findById_update_first by (intros x; apply applyUpdate_id).
      rewrite Hst. reflexivity. }
    split; [apply applyUpdate_id|].
    split; [apply applyUpdate_createdAt|].
    split; [apply attempts_of_read, readPath_same, (Hframe' P_loginAttempts);
            reflexivity|].
    split; [exact Hlock|].
    intros l req_email login_password Hl Hv Hmail Hsoon.
    destruct (login_locked w' req_email login_password (g a) l) as [H1 [H2 _]];
      auto; [|congruence].
    rewrite Hdb. apply find_update_first; auto.
    + intros x. apply applyUpdate_id.
    + intros x. unfold email_is.
      assert (Hx : getPath P_email (g x) = getPath P_email x).
      { unfold g. rewrite applyUpdate_delta_get. unfold reset_doc.
        rewrite !assign_isModified_other by discriminate. reflexivity. }
      rewrite (email_get_eq _ _ Hx). reflexivity.
Qed.

(** *** The hook that hashes the password *)

(** A save that assigned the password hashes it once and calls [next()]
    once. *)
Lemma hashing_hook_on_modified_password (this : Document) (w : World) (s : string) :
  isModified this P_password = true ->
  password this = Some s ->
  let r := result (pre_save_hash E this) w in
  next_calls r = 1%nat /\ hash_calls r = 1%nat /\
  password (at_end r) = Some (bcrypt_hash E s (bcrypt_genSalt E (rnd w))) /\
  at_next r = Some (at_end r).
Proof.
  intros Hm Hp. unfold pre_save_hash. monad. rewrite Hp, Hm. monad.
  cbn [next_calls hash_calls at_end negb].
  repeat split.
  rewrite password_assign_other by discriminate.
  apply V_str_inj.
  apply (assign_get_same P_password), well_kinded_str_password.
Qed.

(** C4.  What the hashing hook does on a save that did not assign the
    password, when the document carries it (as in the login route, which
    selects it): it calls [next()], the rest of the save going on from
    the document as it is, and then hashes [this.password] all the same,
    once, assigns the result and calls [next()] a second time. *)
Theorem hashing_hook_rehashes_unmodified_password
        (this : Document) (w : World) (s : string) :
  isModified this P_password = false ->
  password this = Some s ->
  let r := result (pre_save_hash E this) w in
  at_next r = Some this /\
  next_calls r = 2%nat /\
  hash_calls r = 1%nat /\
  password (at_end r) = Some (bcrypt_hash E s (bcrypt_genSalt E (rnd w))).
Proof.
  intros Hm Hp. unfold pre_save_hash. monad. rewrite Hp, Hm. monad.
  cbn [next_calls hash_calls at_end negb].
  repeat split.
  rewrite password_assign_other by discriminate.
  apply V_str_inj.
  apply (assign_get_same P_password), well_kinded_str_password.
Qed.

(** *** Requests in flight together *)

Lemma login_is_lookup_then_rest (req_email req_password : string) (w : World) :
  valid_login_request E req_email req_password ->
  login E req_email req_password w
  = (d <- login_lookup E req_email ;; login_found E d req_password) w.
Proof.
  intros Hv. unfold login, login_lookup.
  rewrite (valid_login_request_passes _ _ Hv). reflexivity.
Qed.

(** The update of a request that read the account without a lock. *)
Lemma incLoginAttempts_no_lock (d : Document) (w : World) (a : Admin) :
  lockUntil d = None ->
  findById (_id d) (db w) = Some a ->
  exists a',
    findById (_id d) (db (run (incLoginAttempts E d) w)) = Some a' /\
    attempts_of a' = attempts_of a + 1 /\
    ((forall n, loginAttempts d = Some n -> n + 1 < lock_threshold) ->
     lockUntil a' = lockUntil a).
Proof.
  intros Hl Hst. unfold incLoginAttempts, isLocked. rewrite Hl. monad.
  destruct (loginAttempts d) as [n|] eqn:Hn.
  - destruct (lock_threshold <=? n + 1) eqn:Hth; monad.
    + destruct (inc_lock_update_fields (clock E (S (tick w)))
                  (clock E (tick w) + two_hours) a) as [Hc Hk].
      eexists. rewrite findById_update_first by apply applyUpdate_id.
      rewrite Hst. cbn [option_map]. split; [reflexivity|].
      split; [unfold attempts_of at 1; rewrite Hc; reflexivity|].
      intros Hlow. specialize (Hlow n eq_refl).
      apply Z.leb_le in Hth. lia.
    + destruct (inc_update_fields (clock E (tick w)) a) as [Hc Hk].
      eexists. rewrite findById_update_first by apply applyUpdate_id.
      rewrite Hst. cbn [option_map]. split; [reflexivity|].
      split; [unfold attempts_of at 1; rewrite Hc; reflexivity|].
      intros _. exact Hk.
  - monad.
    destruct (inc_update_fields (clock E (tick w)) a) as [Hc Hk].
    eexists. rewrite findById_update_first by apply applyUpdate_id.
    rewrite Hst. cbn [option_map]. split; [reflexivity|].
    split; [unfold attempts_of at 1; rewrite Hc; reflexivity|].
    intros _. exact Hk.
Qed.

Lemma count_all_run (d : Document) (ds : list Document) (w : World) :
  run (count_all E (d :: ds)) w
  = run (count_all E ds) (run (incLoginAttempts E d) w).
Proof.
  unfold run. cbn [count_all]. unfold bind.
  destruct (incLoginAttempts E d w). reflexivity.
Qed.

(** C9, as amended.  The increment is made by the store on the count it
    holds: when the updates of any number of requests that each read the
    account without a lock reach the store, in whatever order, the stored
    count rises by exactly that number.  The decision to lock is taken on
    the count each request read: when every request read a count below
    4, no lock is set, whatever the stored count has become. *)
Theorem increments_are_applied_by_the_store
        (id : string) (read : list Document) :
  Forall (fun d : Document => _id d = id /\ lockUntil d = None) read ->
  forall (w : World) (a : Admin),
    findById id (db w) = Some a ->
    exists a',
      findById id (db (run (count_all E read) w)) = Some a' /\
      attempts_of a' = attempts_of a + Z.of_nat (List.length read) /\
      (Forall (fun d : Document =>
                 forall n, loginAttempts d = Some n -> n + 1 < lock_threshold)
              read ->
       lockUntil a' = lockUntil a).
Proof.
  intros Hall. induction Hall as [|d ds [Hid Hl] Hall IH]; intros w a Hst.
  - exists a. cbn. rewrite Z.add_0_r. auto.
  - subst id.
    destruct (incLoginAttempts_no_lock d w a Hl Hst) as [a1 [Hst1 [Hc1 Hk1]]].
    destruct (IH _ _ Hst1) as [a' [Hst' [Hc' Hk']]].
    exists a'. rewrite count_all_run.
    split; [exact Hst'|]. split.
    + rewrite Hc', Hc1. cbn [List.length]. lia.
    + intros Hlow. inversion Hlow as [|x xs Hd Hds]; subst.
      rewrite (Hk' Hds). apply Hk1. exact Hd.
Qed.

(** ** Further properties *)

(** *** The header and the token *)

Lemma append_empty_r (s : string) : (s ++ EmptyString)%string = s.
Proof. induction s as [|c s IH]; cbn; [reflexivity | rewrite IH; reflexivity]. Qed.

Lemma append_assoc3 (s t u : string) :
  ((s ++ t) ++ u)%string = (s ++ (t ++ u))%string.
Proof. induction s as [|c s IH]; cbn; [reflexivity | rewrite IH; reflexivity]. Qed.

Lemma split_space_no_space (t cur : string) :
  no_space t -> split_space cur t = [(cur ++ t)%string].
Proof.
  revert cur. induction t as [|c t IH]; intros cur Hns; cbn [split_space].
  - rewrite append_empty_r. reflexivity.
  - destruct (Ascii.eqb_spec c " "%char) as [->|Hne].
    + exfalso. apply (Hns " "%char); [left; reflexivity | reflexivity].
    + rewrite IH.
      * rewrite append_assoc3. reflexivity.
      * intros c' Hin. apply Hns. right. exact Hin.
Qed.

Lemma bearer_header_token (t : string) :
  no_space t ->
  has_prefix "Bearer" ("Bearer " ++ t) = true /\
  nth_error (split_space EmptyString ("Bearer " ++ t)) 1 = Some t.
Proof.
  intros Hns. split; [reflexivity|].
  cbn. rewrite split_space_no_space by exact Hns. reflexivity.
Qed.

(** What [protect] does with a well-formed header. *)
Lemma protect_bearer (w : World) (t : string) :
  no_space t -> t <> EmptyString ->
  protect E (Some ("Bearer " ++ t)%string) w =
  match jwt_verify E t (JWT_SECRET E) with
  | None => (inl (Responded 401 (Failure "Token is not valid")), w)
  | Some decoded =>
      match find (by_id (jwt_id decoded)) (db w) with
      | None => (inl (Responded 401 (Failure "Token is not valid")), w)
      | Some raw => (inr (hydrate false raw), w)
      end
  end.
Proof.
  intros Hns Hne. unfold protect.
  destruct (bearer_header_token t Hns) as [-> ->].
  destruct t as [|c t]; [congruence|].
  destruct (jwt_verify E (String c t) (JWT_SECRET E)) as [decoded|]; monad;
    [|destruct w; reflexivity].
  destruct (find (by_id (jwt_id decoded)) (db w)); cbn [option_map]; monad;
    destruct w; reflexivity.
Qed.

(** X1.  A token that [jwt.sign] made for the identifier of a stored
    account, sent as [Bearer <token>], passes [protect] (provided that
    [jwt.verify] gives back the payload that was signed): [req.admin] is
    the stored account without its password, and the world is unchanged.
    [protect] looks at nothing else: neither at the role in the payload,
    nor at [isActive], [lockUntil] or [passwordChangedAt] of the
    account. *)
Theorem issued_token_authenticates
        (w : World) (a : Admin) (payload_role : Role) (expiresIn : string) :
  let payload := {| jwt_id := _id a; jwt_role := payload_role |} in
  let token := jwt_sign E payload (JWT_SECRET E) expiresIn in
  jwt_verify E token (JWT_SECRET E) = Some payload ->
  no_space token -> token <> EmptyString ->
  findById (_id a) (db w) = Some a ->
  protect E (Some ("Bearer " ++ token)%string) w = (inr (hydrate false a), w) /\
  password (hydrate false a) = None.
Proof.
  intros payload token Hrt Hns Hne Hst.
  rewrite protect_bearer by assumption.
  rewrite Hrt. cbn [payload jwt_id].
  unfold findById in Hst. rewrite Hst.
  split; [reflexivity | apply hydrate_no_password].
Qed.

(** X2.  [optionalAuth] reads the header as [protect] does and, like
    it, changes nothing: it sets [req.admin] to a document exactly when
    [protect] would let the request through with that document, and
    leaves it unset exactly when [protect] would answer 401. *)
Theorem optionalAuth_agrees_with_protect
        (w : World) (authorization : option string) :
  run (optionalAuth E authorization) w = w /\
  run (protect E authorization) w = w /\
  (forall d, result (optionalAuth E authorization) w = Some d <->
             result (protect E authorization) w = inr d) /\
  (result (optionalAuth E authorization) w = None <->
   exists error,
     result (protect E authorization) w = inl (Responded 401 (Failure error))).
Proof.
  unfold optionalAuth, protect.
  destruct (match authorization with
            | Some h => if has_prefix "Bearer" h
                        then nth_error (split_space EmptyString h) 1
                        else None
            | None => None
            end) as [[|c t]|]; monad.
  1, 3: (split; [destruct w; reflexivity|]; split; [destruct w; reflexivity|];
         split; [intros d; split; discriminate|];
         split; [intros _; eauto | reflexivity]).
  destruct (jwt_verify E (String c t) (JWT_SECRET E)) as [decoded|]; monad.
  - destruct (find (by_id (jwt_id decoded)) (db w)) as [raw|];
      cbn [option_map]; monad.
    + split; [destruct w; reflexivity|]. split; [destruct w; reflexivity|].
      split.
      * intros d. split; intros H; [apply Some_eq in H | ]; congruence.
      * split; [discriminate | intros [e H]; discriminate].
    + split; [destruct w; reflexivity|]. split; [destruct w; reflexivity|].
      split; [intros d; split; discriminate|].
      split; [intros _; eauto | reflexivity].
  - split; [destruct w; reflexivity|]. split; [destruct w; reflexivity|].
    split; [intros d; split; discriminate|].
    split; [intros _; eauto | reflexivity].
Qed.

(** *** More on the login route *)

(** The world once the handler has checked an account found unlocked. *)
Lemma lock_check_passes (w : World) (a : Admin) :
  (forall l, lockUntil a = Some l -> l <= clock E (tick w)) ->
  exists n : nat, (n <= 1)%nat /\
    isLocked E (hydrate true a) w
    = (false, {| db := db w; tick := (n + tick w)%nat;
                 rnd := rnd w; outbox := outbox w |}).
Proof.
  intros Hnl. unfold isLocked. rewrite hydrate_lockUntil.
  destruct (lockUntil a) as [l|].
  - exists 1%nat. split; [lia|]. monad.
    replace (clock E (tick w) <? l) with false
      by (symmetry; apply Z.ltb_ge; apply Hnl; reflexivity).
    reflexivity.
  - exists 0%nat. split; [lia|]. destruct w; reflexivity.
Qed.

(** A login on an account that is not active: the run. *)
Lemma login_deactivated
      (w : World) (req_email req_password : string) (a : Admin) :
  valid_login_request E req_email req_password ->
  find (email_is (normalizeEmail E req_email)) (db w) = Some a ->
  (forall l, lockUntil a = Some l -> l <= clock E (tick w)) ->
  isActive a = false ->
  exists n : nat,
    login E req_email req_password w
    = (deactivated_response,
       {| db := db w; tick := (n + tick w)%nat; rnd := rnd w;
          outbox := outbox w |}).
Proof.
  intros Hv Hfind Hnl Hact. unfold login.
  rewrite (valid_login_request_passes _ _ Hv).
  monad. rewrite Hfind. cbn [option_map]. unfold login_found. monad.
  destruct (lock_check_passes w a Hnl) as [n [_ ->]].
  rewrite hydrate_isActive, Hact. monad. exists n. reflexivity.
Qed.

(** X3.  A login on an account with [isActive] false that is not
    locked is answered 401 "Account is deactivated", whatever the
    password; the password is not compared, no failure is counted, and
    the store and the outbox are unchanged. *)
Theorem inactive_account_cannot_log_in
        (w : World) (req_email req_password : string) (a : Admin) :
  valid_login_request E req_email req_password ->
  find (email_is (normalizeEmail E req_email)) (db w) = Some a ->
  (forall l, lockUntil a = Some l -> l <= clock E (tick w)) ->
  isActive a = false ->
  result (login E req_email req_password) w = deactivated_response /\
  db (run (login E req_email req_password) w) = db w /\
  outbox (run (login E req_email req_password) w) = outbox w.
Proof.
  intros Hv Hfind Hnl Hact.
  destruct (login_deactivated w req_email req_password a Hv Hfind Hnl Hact)
    as [n Hrun].
  unfold result, run. rewrite Hrun. cbn [fst snd db outbox].
  split; [reflexivity|]. split; reflexivity.
Qed.

(** A login with the matching password: the response and the store. *)
Lemma login_succeeds
      (w : World) (req_email req_password : string) (a : Admin) (h : string) :
  valid_login_request E req_email req_password ->
  find (email_is (normalizeEmail E req_email)) (db w) = Some a ->
  isActive a = true ->
  (forall l, lockUntil a = Some l -> l <= clock E (tick w)) ->
  password a = Some h ->
  bcrypt_compare E req_password h = true ->
  exists (profile : Profile) (f : Admin -> Admin) (w' : World),
    login E req_email req_password w
    = (Responded 200 (LoginSuccess (generateAuthToken E (hydrate true a)) profile),
       w') /\
    db w' = update_first (_id a) f (db w) /\
    outbox w' = outbox w /\
    (forall x, _id (f x) = _id x).
Proof.
  intros Hv Hfind Hact Hnl Hpw Hcmp. unfold login.
  rewrite (valid_login_request_passes _ _ Hv).
  monad. rewrite Hfind. cbn [option_map]. unfold login_found. monad.
  destruct (lock_check_passes w a Hnl) as [n [_ ->]].
  unfold comparePassword.
  rewrite hydrate_isActive, hydrate_password, Hact, Hpw.
  cbn [option_map]. rewrite Hcmp. monad.
  unfold resetLoginAttempts, updateLastLogin. monad.
  set (d0 := assign P_lastLogin _ (hydrate true a)).
  assert (Hm0 : isModified d0 P_password = false).
  { unfold d0. rewrite assign_isModified_other by discriminate. reflexivity. }
  assert (Hn0 : isNew d0 = false).
  { unfold d0. rewrite assign_isNew. reflexivity. }
  assert (Hid0 : _id d0 = _id a)
    by (unfold d0; rewrite assign_id; apply hydrate_id).
  rewrite (save_password_unmodified d0 _ Hm0 Hn0). monad.
  rewrite Hid0, hydrate_id.
  rewrite update_first_compose by apply applyUpdate_id.
  set (d1 := stamped _ d0).
  assert (Hrole : role d1 = role (hydrate true a)).
  { apply role_get_eq. unfold d1. rewrite stamped_get_other by discriminate.
    unfold d0. apply assign_get_other. discriminate. }
  assert (Hid1 : _id d1 = _id (hydrate true a)).
  { unfold d1. rewrite stamped_id. unfold d0. apply assign_id. }
  eexists. eexists. eexists. split.
  - unfold generateAuthToken, after_save. cbn [fields].
    rewrite Hrole, Hid1. reflexivity.
  - cbn [db outbox]. split; [reflexivity|]. split; [reflexivity|].
    intros x. cbv beta. rewrite !applyUpdate_id. reflexivity.
Qed.

Lemma pair_eq_inv {A B : Type} (a c : A) (b d : B) :
  (a, b) = (c, d) -> a = c /\ b = d.
Proof. intros H. split; congruence. Qed.

(** Once the account has been looked up, the handler writes only after
    it has compared the password. *)
Lemma login_found_writes_only_after_comparing
      (w w' : World) (a : Admin) (req_password : string) (out : Outcome) :
  login_found E (Some (hydrate true a)) req_password w = (out, w') ->
  (out = Responded 400 ValidationFailed \/ out = locked_response \/
   out = deactivated_response) ->
  db w' = db w /\ outbox w' = outbox w.
Proof.
  unfold login_found, isLocked. rewrite hydrate_lockUntil.
  assert (Hcheck : exists (b : bool) (n : nat),
            match lockUntil a with
            | Some l => now <- Date_now E;; ret (now <? l)
            | None => ret false
            end w = (b, {| db := db w; tick := (n + tick w)%nat;
                           rnd := rnd w; outbox := outbox w |})).
  { destruct (lockUntil a) as [l|]; monad.
    - exists (clock E (tick w) <? l), 1%nat. reflexivity.
    - exists false, 0%nat. destruct w; reflexivity. }
  destruct Hcheck as [b [n Hcheck]].
  unfold bind at 1. rewrite Hcheck.
  destruct b.
  { monad. intros H _. apply pair_eq_inv in H. destruct H as [_ <-]. auto. }
  destruct (negb (isActive (hydrate true a))).
  { monad. intros H _. apply pair_eq_inv in H. destruct H as [_ <-]. auto. }
  unfold comparePassword.
  destruct (password (hydrate true a)) as [h|] eqn:Hp; cbn [option_map].
  2: { monad. intros H _. apply pair_eq_inv in H. destruct H as [_ <-]. auto. }
  destruct (bcrypt_compare E req_password h).
  - (* the password matches: the answer is a success *)
    unfold resetLoginAttempts, updateLastLogin. monad.
    set (d0 := assign P_lastLogin _ (hydrate true a)).
    assert (Hm0 : isModified d0 P_password = false).
    { unfold d0. rewrite assign_isModified_other by discriminate. reflexivity. }
    assert (Hn0 : isNew d0 = false).
    { unfold d0. rewrite assign_isNew. reflexivity. }
    rewrite (save_password_unmodified d0 _ Hm0 Hn0). monad.
    intros H. apply pair_eq_inv in H. destruct H as [<- _].
    intros [H|[H|H]]; discriminate.
  - monad. destruct (incLoginAttempts E (hydrate true a) _).
    intros H. apply pair_eq_inv in H. destruct H as [<- _].
    intros [H|[H|H]]; discriminate.
Qed.

(** X4.  Whatever the request, a login that is answered with the
    validation error, with the 423 of a locked account or with 401
    "Account is deactivated" has left the store and the outbox as they
    were: the handler answers these three before it compares the
    password, and it writes only after that. *)
Theorem login_writes_only_after_comparing
        (w : World) (req_email req_password : string) :
  let out := result (login E req_email req_password) w in
  (out = Responded 400 ValidationFailed \/ out = locked_response \/
   out = deactivated_response) ->
  db (run (login E req_email req_password) w) = db w /\
  outbox (run (login E req_email req_password) w) = outbox w.
Proof.
  unfold result, run.
  destruct (login E req_email req_password w) as [out w'] eqn:Hrun.
  cbn [fst snd]. revert Hrun. unfold login.
  destruct (negb (isEmail E req_email) || (String.length req_password <? 6)%nat).
  { monad. intros H _. apply pair_eq_inv in H. destruct H as [_ <-]. auto. }
  unfold bind at 1. unfold findOne, get_db, bind, ret.
  destruct (find (email_is (normalizeEmail E req_email)) (db w)) as [a|];
    cbn [option_map].
  - apply login_found_writes_only_after_comparing.
  - cbn. intros H _. apply pair_eq_inv in H. destruct H as [_ <-]. auto.
Qed.

(** An update leaves alone the paths none of its operators names. *)
Lemma applyUpdate_frame (u : list UpdateOp) (paths : list Path)
      (x : Admin) (q : Path) :
  Forall (fun op => existsb (Path_eqb (op_path op)) paths = true) u ->
  existsb (Path_eqb q) paths = false ->
  getPath q (applyUpdate u x) = getPath q x.
Proof.
  intros Hu Hq. unfold applyUpdate. revert x.
  induction Hu as [|op u Hop Hu IH]; intros x; cbn [fold_left]; [reflexivity|].
  rewrite IH.
  assert (Hne : op_path op <> q).
  { intros Heq. rewrite Heq in Hop. congruence. }
  destruct op as [p v|p|p n]; cbn [applyOp op_path] in *;
    try (apply getPath_setPath_other; exact Hne).
  destruct (as_num (getPath p x)); apply getPath_setPath_other; exact Hne.
Qed.

(** What [incLoginAttempts] sends: one update of the account, made of
    operators on the count, the lock and [updatedAt]. *)
Lemma incLoginAttempts_update (d : Document) (w : World) :
  exists (u : list UpdateOp) (w' : World),
    incLoginAttempts E d w = (tt, w') /\
    db w' = update_first (_id d) (applyUpdate u) (db w) /\
    outbox w' = outbox w /\
    Forall (fun op => existsb (Path_eqb (op_path op)) counter_paths = true) u.
Proof.
  unfold incLoginAttempts, isLocked.
  destruct (lockUntil d) as [l|]; monad.
  - destruct (l <? clock E (tick w)); monad.
    + eexists. eexists. split; [reflexivity|]. cbn [db outbox].
      split; [reflexivity|]. split; [reflexivity|]. repeat constructor.
    + destruct (match loginAttempts d with
                | Some n => lock_threshold <=? n + 1
                | None => false
                end); monad.
      * destruct (clock E (S (tick w)) <? l); monad;
          (eexists; eexists; split; [reflexivity|]; cbn [db outbox];
           split; [reflexivity|]; split; [reflexivity|]; repeat constructor).
      * eexists. eexists. split; [reflexivity|]. cbn [db outbox].
        split; [reflexivity|]. split; [reflexivity|]. repeat constructor.
  - destruct (match loginAttempts d with
              | Some n => lock_threshold <=? n + 1
              | None => false
              end); monad;
      (eexists; eexists; split; [reflexivity|]; cbn [db outbox];
       split; [reflexivity|]; split; [reflexivity|]; repeat constructor).
Qed.

(** X5.  A login with a wrong password on an active, unlocked
    account changes nothing but [loginAttempts], [lockUntil] and
    [updatedAt] of that account: every other path of it holds what it
    held, the other accounts are untouched and no mail is sent. *)
Theorem failed_login_touches_only_the_counter
        (w : World) (req_email req_password : string) (a : Admin) (h : string) :
  valid_login_request E req_email req_password ->
  unique_ids (db w) ->
  find (email_is (normalizeEmail E req_email)) (db w) = Some a ->
  isActive a = true ->
  (forall l, lockUntil a = Some l -> l <= clock E (tick w)) ->
  password a = Some h ->
  bcrypt_compare E req_password h = false ->
  let w' := run (login E req_email req_password) w in
  outbox w' = outbox w /\
  (forall id', id' <> _id a -> findById id' (db w') = findById id' (db w)) /\
  exists a',
    findById (_id a) (db w') = Some a' /\
    _id a' = _id a /\ createdAt a' = createdAt a /\
    (forall q, existsb (Path_eqb q) counter_paths = false ->
               getPath q a' = getPath q a).
Proof.
  intros Hv Hu Hfind Hact Hnl Hpw Hcmp w'.
  pose proof (found_is_stored _ _ _ Hu Hfind) as Hst.
  assert (Hlogin : exists u w1,
            login E req_email req_password w = (invalid_credentials, w1) /\
            db w1 = update_first (_id a) (applyUpdate u) (db w) /\
            outbox w1 = outbox w /\
            Forall (fun op => existsb (Path_eqb (op_path op)) counter_paths = true) u).
  { unfold login.
    rewrite (valid_login_request_passes _ _ Hv).
    unfold bind at 1. unfold findOne, get_db, bind at 1, ret at 1.
    rewrite Hfind. cbn [option_map]. unfold login_found.
    unfold bind at 1.
    destruct (lock_check_passes w a Hnl) as [n [_ ->]].
    unfold comparePassword.
    rewrite hydrate_isActive, hydrate_password, Hact, Hpw.
    cbn [option_map negb]. rewrite Hcmp.
    destruct (incLoginAttempts_update (hydrate true a)
                {| db := db w; tick := (n + tick w)%nat; rnd := rnd w;
                   outbox := outbox w |})
      as [u [w1 [Hrun [Hdb [Hout Hops]]]]].
    unfold bind, ret. rewrite Hrun. cbn [fst snd db outbox] in *.
    rewrite hydrate_id in Hdb. exists u, w1. auto. }
  destruct Hlogin as [u [w1 [Hrun [Hdb [Hout Hops]]]]].
  unfold w', run. rewrite Hrun. cbn [snd]. rewrite Hdb.
  split; [exact Hout|]. split.
  - intros id' Hne. apply findById_update_other; [apply applyUpdate_id | exact Hne].
  - exists (applyUpdate u a).
    rewrite findById_update_first by apply applyUpdate_id. rewrite Hst.
    split; [reflexivity|]. split; [apply applyUpdate_id|].
    split; [apply applyUpdate_createdAt|].
    intros q Hq. eapply applyUpdate_frame; eauto.
Qed.

(** *** Who may manage accounts *)

(** X6.  The role that [authorize] checks is the one stored for the
    account, not the one in the token: a verified token, whatever role
    its payload carries, for an account stored with role [admin] is
    answered 403 "User role admin is not authorized to access this route"
    by [DELETE /api/admin/:id] and by [GET /api/admin], and the world is
    unchanged. *)
Theorem stored_role_decides_not_the_token
        (w : World) (t id : string) (decoded : JwtPayload) (raw : Admin) :
  no_space t -> t <> EmptyString ->
  jwt_verify E t (JWT_SECRET E) = Some decoded ->
  find (by_id (jwt_id decoded)) (db w) = Some raw ->
  role raw = role_admin ->
  deleteAdmin E (Some ("Bearer " ++ t)%string) id w = (forbidden_for_admin, w) /\
  listAdmins E (Some ("Bearer " ++ t)%string) w = (inl forbidden_for_admin, w).
Proof.
  intros Hns Hne Hv Hfind Hrole.
  unfold deleteAdmin, listAdmins, bind.
  rewrite protect_bearer by assumption. rewrite Hv, Hfind.
  unfold authorize. rewrite hydrate_role, Hrole. cbn. auto.
Qed.

Lemma deleteAdmin_deleted (w : World) (authorization : option string) (id : string) :
  result (deleteAdmin E authorization id) w = deleted_response ->
  db (run (deleteAdmin E authorization id) w) = delete_first id (db w).
Proof.
  unfold result, run, deleteAdmin, bind.
  pose proof (protect_reads_only authorization w) as Hw. unfold run in Hw.
  destruct (protect E authorization w) as [[r|caller] w0] eqn:Hp;
    cbn [snd] in Hw; subst w0.
  - cbn [ret fst snd]. intros Hr. exfalso. subst r. revert Hp. unfold protect.
    destruct (match authorization with
              | Some h => if has_prefix "Bearer" h
                          then nth_error (split_space EmptyString h) 1
                          else None
              | None => None
              end) as [[|c s]|]; monad; try discriminate.
    destruct (jwt_verify E (String c s) (JWT_SECRET E)); monad; [|discriminate].
    destruct (find (by_id (jwt_id j)) (db w)); cbn [option_map]; monad;
      discriminate.
  - destruct (authorize [role_super_admin] (Some caller)) as [r|] eqn:Ha.
    + unfold authorize in Ha.
      destruct (negb (existsb (Role_eqb (role caller)) [role_super_admin]));
        [|discriminate].
      apply Some_eq in Ha. subst r. cbn. discriminate.
    + unfold deleteAdmin_handler. monad. fold (findById id (db w)).
      destruct (findById id (db w)) as [target|] eqn:Hfind;
        cbn [option_map]; monad; [|discriminate].
      destruct (String.eqb (_id (hydrate false target)) (_id caller)); monad;
        [discriminate|].
      intros _. rewrite hydrate_id. unfold findById in Hfind.
      rewrite (by_id_found _ _ _ Hfind). reflexivity.
Qed.

(** X7.  Once [DELETE /api/admin/:id] has answered "Admin deleted
    successfully", a token for the deleted identifier is refused by
    [protect] with 401 "Token is not valid", and [optionalAuth] leaves
    [req.admin] unset for it. *)
Theorem deleted_account_is_locked_out
        (w : World) (authorization : option string) (id t : string)
        (decoded : JwtPayload) :
  unique_ids (db w) ->
  result (deleteAdmin E authorization id) w = deleted_response ->
  no_space t -> t <> EmptyString ->
  jwt_verify E t (JWT_SECRET E) = Some decoded ->
  jwt_id decoded = id ->
  let w' := run (deleteAdmin E authorization id) w in
  protect E (Some ("Bearer " ++ t)%string) w'
    = (inl (Responded 401 (Failure "Token is not valid")), w') /\
  result (optionalAuth E (Some ("Bearer " ++ t)%string)) w' = None.
Proof.
  intros Hu Hdel Hns Hne Hv Hid w'.
  assert (Hgone : find (by_id (jwt_id decoded)) (db w') = None).
  { unfold w'. rewrite deleteAdmin_deleted by exact Hdel. rewrite Hid.
    apply delete_first_gone. exact Hu. }
  split.
  - rewrite protect_bearer by assumption. rewrite Hv, Hgone. reflexivity.
  - unfold result, optionalAuth.
    destruct (bearer_header_token t Hns) as [-> ->].
    destruct t as [|c t]; [congruence|].
    rewrite Hv. monad. rewrite Hgone. reflexivity.
Qed.

(** *** Changing the password *)

Lemma change_assigns_password (newPassword h : string) (a : Admin) :
  password a = Some h -> newPassword <> h ->
  let d0 := assign P_password (Some (V_str newPassword)) (hydrate true a) in
  isModified d0 P_password = true /\ password d0 = Some newPassword.
Proof.
  intros Hp Hne d0. split.
  - unfold d0. rewrite assign_isModified_same. cbn [getPath].
    rewrite hydrate_password, Hp. cbn [option_map].
    destruct (same_value (Some (V_str h)) (Some (V_str newPassword))) eqn:Hs.
    + apply same_value_eq in Hs. congruence.
    + apply orb_true_r.
  - apply password_get. cbn [option_map].
    apply assign_get_same, well_kinded_str_password.
Qed.

Lemma changePassword_handler_changed
      (w : World) (caller : Document) (currentPassword newPassword h : string)
      (a : Admin) :
  (6 <= String.length currentPassword)%nat ->
  (6 <= String.length newPassword)%nat ->
  find (by_id (_id caller)) (db w) = Some a ->
  password a = Some h ->
  bcrypt_compare E currentPassword h = true ->
  newPassword <> h ->
  changePassword_handler E caller currentPassword newPassword w =
  (Responded 200 (Success "Password changed successfully"),
   {| db := update_first (_id a)
              (applyUpdate (delta (changed_doc E w newPassword a))) (db w);
      tick := S (S (S (tick w)));
      rnd := S (rnd w);
      outbox := outbox w |}).
Proof.
  intros Hc Hn Hfind Hp Hcmp Hne. unfold changePassword_handler.
  replace (String.length currentPassword <? 6)%nat with false
    by (symmetry; apply Nat.ltb_ge; exact Hc).
  replace (String.length newPassword <? 6)%nat with false
    by (symmetry; apply Nat.ltb_ge; exact Hn).
  cbn [orb]. monad. rewrite Hfind. cbn [option_map]. monad.
  unfold comparePassword. rewrite hydrate_password, Hp. cbn [option_map].
  rewrite Hcmp.
  destruct (change_assigns_password newPassword h a Hp Hne) as [Hm0 Hp0].
  set (d0 := assign P_password (Some (V_str newPassword)) (hydrate true a)) in *.
  assert (Hn0 : isNew d0 = false).
  { unfold d0. rewrite assign_isNew. reflexivity. }
  assert (Hid0 : _id d0 = _id a).
  { unfold d0. rewrite assign_id. apply hydrate_id. }
  cbv beta iota. unfold bind.
  rewrite (save_password_modified d0 _ newPassword Hm0 Hn0 Hp0). monad.
  rewrite Hid0. subst d0. unfold changed_doc. reflexivity.
Qed.

(** The route, for a caller that [protect] lets through. *)
Lemma changePassword_changed
      (w : World) (authorization : option string)
      (currentPassword newPassword h : string) (caller : Document) (a : Admin) :
  result (protect E authorization) w = inr caller ->
  (6 <= String.length currentPassword)%nat ->
  (6 <= String.length newPassword)%nat ->
  find (by_id (_id caller)) (db w) = Some a ->
  password a = Some h ->
  bcrypt_compare E currentPassword h = true ->
  newPassword <> h ->
  changePassword E authorization currentPassword newPassword w =
  (Responded 200 (Success "Password changed successfully"),
   {| db := update_first (_id a)
              (applyUpdate (delta (changed_doc E w newPassword a))) (db w);
      tick := S (S (S (tick w)));
      rnd := S (rnd w);
      outbox := outbox w |}).
Proof.
  intros Hprot Hc Hn Hfind Hp Hcmp Hne.
  pose proof (protect_reads_only authorization w) as Hw.
  unfold result in Hprot. unfold run in Hw. unfold changePassword, bind.
  destruct (protect E authorization w) as [p w0]. cbn [fst snd] in *.
  subst p w0. apply changePassword_handler_changed with (h := h); assumption.
Qed.

(** What the store holds once the change has been saved. *)
Lemma changed_stored (w : World) (newPassword h : string) (a : Admin) :
  password a = Some h -> newPassword <> h ->
  let a2 := applyUpdate (delta (changed_doc E w newPassword a)) a in
  password a2
    = Some (bcrypt_hash E newPassword (bcrypt_genSalt E (rnd w))) /\
  passwordChangedAt a2 = Some (clock E (S (S (tick w))) - 1000) /\
  (forall q, q <> P_password -> q <> P_passwordChangedAt ->
             q <> P_updatedAt -> getPath q a2 = getPath q a).
Proof.
  intros Hp Hne a2.
  destruct (change_assigns_password newPassword h a Hp Hne) as [Hm0 Hp0].
  split; [|split].
  - apply password_get. cbn [option_map].
    unfold a2. rewrite applyUpdate_delta_get. unfold changed_doc.
    rewrite !(assign_isModified_other P_passwordChangedAt) by discriminate.
    rewrite !(assign_isModified_other P_updatedAt) by discriminate.
    rewrite assign_isModified_same.
    rewrite !(assign_isModified_other P_updatedAt) by discriminate.
    rewrite Hm0. cbn [orb].
    rewrite !(assign_get_other P_passwordChangedAt) by discriminate.
    rewrite !(assign_get_other P_updatedAt) by discriminate.
    apply assign_get_same, well_kinded_str_password.
  - apply passwordChangedAt_get. cbn [option_map].
    unfold a2. rewrite stored_synced.
    + unfold changed_doc. apply assign_get_same, well_kinded_num_changedAt.
    + unfold changed_doc. do 5 apply synced_assign.
      apply synced_hydrate; discriminate.
  - intros q H1 H2 H3. unfold a2.
    rewrite applyUpdate_delta_get. unfold changed_doc.
    rewrite !assign_isModified_other by congruence. reflexivity.
Qed.

(** X8.  [PUT /api/admin/change-password] with a current password
    that the stored hash does not accept is answered 400 "Current
    password is incorrect" and leaves the world exactly as it was: unlike
    a failed login, the failure is not counted and cannot lock the
    account. *)
Theorem wrong_current_password_changes_nothing
        (w : World) (authorization : option string)
        (currentPassword newPassword h : string) (caller : Document) (a : Admin) :
  result (protect E authorization) w = inr caller ->
  (6 <= String.length currentPassword)%nat ->
  (6 <= String.length newPassword)%nat ->
  find (by_id (_id caller)) (db w) = Some a ->
  password a = Some h ->
  bcrypt_compare E currentPassword h = false ->
  changePassword E authorization currentPassword newPassword w
  = (Responded 400 (Failure "Current password is incorrect"), w).
Proof.
  intros Hprot Hc Hn Hfind Hp Hcmp.
  pose proof (protect_reads_only authorization w) as Hw.
  unfold result in Hprot. unfold run in Hw.
  unfold changePassword, bind.
  destruct (protect E authorization w) as [p w0]. cbn [fst snd] in *.
  subst p w0. unfold changePassword_handler.
  replace (String.length currentPassword <? 6)%nat with false
    by (symmetry; apply Nat.ltb_ge; exact Hc).
  replace (String.length newPassword <? 6)%nat with false
    by (symmetry; apply Nat.ltb_ge; exact Hn).
  cbn [orb]. monad. rewrite Hfind. cbn [option_map]. monad.
  unfold comparePassword. rewrite hydrate_password, Hp. cbn [option_map].
  rewrite Hcmp. destruct w; reflexivity.
Qed.

(** X9.  A successful [PUT /api/admin/change-password] stores the
    hash of the new password and sets [passwordChangedAt] to a reading of
    the clock minus one second; every other path of the account but
    [updatedAt] reads as before (so a pending reset token stays valid and
    the count of failures and the lock are kept), the other accounts are
    untouched and no mail is sent.  The new password is assumed to differ
    from the stored hash, as otherwise nothing is assigned. *)
Theorem password_change_touches_only_the_password
        (w : World) (authorization : option string)
        (currentPassword newPassword h : string) (caller : Document) (a : Admin) :
  result (protect E authorization) w = inr caller ->
  (6 <= String.length currentPassword)%nat ->
  (6 <= String.length newPassword)%nat ->
  unique_ids (db w) ->
  find (by_id (_id caller)) (db w) = Some a ->
  password a = Some h ->
  bcrypt_compare E currentPassword h = true ->
  newPassword <> h ->
  let w' := run (changePassword E authorization currentPassword newPassword) w in
  result (changePassword E authorization currentPassword newPassword) w
    = Responded 200 (Success "Password changed successfully") /\
  outbox w' = outbox w /\
  (forall id', id' <> _id a -> findById id' (db w') = findById id' (db w)) /\
  exists a',
    findById (_id a) (db w') = Some a' /\
    password a' = Some (bcrypt_hash E newPassword (bcrypt_genSalt E (rnd w))) /\
    passwordChangedAt a' = Some (clock E (S (S (tick w))) - 1000) /\
    _id a' = _id a /\ createdAt a' = createdAt a /\
    (forall q, q <> P_password -> q <> P_passwordChangedAt ->
               q <> P_updatedAt -> readPath q a' = readPath q a).
Proof.
  intros Hprot Hc Hn Hu Hfind Hp Hcmp Hne w'.
  pose proof (found_is_stored _ _ _ Hu Hfind) as Hst.
  pose proof (changePassword_changed w authorization currentPassword newPassword
                h caller a Hprot Hc Hn Hfind Hp Hcmp Hne) as Hrun.
  destruct (changed_stored w newPassword h a Hp Hne) as [Hpw [Hch Hframe]].
  cbv zeta in Hpw, Hch, Hframe.
  set (g := applyUpdate (delta (changed_doc E w newPassword a))) in *.
  assert (Hdb : db w' = update_first (_id a) g (db w))
    by (unfold w', run; rewrite Hrun; reflexivity).
  split; [unfold result; rewrite Hrun; reflexivity|].
  split; [unfold w', run; rewrite Hrun; reflexivity|].
  split.
  { intros id' Hne'. rewrite Hdb. apply findById_update_other; [|exact Hne'].
    intros x. apply applyUpdate_id. }
  exists (g a). split.
  { rewrite Hdb, findById_update_first by (intros x; apply applyUpdate_id).
    rewrite Hst. reflexivity. }
  split; [exact Hpw|]. split; [exact Hch|].
  split; [apply applyUpdate_id|].
  split; [apply applyUpdate_createdAt|].
  intros q H1 H2 H3. apply readPath_same, Hframe; assumption.
Qed.

(** *** Sessions and passwords *)

(** The answer of [protect] depends on the store only through the lookup
    of the identifier in the token. *)
Lemma protect_lookup (authorization : option string) :
  exists k : Outcome + string,
    forall w, protect E authorization w =
      match k with
      | inl r => (inl r, w)
      | inr id =>
          match find (by_id id) (db w) with
          | None => (inl (Responded 401 (Failure "Token is not valid")), w)
          | Some raw => (inr (hydrate false raw), w)
          end
      end.
Proof.
  unfold protect.
  destruct (match authorization with
            | Some h => if has_prefix "Bearer" h
                        then nth_error (split_space EmptyString h) 1
                        else None
            | None => None
            end) as [[|c t]|].
  - exists (inl (Responded 401 (Failure "Not authorized to access this route"))).
    intros w. reflexivity.
  - destruct (jwt_verify E (String c t) (JWT_SECRET E)) as [decoded|].
    + exists (inr (jwt_id decoded)). intros w. monad.
      destruct (find (by_id (jwt_id decoded)) (db w)); cbn [option_map]; monad;
        destruct w; reflexivity.
    + exists (inl (Responded 401 (Failure "Token is not valid"))).
      intros w. reflexivity.
  - exists (inl (Responded 401 (Failure "Not authorized to access this route"))).
    intros w. reflexivity.
Qed.

(** A header that authenticates still does once a stored account has
    been updated in place. *)
Lemma protect_survives_update
      (w w' : World) (authorization : option string) (c : Document)
      (id : string) (f : Admin -> Admin) :
  (forall x, _id (f x) = _id x) ->
  db w' = update_first id f (db w) ->
  result (protect E authorization) w = inr c ->
  exists c', result (protect E authorization) w' = inr c' /\ _id c' = _id c.
Proof.
  intros Hf Hdb. unfold result.
  destruct (protect_lookup authorization) as [[r|id'] Hk]; rewrite !Hk.
  - discriminate.
  - rewrite Hdb. fold (findById id' (db w)).
    fold (findById id' (update_first id f (db w))).
    destruct (String.eqb_spec id' id) as [->|Hne].
    + rewrite findById_update_first by exact Hf.
      destruct (findById id (db w)) as [raw|]; cbn [option_map fst];
        [|discriminate].
      intros H. exists (hydrate false (f raw)). split; [reflexivity|].
      injection H as <-. rewrite !hydrate_id. apply Hf.
    + rewrite findById_update_other by assumption.
      destruct (findById id' (db w)) as [raw|]; cbn [fst]; [|discriminate].
      intros H. exists c. auto.
Qed.

(** X10.  Neither a successful change of the password nor a
    successful reset ends a session: a header that [protect] accepted
    before is accepted after, for the same account.  [passwordChangedAt]
    is written by the hook but never read by [protect]. *)
Theorem password_change_ends_no_session :
  (forall (w : World) (authorization other : option string)
          (currentPassword newPassword h : string) (caller c : Document)
          (a : Admin),
      result (protect E authorization) w = inr caller ->
      (6 <= String.length currentPassword)%nat ->
      (6 <= String.length newPassword)%nat ->
      find (by_id (_id caller)) (db w) = Some a ->
      password a = Some h ->
      bcrypt_compare E currentPassword h = true ->
      newPassword <> h ->
      result (protect E other) w = inr c ->
      let w' := run (changePassword E authorization currentPassword newPassword) w in
      result (changePassword E authorization currentPassword newPassword) w
        = Responded 200 (Success "Password changed successfully") /\
      exists c', result (protect E other) w' = inr c' /\ _id c' = _id c)
  /\
  (forall (w : World) (token req_password : string) (other : option string)
          (c : Document) (a : Admin),
      (6 <= String.length req_password)%nat ->
      find (reset_query (sha256_hex E token) (clock E (tick w))) (db w) = Some a ->
      result (protect E other) w = inr c ->
      let w' := run (resetPassword E token req_password) w in
      result (resetPassword E token req_password) w = reset_done /\
      exists c', result (protect E other) w' = inr c' /\ _id c' = _id c).
Proof.
  split.
  - intros w authorization other currentPassword newPassword h caller c a
           Hprot Hc Hn Hfind Hp Hcmp Hne Hother w'.
    pose proof (changePassword_changed w authorization currentPassword newPassword
                  h caller a Hprot Hc Hn Hfind Hp Hcmp Hne) as Hrun.
    split; [unfold result; rewrite Hrun; reflexivity|].
    apply protect_survives_update
      with (w := w) (id := _id a)
           (f := applyUpdate (delta (changed_doc E w newPassword a))).
    + intros x. apply applyUpdate_id.
    + unfold w', run. rewrite Hrun. reflexivity.
    + exact Hother.
  - intros w token req_password other c a Hlen Hfind Hother w'.
    pose proof (resetPassword_found w token req_password a Hlen Hfind) as Hrun.
    split; [unfold result; rewrite Hrun; reflexivity|].
    apply protect_survives_update
      with (w := w) (id := _id a)
           (f := applyUpdate (delta (reset_doc E w req_password a))).
    + intros x. apply applyUpdate_id.
    + unfold w', run. rewrite Hrun. reflexivity.
    + exact Hother.
Qed.

Lemma isActive_get_eq (x y : Admin) :
  getPath P_isActive x = getPath P_isActive y -> isActive x = isActive y.
Proof. cbn [getPath]. congruence. Qed.

(** A login once the stored password of the account has been replaced
    by the hash of [p]. *)
Lemma login_after_update
      (w w' : World) (req_email p salt : string) (a : Admin)
      (g : Admin -> Admin) :
  bcrypt_compare E p (bcrypt_hash E p salt) = true ->
  isEmail E req_email = true ->
  unique_ids (db w) ->
  find (email_is (normalizeEmail E req_email)) (db w) = Some a ->
  db w' = update_first (_id a) g (db w) ->
  (forall x, _id (g x) = _id x) ->
  (forall x, getPath P_email (g x) = getPath P_email x) ->
  getPath P_isActive (g a) = getPath P_isActive a ->
  getPath P_lockUntil (g a) = getPath P_lockUntil a ->
  password (g a) = Some (bcrypt_hash E p salt) ->
  isActive a = true ->
  (forall l, lockUntil a = Some l -> l <= clock E (tick w')) ->
  ((6 <= String.length p)%nat ->
   exists profile,
     result (login E req_email p) w'
     = Responded 200
         (LoginSuccess (generateAuthToken E (hydrate true (g a))) profile)) /\
  (forall p', (6 <= String.length p')%nat ->
              bcrypt_compare E p' (bcrypt_hash E p salt) = false ->
              result (login E req_email p') w' = invalid_credentials).
Proof.
  intros Hown He Hu Hfind Hdb Hid Hemail Hact' Hlock' Hpw Hact Hnl.
  assert (Hfind' : find (email_is (normalizeEmail E req_email)) (db w')
                   = Some (g a)).
  { rewrite Hdb. apply find_update_first; auto.
    intros x. unfold email_is. rewrite (email_get_eq _ _ (Hemail x)).
    reflexivity. }
  assert (Hact2 : isActive (g a) = true)
    by (rewrite (isActive_get_eq _ _ Hact'); exact Hact).
  assert (Hnl2 : forall l, lockUntil (g a) = Some l -> l <= clock E (tick w')).
  { intros l Hl. apply Hnl. rewrite <- Hl. symmetry.
    apply lockUntil_get. exact Hlock'. }
  split.
  - intros Hlen.
    destruct (login_succeeds w' req_email p (g a) (bcrypt_hash E p salt))
      as [profile [f [w2 [Hrun _]]]]; auto.
    { split; assumption. }
    exists profile. unfold result. rewrite Hrun. reflexivity.
  - intros p' Hlen Hcmp.
    apply login_wrong_password_result
      with (a := g a) (h := bcrypt_hash E p salt); auto.
    split; assumption.
Qed.

Lemma changed_doc_frame (w : World) (newPassword : string) (a x : Admin) (q : Path) :
  q <> P_password -> q <> P_passwordChangedAt -> q <> P_updatedAt ->
  getPath q (applyUpdate (delta (changed_doc E w newPassword a)) x) = getPath q x.
Proof.
  intros H1 H2 H3. rewrite applyUpdate_delta_get. unfold changed_doc.
  rewrite !assign_isModified_other by congruence. reflexivity.
Qed.

Lemma reset_doc_frame (w : World) (req_password : string) (a x : Admin) (q : Path) :
  q <> P_password -> q <> P_passwordResetToken ->
  q <> P_passwordResetExpires -> q <> P_passwordChangedAt -> q <> P_updatedAt ->
  getPath q (applyUpdate (delta (reset_doc E w req_password a)) x) = getPath q x.
Proof.
  intros H1 H2 H3 H4 H5. rewrite applyUpdate_delta_get. unfold reset_doc.
  rewrite !assign_isModified_other by congruence. reflexivity.
Qed.

(** X11.  After a successful change of the password, an active,
    unlocked account logs in with the new password (given that
    [bcrypt.compare] accepts a password against its own hash), and a
    password that the new hash does not accept is answered 401 "Invalid
    credentials". *)
Theorem changed_password_is_the_one_that_logs_in
        (w : World) (authorization : option string)
        (currentPassword newPassword h req_email : string)
        (caller : Document) (a : Admin) :
  bcrypt_compare E newPassword
    (bcrypt_hash E newPassword (bcrypt_genSalt E (rnd w))) = true ->
  result (protect E authorization) w = inr caller ->
  (6 <= String.length currentPassword)%nat ->
  (6 <= String.length newPassword)%nat ->
  unique_ids (db w) ->
  find (by_id (_id caller)) (db w) = Some a ->
  password a = Some h ->
  bcrypt_compare E currentPassword h = true ->
  newPassword <> h ->
  isEmail E req_email = true ->
  find (email_is (normalizeEmail E req_email)) (db w) = Some a ->
  isActive a = true ->
  let w' := run (changePassword E authorization currentPassword newPassword) w in
  (forall l, lockUntil a = Some l -> l <= clock E (tick w')) ->
  (exists token profile,
     result (login E req_email newPassword) w'
     = Responded 200 (LoginSuccess token profile)) /\
  (forall p', (6 <= String.length p')%nat ->
              bcrypt_compare E p'
                (bcrypt_hash E newPassword (bcrypt_genSalt E (rnd w))) = false ->
              result (login E req_email p') w' = invalid_credentials).
Proof.
  intros Hown Hprot Hc Hn Hu Hfind Hp Hcmp Hne He Hmail Hact w' Hnl.
  pose proof (changePassword_changed w authorization currentPassword newPassword
                h caller a Hprot Hc Hn Hfind Hp Hcmp Hne) as Hrun.
  destruct (changed_stored w newPassword h a Hp Hne) as [Hpw _].
  cbv zeta in Hpw.
  destruct (login_after_update w w' req_email newPassword
              (bcrypt_genSalt E (rnd w)) a
              (applyUpdate (delta (changed_doc E w newPassword a))))
    as [Hin Hout]; auto.
  - unfold w', run. rewrite Hrun. reflexivity.
  - intros x. apply applyUpdate_id.
  - intros x. apply changed_doc_frame; discriminate.
  - apply changed_doc_frame; discriminate.
  - apply changed_doc_frame; discriminate.
  - split; [|exact Hout].
    destruct (Hin Hn) as [profile Hres]. eauto.
Qed.

(** X12.  After a successful [resetPassword], an active, unlocked
    account logs in with the password of the reset (given that
    [bcrypt.compare] accepts a password against its own hash), and a
    password that the new hash does not accept is answered 401 "Invalid
    credentials". *)
Theorem reset_password_is_the_one_that_logs_in
        (w : World) (token req_password req_email : string) (a : Admin) :
  bcrypt_compare E req_password
    (bcrypt_hash E req_password (bcrypt_genSalt E (rnd w))) = true ->
  (6 <= String.length req_password)%nat ->
  unique_ids (db w) ->
  find (reset_query (sha256_hex E token) (clock E (tick w))) (db w) = Some a ->
  isEmail E req_email = true ->
  find (email_is (normalizeEmail E req_email)) (db w) = Some a ->
  isActive a = true ->
  let w' := run (resetPassword E token req_password) w in
  (forall l, lockUntil a = Some l -> l <= clock E (tick w')) ->
  (exists jwt profile,
     result (login E req_email req_password) w'
     = Responded 200 (LoginSuccess jwt profile)) /\
  (forall p', (6 <= String.length p')%nat ->
              bcrypt_compare E p'
                (bcrypt_hash E req_password (bcrypt_genSalt E (rnd w))) = false ->
              result (login E req_email p') w' = invalid_credentials).
Proof.
  intros Hown Hlen Hu Hfind He Hmail Hact w' Hnl.
  pose proof (resetPassword_found w token req_password a Hlen Hfind) as Hrun.
  destruct (reset_stored w req_password a) as [Hpw _].
  cbv zeta in Hpw.
  destruct (login_after_update w w' req_email req_password
              (bcrypt_genSalt E (rnd w)) a
              (applyUpdate (delta (reset_doc E w req_password a))))
    as [Hin Hout]; auto.
  - unfold w', run. rewrite Hrun. reflexivity.
  - intros x. apply applyUpdate_id.
  - intros x. apply reset_doc_frame; discriminate.
  - apply reset_doc_frame; discriminate.
  - apply reset_doc_frame; discriminate.
  - split; [|exact Hout].
    destruct (Hin Hlen) as [profile Hres]. eauto.
Qed.

(** *** Two requests for a reset *)

Lemma In_update_first_other (id : string) (f : Admin -> Admin)
      (c : Collection) (b : Admin) :
  (forall x, _id (f x) = _id x) ->
  In b (update_first id f c) -> _id b <> id -> In b c.
Proof.
  intros Hf. induction c as [|x c IH]; simpl; [tauto|].
  unfold by_id at 1. destruct (String.eqb_spec (_id x) id) as [Heq|Hne].
  - intros [<-|Hin] Hb; [|right; exact Hin].
    exfalso. apply Hb. rewrite Hf. exact Heq.
  - intros [<-|Hin] Hb; [left; reflexivity|right; apply IH; assumption].
Qed.

(** X13.  A [forgotPassword] for an account cancels the token that
    was pending for it.  Where a [resetPassword] with the token [t]
    succeeds before the request (the digest of [t] is stored with the
    account, its expiry is in the future, and no other account holds that
    digest), after the request, which answers 500 "Email could not be
    sent" and mails nothing, the account has neither digest nor expiry,
    and the [resetPassword] with [t] is refused with "Invalid or expired
    reset token" and changes nothing. *)
Theorem reset_request_cancels_the_pending_token
        (w : World) (req_email t new_password : string) (a : Admin) :
  isEmail E req_email = true ->
  (6 <= String.length new_password)%nat ->
  unique_ids (db w) ->
  find (email_is (normalizeEmail E req_email)) (db w) = Some a ->
  find (reset_query (sha256_hex E t) (clock E (tick w))) (db w) = Some a ->
  (forall b, In b (db w) -> _id b <> _id a ->
             passwordResetToken b <> Some (sha256_hex E t)) ->
  let w1 := run (forgotPassword E req_email) w in
  result (resetPassword E t new_password) w = reset_done /\
  result (forgotPassword E req_email) w = mail_failed /\
  outbox w1 = outbox w /\
  (exists a1, findById (_id a) (db w1) = Some a1 /\
              passwordResetToken a1 = None /\
              passwordResetExpires a1 = None) /\
  result (resetPassword E t new_password) w1 = reset_refused /\
  db (run (resetPassword E t new_password) w1) = db w1.
Proof.
  intros He Hlen Hu Hfind Hpending Hothers w1.
  split.
  { unfold result.
    rewrite (resetPassword_found w t new_password a Hlen Hpending).
    reflexivity. }
  destruct (forgotPassword_account_after w req_email a He Hu Hfind)
    as [w' [f [Hrun [Hout [_ [_ [Hst [Htok [Hexp _]]]]]]]]].
  assert (Hw : w1 = w') by (unfold w1, run; rewrite Hrun; reflexivity).
  split; [unfold result; rewrite Hrun; reflexivity|].
  split; [rewrite Hw; exact Hout|].
  split.
  { exists (f a). rewrite Hw. auto. }
  apply resetPassword_none; [exact Hlen|].
  unfold w1. apply (forgotPassword_leaves_no_digest w req_email _ _ a);
    assumption.
Qed.

(** *** Listing and counting the accounts *)

Lemma count_by_role (c : Collection) :
  List.length c
  = (List.length (filter (fun a => Role_eqb (role a) role_super_admin) c)
     + List.length (filter (fun a => Role_eqb (role a) role_admin) c))%nat.
Proof.
  induction c as [|a c IH]; [reflexivity|].
  cbn [filter List.length]. destruct (role a); cbn [Role_eqb List.length]; lia.
Qed.

Lemma filter_length_le {A : Type} (q : A -> bool) (l : list A) :
  (List.length (filter q l) <= List.length l)%nat.
Proof.
  induction l as [|x l IH]; [apply Nat.le_refl|].
  cbn [filter]. destruct (q x); cbn [List.length]; lia.
Qed.

Lemma filter_all {A : Type} (l : list A) : filter (fun _ => true) l = l.
Proof. induction l as [|x l IH]; [reflexivity | cbn; rewrite IH; reflexivity]. Qed.

Lemma getStats_run (w : World) :
  getStats w =
  ({| total := List.length (db w);
      active := List.length (filter (fun a => Bool.eqb (isActive a) true) (db w));
      superAdmins :=
        List.length (filter (fun a => Role_eqb (role a) role_super_admin) (db w));
      admins :=
        List.length (filter (fun a => Role_eqb (role a) role_admin) (db w)) |},
   w).
Proof.
  unfold getStats, countDocuments. monad. rewrite filter_all.
  destruct w; reflexivity.
Qed.

(** X14.  [getStats] counts every stored account once: [total] is
    the size of the collection and the sum of [superAdmins] and
    [admins]; [active] is at most [total], with equality exactly when
    every account is active; the world is unchanged. *)
Theorem stats_count_every_account_once (w : World) :
  let stats := result getStats w in
  total stats = List.length (db w) /\
  total stats = (superAdmins stats + admins stats)%nat /\
  (active stats <= total stats)%nat /\
  (active stats = total stats <->
   forall a, In a (db w) -> isActive a = true) /\
  run getStats w = w.
Proof.
  unfold result, run. rewrite getStats_run. cbn [fst snd total active superAdmins admins].
  split; [reflexivity|]. split; [apply count_by_role|].
  split; [apply filter_length_le|]. split; [|reflexivity].
  generalize (db w) as c. intros c.
  induction c as [|x c IH]; cbn [filter List.length In].
  - split; [intros _ a []|reflexivity].
  - pose proof (filter_length_le (fun a => Bool.eqb (isActive a) true) c) as Hle.
    destruct (isActive x) eqn:Hx; cbn [Bool.eqb List.length].
    + split.
      * intros H a [<-|Hin]; [exact Hx|]. apply IH; [lia | exact Hin].
      * intros H. f_equal. apply IH. intros a Hin. apply H. right. exact Hin.
    + split; [lia|]. intros H. specialize (H x (or_introl eq_refl)). congruence.
Qed.

(** X15.  For a super-admin, [GET /api/admin] returns one document
    per stored account, in the order of the store, none of them carrying
    the password, and [GET /api/admin/stats] reports their number as
    [total]; the world is unchanged. *)
Theorem super_admin_sees_every_account_without_password
        (w : World) (authorization : option string) (caller : Document) :
  result (protect E authorization) w = inr caller ->
  role caller = role_super_admin ->
  exists listed stats,
    listAdmins E authorization w = (inr listed, w) /\
    adminStats E authorization w = (inr stats, w) /\
    map (fun d : Document => _id d) listed = map _id (db w) /\
    Forall (fun d : Document => password d = None) listed /\
    total stats = List.length listed.
Proof.
  intros Hprot Hrole.
  pose proof (protect_reads_only authorization w) as Hw.
  unfold result in Hprot. unfold run in Hw.
  unfold listAdmins, adminStats, bind.
  destruct (protect E authorization w) as [p w0]. cbn [fst snd] in *.
  subst p w0. unfold authorize. rewrite Hrole.
  cbn [existsb Role_eqb orb negb]. rewrite getStats_run.
  unfold find_all. monad.
  eexists. eexists. split; [destruct w; reflexivity|].
  split; [reflexivity|]. cbn [total].
  split; [|split].
  - rewrite map_map. apply map_ext. intros a. apply hydrate_id.
  - apply Forall_forall. intros d Hd. apply in_map_iff in Hd.
    destruct Hd as [a [<- _]]. apply hydrate_no_password.
  - rewrite length_map. reflexivity.
Qed.

(** X16.  [GET /api/admin/profile] returns the account that
    [protect] authenticated, without its password, and changes
    nothing. *)
Theorem profile_route_returns_the_caller
        (w : World) (authorization : option string) (caller : Document) :
  result (protect E authorization) w = inr caller ->
  getProfile E authorization w = (inr (Some caller), w) /\
  password caller = None.
Proof.
  intros Hprot.
  destruct (protect_account_stored _ _ _ Hprot) as [raw [Hraw Hcaller]].
  pose proof (protect_reads_only authorization w) as Hw.
  unfold result in Hprot. unfold run in Hw. unfold getProfile, bind.
  destruct (protect E authorization w) as [p w0]. cbn [fst snd] in *.
  subst p w0. monad. rewrite Hraw. cbn [option_map]. rewrite <- Hcaller.
  split; [destruct w; reflexivity|].
  rewrite Hcaller. apply hydrate_no_password.
Qed.

(** *** From the login to the session *)

(** X17.  The token in the response of a successful login, sent as
    [Bearer <token>] to a protected route after the login, passes
    [protect] as the account that logged in, without its password (given
    that [jwt.verify] gives back the payload that was signed). *)
Theorem login_token_opens_the_session
        (w : World) (req_email req_password h : string) (a : Admin) :
  valid_login_request E req_email req_password ->
  unique_ids (db w) ->
  find (email_is (normalizeEmail E req_email)) (db w) = Some a ->
  isActive a = true ->
  (forall l, lockUntil a = Some l -> l <= clock E (tick w)) ->
  password a = Some h ->
  bcrypt_compare E req_password h = true ->
  let token := generateAuthToken E (hydrate true a) in
  jwt_verify E token (JWT_SECRET E)
    = Some {| jwt_id := _id a; jwt_role := role a |} ->
  no_space token -> token <> EmptyString ->
  let w' := run (login E req_email req_password) w in
  (exists profile,
     result (login E req_email req_password) w
     = Responded 200 (LoginSuccess token profile)) /\
  exists c : Document,
    protect E (Some ("Bearer " ++ token)%string) w' = (inr c, w') /\
    _id c = _id a /\ password c = None.
Proof.
  intros Hv Hu Hfind Hact Hnl Hpw Hcmp token Hrt Hns Hne w'.
  destruct (login_succeeds w req_email req_password a h Hv Hfind Hact Hnl Hpw Hcmp)
    as [profile [f [w1 [Hrun [Hdb [_ Hid]]]]]].
  assert (Hw' : w' = w1) by (unfold w', run; rewrite Hrun; reflexivity).
  clearbody w'. subst w1.
  split; [exists profile; unfold result; rewrite Hrun; reflexivity|].
  rewrite protect_bearer by assumption.
  rewrite Hrt. cbn [jwt_id]. rewrite Hdb. fold (findById (_id a) (update_first (_id a) f (db w))).
  rewrite findById_update_first by exact Hid.
  rewrite (found_is_stored _ _ _ Hu Hfind). cbn [option_map].
  exists (hydrate false (f a)). split; [reflexivity|].
  split; [rewrite hydrate_id; apply Hid | apply hydrate_no_password].
Qed.

(** *** What a request for a reset gives away *)

Lemma forgotPassword_found_result (w : World) (req_email : string) (a : Admin) :
  isEmail E req_email = true ->
  find (email_is (normalizeEmail E req_email)) (db w) = Some a ->
  result (forgotPassword E req_email) w = mail_failed.
Proof.
  intros He Hfind.
  destruct (forgotPassword_rolled_back w req_email a He Hfind)
    as [w' [t [Hrun _]]].
  unfold result. rewrite Hrun. reflexivity.
Qed.

(** X18.  Unlike the login, [forgotPassword] tells whether an
    address has an account: for a well-formed address the answer is 404
    "No admin found with that email" exactly when no account has the
    normalized address, and then the world is unchanged. *)
Theorem reset_request_tells_whether_the_account_exists
        (w : World) (req_email : string) :
  isEmail E req_email = true ->
  (result (forgotPassword E req_email) w
   = Responded 404 (Failure "No admin found with that email")
   <-> find (email_is (normalizeEmail E req_email)) (db w) = None) /\
  (find (email_is (normalizeEmail E req_email)) (db w) = None ->
   run (forgotPassword E req_email) w = w).
Proof.
  intros He.
  destruct (find (email_is (normalizeEmail E req_email)) (db w)) as [a|] eqn:Hfind.
  - rewrite (forgotPassword_found_result w req_email a He Hfind).
    split; [|discriminate].
    unfold mail_failed. split; discriminate.
  - unfold result, run, forgotPassword. rewrite He. cbn [negb].
    monad. rewrite Hfind. cbn [option_map]. monad.
    split; [tauto|]. intros _. destruct w; reflexivity.
Qed.

(** *** The pattern of [email] *)

Lemma none_inv t : Matches R_none t -> False.
Proof. intros H. inversion H. Qed.

Lemma empty_inv t : Matches R_empty t -> t = [].
Proof. intros H. inversion H. reflexivity. Qed.

Lemma class_inv p t : Matches (R_class p) t -> exists c, t = [c] /\ p c = true.
Proof. intros H. inversion H; subst. eauto. Qed.

Lemma seq_inv r s t :
  Matches (R_seq r s) t -> exists u v, t = (u ++ v)%list /\ Matches r u /\ Matches s v.
Proof. intros H. inversion H; subst. eauto. Qed.

Lemma alt_inv r s t : Matches (R_alt r s) t -> Matches r t \/ Matches s t.
Proof. intros H. inversion H; subst; auto. Qed.

Lemma nullable_spec r : nullable r = true <-> Matches r [].
Proof.
  induction r; cbn.
  - split; [discriminate | intros H; inversion H].
  - split; [constructor | reflexivity].
  - split; [discriminate | intros H; inversion H].
  - rewrite andb_true_iff, IHr1, IHr2. split.
    + intros [H1 H2]. apply (M_seq _ _ [] []); assumption.
    + intros H. apply seq_inv in H. destruct H as [u [v [Heq [Hu Hv]]]].
      symmetry in Heq. apply app_eq_nil in Heq. destruct Heq; subst. auto.
  - rewrite orb_true_iff, IHr1, IHr2. split.
    + intros [H|H]; [apply M_alt_l | apply M_alt_r]; assumption.
    + apply alt_inv.
  - split; [constructor | reflexivity].
Qed.

Lemma star_cons_inv r c s :
  Matches (R_star r) (c :: s) ->
  exists u v, s = (u ++ v)%list /\ Matches r (c :: u) /\ Matches (R_star r) v.
Proof.
  intros H. remember (R_star r) as q eqn:Hq. remember (c :: s) as t eqn:Ht.
  revert c s Ht. induction H; intros c0 s0 Ht; try discriminate.
  injection Hq as ->.
  destruct u as [|x u].
  - cbn in Ht. apply IHMatches2; auto.
  - cbn in Ht. injection Ht as -> <-. exists u, v. auto.
Qed.

Lemma derive_spec r c s : Matches (derive c r) s <-> Matches r (c :: s).
Proof.
  revert s. induction r as [| |p|r1 IH1 r2 IH2|r1 IH1 r2 IH2|r IH]; intros s; cbn.
  - split; intros H; inversion H.
  - split; intros H; inversion H.
  - destruct (p c) eqn:Hc; split; intros H.
    + apply empty_inv in H. subst. constructor. exact Hc.
    + apply class_inv in H. destruct H as [c' [Heq _]].
      injection Heq as <- ->. constructor.
    + destruct (none_inv _ H).
    + apply class_inv in H. destruct H as [c' [Heq Hp]].
      injection Heq as <- ->. congruence.
  - assert (Hseq : Matches (R_seq (derive c r1) r2) s ->
                   Matches (R_seq r1 r2) (c :: s)).
    { intros H. apply seq_inv in H. destruct H as [u [v [-> [Hu Hv]]]].
      apply IH1 in Hu. apply (M_seq _ _ (c :: u) v); assumption. }
    destruct (nullable r1) eqn:Hn.
    + split.
      * intros H. apply alt_inv in H. destruct H as [H|H]; [auto|].
        apply IH2 in H. apply (M_seq _ _ [] (c :: s)); [|exact H].
        apply nullable_spec. exact Hn.
      * intros H. apply seq_inv in H. destruct H as [u [v [Heq [Hu Hv]]]].
        destruct u as [|x u]; cbn in Heq.
        -- subst v. apply M_alt_r. apply IH2. exact Hv.
        -- injection Heq as <- ->. apply M_alt_l. constructor; [|exact Hv].
           apply IH1. exact Hu.
    + split; [exact Hseq|].
      intros H. apply seq_inv in H. destruct H as [u [v [Heq [Hu Hv]]]].
      destruct u as [|x u]; cbn in Heq.
      * apply nullable_spec in Hu. congruence.
      * injection Heq as <- ->. constructor; [|exact Hv]. apply IH1. exact Hu.
  - split; intros H; apply alt_inv in H;
      (destruct H as [H|H]; [apply M_alt_l; apply IH1 | apply M_alt_r; apply IH2];
       exact H).
  - split.
    + intros H. apply seq_inv in H. destruct H as [u [v [-> [Hu Hv]]]].
      apply IH in Hu. apply (M_star_cons _ (c :: u) v); assumption.
    + intros H. apply star_cons_inv in H. destruct H as [u [v [-> [Hu Hv]]]].
      constructor; [apply IH; exact Hu | exact Hv].
Qed.

Lemma test_from_spec r s : test_from r s = true <-> Matches r s.
Proof.
  revert r. induction s as [|c s IH]; intros r; cbn.
  - apply nullable_spec.
  - rewrite IH. apply derive_spec.
Qed.
Lemma star_forall (P : list ascii -> Prop) (r : Regex) (t : list ascii) :
  (forall u, Matches r u -> P u) -> P [] ->
  (forall u v, P u -> P v -> P (u ++ v)%list) ->
  Matches (R_star r) t -> P t.
Proof.
  intros Hr Hnil Happ H. remember (R_star r) as q eqn:Hq.
  induction H; try discriminate; injection Hq as ->; auto.
Qed.

(** The last round of [r+]. *)
Lemma plus_last (r : Regex) (t : list ascii) :
  Matches (R_plus r) t ->
  exists p u, t = (p ++ u)%list /\ Matches (R_star r) p /\ Matches r u.
Proof.
  intros H. apply seq_inv in H. destruct H as [u0 [v [-> [Hu0 Hv]]]].
  revert u0 Hu0. remember (R_star r) as q eqn:Hq.
  induction Hv; try discriminate; injection Hq as ->; intros u0 Hu0.
  - exists [], u0. rewrite app_nil_r. split; [reflexivity|].
    split; [constructor | exact Hu0].
  - destruct (IHHv2 eq_refl u Hv1) as [p [u' [Heq [Hp Hu']]]].
    exists (u0 ++ p)%list, u'. rewrite Heq, app_assoc.
    split; [reflexivity|]. split; [constructor; assumption | exact Hu'].
Qed.

Lemma class_chars (p : ascii -> bool) (t : list ascii) :
  Matches (R_class p) t -> forallb p t = true /\ List.length t = 1%nat.
Proof.
  intros H. apply class_inv in H. destruct H as [c [-> Hc]].
  cbn. rewrite Hc. auto.
Qed.

Lemma words_chars (t : list ascii) :
  Matches words t -> forallb is_word t = true /\ t <> [].
Proof.
  intros H. apply seq_inv in H. destruct H as [u [v [-> [Hu Hv]]]].
  apply class_inv in Hu. destruct Hu as [c [-> Hc]].
  split; [|discriminate]. cbn. rewrite Hc. cbn.
  revert Hv. apply (star_forall (fun t => forallb is_word t = true)).
  - intros x Hx. apply class_chars in Hx. tauto.
  - reflexivity.
  - intros x y Hx Hy. rewrite forallb_app, Hx, Hy. reflexivity.
Qed.

Lemma forallb_weaken {A : Type} (p q : A -> bool) (l : list A) :
  (forall x, p x = true -> q x = true) ->
  forallb p l = true -> forallb q l = true.
Proof.
  intros Hpq. induction l as [|x l IH]; cbn; [reflexivity|].
  rewrite !andb_true_iff. intros [Hx Hl]. auto.
Qed.

Lemma labels_chars (t : list ascii) :
  Matches labels t ->
  forallb (fun c => is_word c || is_dot_or_dash c) t = true /\ t <> [].
Proof.
  intros H. apply seq_inv in H. destruct H as [u [v [-> [Hu Hv]]]].
  apply words_chars in Hu. destruct Hu as [Hu Hne].
  split; [|destruct u; [congruence | discriminate]].
  rewrite forallb_app. apply andb_true_iff. split.
  - revert Hu. apply forallb_weaken. intros x ->. reflexivity.
  - revert Hv.
    apply (star_forall
             (fun t => forallb (fun c => is_word c || is_dot_or_dash c) t = true)).
    + intros w Hw. apply seq_inv in Hw. destruct Hw as [a [b [-> [Ha Hb]]]].
      rewrite forallb_app. apply andb_true_iff. split.
      * apply alt_inv in Ha. destruct Ha as [Ha|Ha].
        -- apply empty_inv in Ha. subst. reflexivity.
        -- apply class_chars in Ha. destruct Ha as [Ha _].
           revert Ha. apply forallb_weaken. intros x ->. apply orb_true_r.
      * apply words_chars in Hb. destruct Hb as [Hb _].
        revert Hb. apply forallb_weaken. intros x ->. reflexivity.
    + reflexivity.
    + intros a b Ha Hb. rewrite forallb_app, Ha, Hb. reflexivity.
Qed.

Lemma final_label_chars (t : list ascii) :
  Matches final_label t ->
  exists tld, t = "."%char :: tld /\ forallb is_word tld = true /\
              (2 <= List.length tld <= 3)%nat.
Proof.
  intros H. apply seq_inv in H. destruct H as [d [v [-> [Hd Hv]]]].
  apply class_inv in Hd. destruct Hd as [c [-> Hc]].
  apply Ascii.eqb_eq in Hc. subst c.
  apply seq_inv in Hv. destruct Hv as [a [v1 [-> [Ha Hv1]]]].
  apply class_inv in Ha. destruct Ha as [ca [-> Hca]].
  apply seq_inv in Hv1. destruct Hv1 as [b [v2 [-> [Hb Hv2]]]].
  apply class_inv in Hb. destruct Hb as [cb [-> Hcb]].
  apply alt_inv in Hv2. destruct Hv2 as [H|H].
  - apply empty_inv in H. subst. exists [ca; cb]. cbn.
    rewrite Hca, Hcb. repeat split; auto.
  - apply class_inv in H. destruct H as [cc [-> Hcc]]. exists [ca; cb; cc].
    cbn. rewrite Hca, Hcb, Hcc. repeat split; auto.
Qed.

(** X19.  An address that the pattern of the schema accepts is made
    of a local part, [@], a domain, a dot and a final label, where the
    local part and the domain are not empty and hold only word
    characters, dots and dashes, and the final label holds two or three
    word characters. *)
Theorem schema_email_shape (s : string) :
  test email_pattern s = true ->
  exists local domain tld : list ascii,
    list_ascii_of_string s = (local ++ "@"%char :: domain ++ "."%char :: tld)%list /\
    local <> [] /\ domain <> [] /\
    forallb (fun c => is_word c || is_dot_or_dash c) local = true /\
    forallb (fun c => is_word c || is_dot_or_dash c) domain = true /\
    forallb is_word tld = true /\
    (2 <= List.length tld <= 3)%nat.
Proof.
  unfold test. rewrite test_from_spec. generalize (list_ascii_of_string s) as t.
  intros t H. unfold email_pattern in H.
  apply seq_inv in H. destruct H as [l [v [-> [Hl Hv]]]].
  apply seq_inv in Hv. destruct Hv as [a [v1 [-> [Ha Hv1]]]].
  apply class_inv in Ha. destruct Ha as [c [-> Hc]].
  apply Ascii.eqb_eq in Hc. subst c.
  apply seq_inv in Hv1. destruct Hv1 as [d [v2 [-> [Hd Hv2]]]].
  apply plus_last in Hv2. destruct Hv2 as [p [u [-> [Hp Hu]]]].
  apply final_label_chars in Hu. destruct Hu as [tld [-> [Htld Hlen]]].
  apply labels_chars in Hl. destruct Hl as [Hl Hlne].
  apply labels_chars in Hd. destruct Hd as [Hd Hdne].
  exists l, (d ++ p)%list, tld.
  split; [cbn; rewrite <- app_assoc; reflexivity|].
  split; [exact Hlne|].
  split; [destruct d; [congruence | discriminate]|].
  split; [exact Hl|]. split; [|auto].
  rewrite forallb_app, Hd. cbn [andb].
  revert Hp.
  apply (star_forall
           (fun t => forallb (fun c => is_word c || is_dot_or_dash c) t = true)).
  - intros w Hw. apply final_label_chars in Hw.
    destruct Hw as [t' [-> [Ht' _]]]. cbn.
    revert Ht'. apply forallb_weaken. intros x ->. reflexivity.
  - reflexivity.
  - intros x y Hx Hy. rewrite forallb_app, Hx, Hy. reflexivity.
Qed.

Lemma list_ascii_of_string_app (a b : string) :
  list_ascii_of_string (a ++ b)
  = (list_ascii_of_string a ++ list_ascii_of_string b)%list.
Proof. induction a as [|c a IH]; cbn; [reflexivity | rewrite IH; reflexivity]. Qed.

Lemma list_ascii_of_string_length (s : string) :
  List.length (list_ascii_of_string s) = String.length s.
Proof. induction s as [|c s IH]; cbn; [reflexivity | rewrite IH; reflexivity]. Qed.

(** What follows the last dot. *)
Lemma after_last_dot (x y t t' : list ascii) :
  forallb is_word t = true -> forallb is_word t' = true ->
  (x ++ "."%char :: t)%list = (y ++ "."%char :: t')%list -> t = t'.
Proof.
  intros Ht Ht'. revert y.
  induction x as [|c x IH]; intros [|c' y]; cbn; intros Heq.
  - congruence.
  - injection Heq as <- ->. rewrite forallb_app in Ht.
    apply andb_true_iff in Ht. destruct Ht as [_ Ht]. discriminate.
  - injection Heq as -> <-. rewrite forallb_app in Ht'.
    apply andb_true_iff in Ht'. destruct Ht' as [_ Ht']. discriminate.
  - injection Heq as _ Heq. eapply IH. exact Heq.
Qed.

Lemma words_of_chars (t : list ascii) :
  t <> [] -> forallb is_word t = true -> Matches words t.
Proof.
  destruct t as [|c t]; [congruence|]. intros _. cbn.
  rewrite andb_true_iff. intros [Hc Ht].
  apply (M_seq _ _ [c] t); [constructor; exact Hc|].
  induction t as [|x t IH]; [constructor|].
  cbn in Ht. apply andb_true_iff in Ht. destruct Ht as [Hx Ht].
  apply (M_star_cons _ [x] t); [constructor; exact Hx | auto].
Qed.

Lemma labels_of_words (t : list ascii) : Matches words t -> Matches labels t.
Proof.
  intros H. rewrite <- (app_nil_r t). constructor; [exact H | constructor].
Qed.

Lemma plain_chars (s : string) :
  plain s ->
  list_ascii_of_string s <> [] /\ forallb is_word (list_ascii_of_string s) = true.
Proof.
  intros [Hne Hw]. split; [|exact Hw]. destruct s; [congruence | discriminate].
Qed.

(** X20.  Of the addresses [local@domain.tld] whose three parts are
    made of word characters, the pattern of the schema accepts exactly
    those whose final label has two or three characters. *)
Theorem schema_email_top_level_label (local domain tld : string) :
  plain local -> plain domain -> plain tld ->
  (test email_pattern (local ++ "@" ++ domain ++ "." ++ tld) = true <->
   (2 <= String.length tld <= 3)%nat).
Proof.
  intros Hl Hd Ht.
  apply plain_chars in Hl, Hd, Ht.
  destruct Hl as [Hlne Hl], Hd as [Hdne Hd], Ht as [Htne Ht].
  rewrite <- list_ascii_of_string_length.
  split.
  - intros H. apply schema_email_shape in H.
    destruct H as [l [d [t [Heq [_ [_ [_ [_ [Hw Hlen]]]]]]]]].
    rewrite !list_ascii_of_string_app in Heq. cbn [list_ascii_of_string app] in Heq.
    assert (Hsame : list_ascii_of_string tld = t).
    { apply (after_last_dot
               (list_ascii_of_string local ++ "@"%char :: list_ascii_of_string domain)
               (l ++ "@"%char :: d)); auto.
      rewrite <- !app_assoc. cbn [app]. exact Heq. }
    rewrite Hsame. exact Hlen.
  - intros Hlen. unfold test. apply test_from_spec.
    rewrite !list_ascii_of_string_app. cbn [list_ascii_of_string app].
    unfold email_pattern.
    constructor; [apply labels_of_words, words_of_chars; assumption|].
    apply (M_seq _ _ ["@"%char]); [constructor; reflexivity|].
    constructor; [apply labels_of_words, words_of_chars; assumption|].
    rewrite <- (app_nil_r (_ :: _)). constructor; [|constructor].
    destruct (list_ascii_of_string tld) as [|a [|b [|c [|e t]]]];
      cbn in Hlen, Ht; try lia.
    + apply andb_true_iff in Ht. destruct Ht as [Ha Ht].
      apply andb_true_iff in Ht. destruct Ht as [Hb _].
      apply (M_seq _ _ ["."%char] [a; b]); [constructor; reflexivity|].
      apply (M_seq _ _ [a] [b]); [constructor; exact Ha|].
      apply (M_seq _ _ [b] []); [constructor; exact Hb|].
      apply M_alt_l. constructor.
    + apply andb_true_iff in Ht. destruct Ht as [Ha Ht].
      apply andb_true_iff in Ht. destruct Ht as [Hb Ht].
      apply andb_true_iff in Ht. destruct Ht as [Hc _].
      apply (M_seq _ _ ["."%char] [a; b; c]); [constructor; reflexivity|].
      apply (M_seq _ _ [a] [b; c]); [constructor; exact Ha|].
      apply (M_seq _ _ [b] [c]); [constructor; exact Hb|].
      apply M_alt_r. constructor. exact Hc.
Qed.

(** *** Editing an account *)

Lemma assign_if_id (p : Path) (v : option Value) (d : Document) :
  _id (assign_if p v d) = _id d.
Proof. destruct v; [apply assign_id | reflexivity]. Qed.

Lemma assign_if_isNew (p : Path) (v : option Value) (d : Document) :
  isNew (assign_if p v d) = isNew d.
Proof. destruct v; [apply assign_isNew | reflexivity]. Qed.

Lemma assign_if_isModified_other (p q : Path) (v : option Value) (d : Document) :
  p <> q -> isModified (assign_if p v d) q = isModified d q.
Proof. intros H. destruct v; [apply assign_isModified_other; exact H | reflexivity]. Qed.

Lemma assign_if_get_other (p q : Path) (v : option Value) (d : Document) :
  p <> q -> getPath q (assign_if p v d) = getPath q d.
Proof. intros H. destruct v; [apply assign_get_other; exact H | reflexivity]. Qed.

(** The hooks read the clock and draw a salt; they leave the store and
    the outbox alone. *)
Lemma timestamps_pre_save_store (this : Document) (w : World) :
  db (run (timestamps_pre_save E this) w) = db w /\
  outbox (run (timestamps_pre_save E this) w) = outbox w.
Proof.
  unfold run, timestamps_pre_save.
  destruct (isNew this || isModified_any this); monad; auto.
Qed.

Lemma pre_save_hash_store (this : Document) (w : World) :
  db (run (pre_save_hash E this) w) = db w /\
  outbox (run (pre_save_hash E this) w) = outbox w.
Proof.
  unfold run, pre_save_hash. monad.
  destruct (password this); monad; auto.
Qed.

Lemma pre_save_passwordChangedAt_store (this : Document) (w : World) :
  db (run (pre_save_passwordChangedAt E this) w) = db w /\
  outbox (run (pre_save_passwordChangedAt E this) w) = outbox w.
Proof.
  unfold run, pre_save_passwordChangedAt.
  destruct (negb (isModified this P_password) || isNew this); monad; auto.
Qed.

(** A checked save of a stored document whose password was not
    assigned: refused with the store as it was, or made as [save] makes
    it. *)
Lemma save_checked_run (this : Document) (w : World) :
  isModified this P_password = false ->
  isNew this = false ->
  (exists w', save_checked E this w = (None, w') /\
              db w' = db w /\ outbox w' = outbox w) \/
  (schema_valid this = true /\
   isModified this P_email && email_taken this (db w) = false /\
   exists n,
     save_checked E this w
     = (Some (after_save (stamped (clock E (tick w)) this)),
        {| db := update_first (_id this)
                   (applyUpdate (delta (stamped (clock E (tick w)) this))) (db w);
           tick := n; rnd := S (rnd w); outbox := outbox w |})).
Proof.
  intros Hm Hn. unfold save_checked.
  destruct (schema_valid this) eqn:Hv; cbn [negb].
  2: { left. exists w. auto. }
  cbv beta iota delta [bind get_db].
  destruct (isModified this P_email && email_taken this (db w)) eqn:Ht.
  - left.
    pose proof (timestamps_pre_save_store this w) as [H1 H1']. unfold run in H1, H1'.
    destruct (timestamps_pre_save E this w) as [this1 w1]. cbn [snd] in H1, H1'.
    pose proof (pre_save_hash_store this1 w1) as [H2 H2']. unfold run in H2, H2'.
    destruct (pre_save_hash E this1 w1) as [h w2]. cbn [snd] in H2, H2'.
    destruct (at_next h) as [this2|].
    + pose proof (pre_save_passwordChangedAt_store this2 w2) as [H3 H3'].
      unfold run in H3, H3'.
      destruct (pre_save_passwordChangedAt E this2 w2) as [this3 w3].
      cbn [snd] in H3, H3'. exists w3. unfold ret.
      split; [reflexivity|]. split; congruence.
    + exists w2. unfold ret. split; [reflexivity|]. split; congruence.
  - right. split; [reflexivity|]. split; [reflexivity|].
    rewrite (save_password_unmodified this w Hm Hn). eexists. reflexivity.
Qed.

Lemma edited_profile_facts (b : AccountBody) (raw : Admin) :
  let d := edited_profile E b raw in
  isNew d = false /\ _id d = _id raw /\
  forall q, existsb (Path_eqb q) profile_paths = false -> isModified d q = false.
Proof.
  intros d. unfold d, edited_profile. split; [|split].
  - rewrite !assign_if_isNew. reflexivity.
  - rewrite !assign_if_id. apply hydrate_id.
  - intros q Hq. cbn [existsb profile_paths] in Hq.
    repeat (apply orb_false_iff in Hq; destruct Hq as [? Hq]).
    rewrite !assign_if_isModified_other
      by (intros <-; rewrite Path_eqb_refl in *; discriminate).
    reflexivity.
Qed.

Lemma edited_account_facts (b : AccountBody) (raw : Admin) :
  let d := edited_account E b raw in
  isNew d = false /\ _id d = _id raw /\
  forall q, existsb (Path_eqb q) account_paths = false -> isModified d q = false.
Proof.
  intros d. unfold d, edited_account. split; [|split].
  - rewrite !assign_if_isNew. reflexivity.
  - rewrite !assign_if_id. apply hydrate_id.
  - intros q Hq. cbn [existsb account_paths] in Hq.
    repeat (apply orb_false_iff in Hq; destruct Hq as [? Hq]).
    rewrite !assign_if_isModified_other
      by (intros <-; rewrite Path_eqb_refl in *; discriminate).
    reflexivity.
Qed.

Lemma edited_store_saved (paths : list Path) (this : Document) (id : string)
      (w w' : World) (r : option Document) :
  isModified this P_password = false ->
  isNew this = false ->
  _id this = id ->
  (forall q, existsb (Path_eqb q) paths = false -> isModified this q = false) ->
  existsb (Path_eqb P_updatedAt) paths = true ->
  save_checked E this w = (r, w') ->
  edited_store paths id w w'.
Proof.
  intros Hm Hn Hid Hpaths Hup Hrun.
  destruct (save_checked_run this w Hm Hn)
    as [[w1 [Hs [Hdb Hout]]]|[_ [_ [n Hs]]]];
    rewrite Hs in Hrun; apply pair_eq_inv in Hrun; destruct Hrun as [_ <-].
  - split; [exact Hout | left; exact Hdb].
  - split; [reflexivity|]. right.
    exists (stamped (clock E (tick w)) this). cbn [db]. rewrite Hid.
    split; [reflexivity|].
    intros q Hq. rewrite stamped_isModified_other; [auto|].
    intros ->. congruence.
Qed.

Lemma updateProfile_handler_store (caller : Document) (b : AccountBody) (w : World) :
  edited_store profile_paths (_id caller) w
    (run (updateProfile_handler E caller b) w).
Proof.
  unfold run, updateProfile_handler.
  destruct (negb (valid_name (body_name b) && valid_email E (body_email b))).
  { split; [reflexivity | left; reflexivity]. }
  monad.
  destruct (find (by_id (_id caller)) (db w)) as [raw|] eqn:Hfind;
    cbn [option_map]; monad.
  2: { split; [reflexivity | left; reflexivity]. }
  fold (edited_profile E b raw).
  destruct (edited_profile_facts b raw) as [Hn [Hid Hpaths]].
  destruct (save_checked E (edited_profile E b raw) _) as [r w'] eqn:Hrun.
  assert (Hs : edited_store profile_paths (_id caller) w w').
  { apply (edited_store_saved profile_paths (edited_profile E b raw)
             (_id caller) w w' r);
      [apply Hpaths; reflexivity | exact Hn
      | rewrite Hid; apply (by_id_found _ _ _ Hfind) | exact Hpaths
      | reflexivity | exact Hrun]. }
  destruct r; exact Hs.
Qed.

Lemma updateAdmin_handler_store (id : string) (b : AccountBody) (w : World) :
  edited_store account_paths id w (run (updateAdmin_handler E id b) w).
Proof.
  unfold run, updateAdmin_handler.
  destruct (negb (valid_name (body_name b) && valid_email E (body_email b)
                  && valid_role (body_role b))).
  { split; [reflexivity | left; reflexivity]. }
  monad.
  destruct (find (by_id id) (db w)) as [raw|] eqn:Hfind;
    cbn [option_map]; monad.
  2: { split; [reflexivity | left; reflexivity]. }
  fold (edited_account E b raw).
  destruct (edited_account_facts b raw) as [Hn [Hid Hpaths]].
  destruct (save_checked E (edited_account E b raw) _) as [r w'] eqn:Hrun.
  assert (Hs : edited_store account_paths id w w').
  { apply (edited_store_saved account_paths (edited_account E b raw)
             id w w' r);
      [apply Hpaths; reflexivity | exact Hn
      | rewrite Hid; apply (by_id_found _ _ _ Hfind) | exact Hpaths
      | reflexivity | exact Hrun]. }
  destruct r; exact Hs.
Qed.

Lemma edited_store_frame (paths : list Path) (id : string) (w w' : World) :
  edited_store paths id w w' ->
  outbox w' = outbox w /\
  map _id (db w') = map _id (db w) /\
  forall id' a,
    findById id' (db w) = Some a ->
    exists a',
      findById id' (db w') = Some a' /\
      (id' <> id -> a' = a) /\
      _id a' = _id a /\ createdAt a' = createdAt a /\
      forall q, existsb (Path_eqb q) paths = false -> getPath q a' = getPath q a.
Proof.
  intros [Hout [Hdb|[d [Hdb Hpaths]]]].
  - split; [exact Hout|]. rewrite Hdb. split; [reflexivity|].
    intros id' a Ha. exists a. auto.
  - split; [exact Hout|]. rewrite Hdb.
    split; [apply update_first_ids; intros x; apply applyUpdate_id|].
    intros id' a Ha.
    destruct (String.eqb_spec id' id) as [->|Hne].
    + exists (applyUpdate (delta d) a).
      rewrite findById_update_first by (intros x; apply applyUpdate_id).
      rewrite Ha. split; [reflexivity|]. split; [congruence|].
      split; [apply applyUpdate_id|]. split; [apply applyUpdate_createdAt|].
      intros q Hq. rewrite applyUpdate_delta_get, (Hpaths q Hq). reflexivity.
    + exists a.
      rewrite findById_update_other
        by (try (intros x; apply applyUpdate_id); exact Hne).
      auto.
Qed.

Lemma updateAdmin_store (w : World) (authorization : option string)
      (id : string) (b : AccountBody) :
  edited_store account_paths id w (run (updateAdmin E authorization id b) w).
Proof.
  pose proof (protect_reads_only authorization w) as Hw.
  unfold run in *. unfold updateAdmin, bind.
  destruct (protect E authorization w) as [[r|caller] w0]; cbn [snd] in Hw;
    subst w0.
  - split; [reflexivity | left; reflexivity].
  - destruct (authorize [role_super_admin] (Some caller)).
    + split; [reflexivity | left; reflexivity].
    + apply updateAdmin_handler_store.
Qed.

Lemma updateProfile_store (w : World) (authorization : option string)
      (b : AccountBody) :
  db (run (updateProfile E authorization b) w) = db w \/
  exists caller,
    result (protect E authorization) w = inr caller /\
    edited_store profile_paths (_id caller) w
      (run (updateProfile E authorization b) w).
Proof.
  pose proof (protect_reads_only authorization w) as Hw.
  unfold run, result in *. unfold updateProfile, bind.
  destruct (protect E authorization w) as [[r|caller] w0]; cbn [snd] in Hw;
    subst w0.
  - left. reflexivity.
  - right. exists caller. split; [reflexivity|].
    apply updateProfile_handler_store.
Qed.

(** X21.  Whatever the caller, the target and the body,
    [PUT /api/admin/:id] sends no mail, adds or removes no account,
    leaves the other accounts as they are, and on the target writes only
    [name], [email], [role], [isActive], [avatar] and [updatedAt]: the
    password, the count of failures, the lock and every other path read
    as before. *)
Theorem account_edit_writes_only_its_paths
        (w : World) (authorization : option string) (id : string)
        (b : AccountBody) :
  let w' := run (updateAdmin E authorization id b) w in
  outbox w' = outbox w /\
  map _id (db w') = map _id (db w) /\
  forall id' a,
    findById id' (db w) = Some a ->
    exists a',
      findById id' (db w') = Some a' /\
      (id' <> id -> a' = a) /\
      password a' = password a /\
      attempts_of a' = attempts_of a /\
      lockUntil a' = lockUntil a /\
      forall q, existsb (Path_eqb q) account_paths = false ->
                readPath q a' = readPath q a.
Proof.
  intros w'.
  destruct (edited_store_frame _ _ _ _ (updateAdmin_store w authorization id b))
    as [Hout [Hids Hframe]].
  split; [exact Hout|]. split; [exact Hids|].
  intros id' a Ha. destruct (Hframe id' a Ha) as [a' [Ha' [Hsame [_ [_ Hq]]]]].
  exists a'. split; [exact Ha'|]. split; [exact Hsame|].
  split; [apply password_get; rewrite (Hq P_password) by reflexivity;
          reflexivity|].
  split; [apply attempts_of_read, readPath_same, Hq; reflexivity|].
  split; [apply lockUntil_get; rewrite (Hq P_lockUntil) by reflexivity;
          reflexivity|].
  intros q Hq'. apply readPath_same, Hq. exact Hq'.
Qed.

(** X22.  Whatever the header and the body, [PUT /api/admin/profile]
    sends no mail, adds or removes no account, changes no account but
    that of the caller, and on it writes only [name], [email], [avatar]
    and [updatedAt]: a [role] or [isActive] in the body is ignored, and
    the password reads as before. *)
Theorem profile_edit_cannot_change_access
        (w : World) (authorization : option string) (b : AccountBody) :
  let w' := run (updateProfile E authorization b) w in
  outbox w' = outbox w /\
  map _id (db w') = map _id (db w) /\
  forall id' a,
    findById id' (db w) = Some a ->
    exists a',
      findById id' (db w') = Some a' /\
      (a' = a \/ exists caller, result (protect E authorization) w = inr caller /\
                                id' = _id caller) /\
      role a' = role a /\ isActive a' = isActive a /\
      password a' = password a /\
      forall q, existsb (Path_eqb q) profile_paths = false ->
                readPath q a' = readPath q a.
Proof.
  intros w'.
  assert (Hout : outbox w' = outbox w).
  { unfold w', run, updateProfile, bind.
    pose proof (protect_reads_only authorization w) as Hw. unfold run in Hw.
    destruct (protect E authorization w) as [[r|caller] w0]; cbn [snd] in Hw;
      subst w0; [reflexivity|].
    apply (updateProfile_handler_store caller b w). }
  split; [exact Hout|].
  destruct (updateProfile_store w authorization b) as [Hdb|[caller [Hp Hs]]].
  - fold w' in Hdb. rewrite Hdb. split; [reflexivity|].
    intros id' a Ha. exists a. repeat split; auto.
  - destruct (edited_store_frame _ _ _ _ Hs) as [_ [Hids Hframe]].
    fold w' in Hids, Hframe. split; [exact Hids|].
    intros id' a Ha. destruct (Hframe id' a Ha) as [a' [Ha' [Hsame [_ [_ Hq]]]]].
    exists a'. split; [exact Ha'|].
    split.
    { destruct (String.eqb_spec id' (_id caller)) as [->|Hne];
        [right; exists caller; auto | left; auto]. }
    split; [apply role_get_eq, Hq; reflexivity|].
    split; [apply isActive_get_eq, Hq; reflexivity|].
    split; [apply password_get; rewrite (Hq P_password) by reflexivity;
            reflexivity|].
    intros q Hq'. apply readPath_same, Hq. exact Hq'.
Qed.

(** *** Roles and activity through [PUT /api/admin/:id] *)

Lemma well_kinded_role (r : Role) : well_kinded P_role (Some (V_role r)).
Proof.
  exists {| _id := ""; name := ""; email := ""; password := None;
            role := r; avatar := None; isActive := true;
            lastLogin := None; loginAttempts := None; lockUntil := None;
            passwordChangedAt := None; passwordResetToken := None;
            passwordResetExpires := None; createdAt := 0; updatedAt := 0 |}.
  reflexivity.
Qed.

Lemma well_kinded_isActive (b : bool) : well_kinded P_isActive (Some (V_bool b)).
Proof.
  exists {| _id := ""; name := ""; email := ""; password := None;
            role := role_admin; avatar := None; isActive := b;
            lastLogin := None; loginAttempts := None; lockUntil := None;
            passwordChangedAt := None; passwordResetToken := None;
            passwordResetExpires := None; createdAt := 0; updatedAt := 0 |}.
  reflexivity.
Qed.

Lemma well_kinded_email (s : string) : well_kinded P_email (Some (V_str s)).
Proof.
  exists {| _id := ""; name := ""; email := s; password := None;
            role := role_admin; avatar := None; isActive := true;
            lastLogin := None; loginAttempts := None; lockUntil := None;
            passwordChangedAt := None; passwordResetToken := None;
            passwordResetExpires := None; createdAt := 0; updatedAt := 0 |}.
  reflexivity.
Qed.

Lemma synced_assign_if (q : Path) (v : option Value) (d : Document)
      (x : Admin) (p : Path) :
  synced d x p -> synced (assign_if q v d) x p.
Proof. intros H. destruct v; [apply synced_assign; exact H | exact H]. Qed.

Lemma role_get (x : Admin) (r : Role) :
  getPath P_role x = Some (V_role r) -> role x = r.
Proof. cbn [getPath]. congruence. Qed.

Lemma isActive_get (x : Admin) (b : bool) :
  getPath P_isActive x = Some (V_bool b) -> isActive x = b.
Proof. cbn [getPath]. congruence. Qed.

Lemma email_get (x : Admin) (s : string) :
  getPath P_email x = Some (V_str s) -> email x = s.
Proof. cbn [getPath]. congruence. Qed.

(** A checked save that the validators and the index let through. *)
Lemma save_checked_accepted (this : Document) (w : World) :
  isModified this P_password = false ->
  isNew this = false ->
  schema_valid this = true ->
  isModified this P_email && email_taken this (db w) = false ->
  exists n,
    save_checked E this w
    = (Some (after_save (stamped (clock E (tick w)) this)),
       {| db := update_first (_id this)
                  (applyUpdate (delta (stamped (clock E (tick w)) this))) (db w);
          tick := n; rnd := S (rnd w); outbox := outbox w |}).
Proof.
  intros Hm Hn Hv Ht.
  destruct (save_checked_run this w Hm Hn)
    as [[w1 [Hs _]]|[_ [_ Hs]]]; [|exact Hs].
  exfalso. revert Hs. unfold save_checked. rewrite Hv. cbn [negb].
  cbv beta iota delta [bind get_db]. rewrite Ht.
  rewrite (save_password_unmodified this w Hm Hn). discriminate.
Qed.

(** A checked save that assigned neither the password, the name nor the
    address. *)
Lemma save_checked_same_email (this : Document) (w : World) :
  isModified this P_password = false ->
  isNew this = false ->
  isModified this P_name = false ->
  isModified this P_email = false ->
  exists n,
    save_checked E this w
    = (Some (after_save (stamped (clock E (tick w)) this)),
       {| db := update_first (_id this)
                  (applyUpdate (delta (stamped (clock E (tick w)) this))) (db w);
          tick := n; rnd := S (rnd w); outbox := outbox w |}).
Proof.
  intros Hm Hn Hname Hemail.
  apply save_checked_accepted; auto.
  - unfold schema_valid. rewrite Hname, Hemail. reflexivity.
  - rewrite Hemail. reflexivity.
Qed.

(** The account as [access_body] leaves it. *)
Lemma access_edit_facts (r : option string) (active : option bool) (raw : Admin) :
  let d := edited_account E (access_body r active) raw in
  isModified d P_password = false /\ isNew d = false /\ _id d = _id raw /\
  isModified d P_name = false /\ isModified d P_email = false /\
  (forall p, p <> P_loginAttempts -> p <> P_password -> synced d raw p) /\
  (forall r', r = Some r' -> r' <> EmptyString ->
              forall x, role_of_string r' = Some x ->
                        getPath P_role d = Some (V_role x)) /\
  (forall v, active = Some v -> getPath P_isActive d = Some (V_bool v)) /\
  (active = None -> getPath P_isActive d = Some (V_bool (isActive raw))) /\
  getPath P_email d = getPath P_email raw /\
  getPath P_lockUntil d = getPath P_lockUntil raw.
Proof.
  intros d. unfold d, edited_account, access_body.
  cbn [body_name body_email body_role body_isActive body_avatar
       option_map truthy assign_if].
  split; [rewrite !assign_if_isModified_other by discriminate; reflexivity|].
  split; [rewrite !assign_if_isNew; reflexivity|].
  split; [rewrite !assign_if_id; apply hydrate_id|].
  split; [rewrite !assign_if_isModified_other by discriminate; reflexivity|].
  split; [rewrite !assign_if_isModified_other by discriminate; reflexivity|].
  split.
  { intros p H1 H2. do 2 apply synced_assign_if.
    apply synced_hydrate; congruence. }
  split.
  { intros r' -> Hne x Hx.
    rewrite assign_if_get_other by discriminate.
    destruct r' as [|c r']; [congruence|]. cbn [truthy]. rewrite Hx.
    cbn [option_map assign_if]. apply assign_get_same, well_kinded_role. }
  split.
  { intros v ->. cbn [option_map assign_if].
    apply assign_get_same, well_kinded_isActive. }
  split.
  { intros ->. cbn [option_map assign_if].
    rewrite assign_if_get_other by discriminate.
    rewrite hydrate_get by discriminate. reflexivity. }
  split.
  - rewrite !assign_if_get_other by discriminate.
    apply hydrate_get; discriminate.
  - rewrite !assign_if_get_other by discriminate.
    apply hydrate_get; discriminate.
Qed.

(** The run of the route for a super-admin and a body that only sets
    [role] and [isActive]. *)
Lemma updateAdmin_access_saved
      (w : World) (authorization : option string) (caller : Document)
      (id : string) (r : option string) (active : option bool) (raw : Admin) :
  result (protect E authorization) w = inr caller ->
  role caller = role_super_admin ->
  valid_role r = true ->
  find (by_id id) (db w) = Some raw ->
  let d := stamped (clock E (tick w)) (edited_account E (access_body r active) raw) in
  exists n,
    updateAdmin E authorization id (access_body r active) w
    = ((Responded 200 (Success "Admin updated successfully"), Some (after_save d)),
       {| db := update_first id (applyUpdate (delta d)) (db w);
          tick := n; rnd := S (rnd w); outbox := outbox w |}).
Proof.
  intros Hprot Hrole Hr Hfind d.
  pose proof (protect_reads_only authorization w) as Hw.
  unfold result in Hprot. unfold run in Hw. unfold updateAdmin, bind.
  destruct (protect E authorization w) as [p w0]. cbn [fst snd] in *.
  subst p w0. unfold authorize. rewrite Hrole.
  cbn [existsb Role_eqb orb negb].
  unfold updateAdmin_handler.
  assert (Hval : negb (valid_name (body_name (access_body r active))
                        && valid_email E (body_email (access_body r active))
                        && valid_role (body_role (access_body r active)))
                 = false).
  { cbn [access_body body_name body_email body_role valid_name valid_email andb].
    rewrite Hr. reflexivity. }
  rewrite Hval. monad. rewrite Hfind. cbn [option_map]. monad.
  fold (edited_account E (access_body r active) raw).
  destruct (access_edit_facts r active raw)
    as [Hm [Hn [Hid [Hname [Hemail _]]]]].
  destruct (save_checked_same_email _ w Hm Hn Hname Hemail) as [n Hs].
  rewrite Hs. monad. rewrite Hid, (by_id_found _ _ _ Hfind).
  exists n. reflexivity.
Qed.

Lemma filter_found_positive (q : Admin -> bool) (id : string) (c : Collection)
      (a : Admin) :
  findById id c = Some a -> q a = true ->
  (1 <= List.length (filter q c))%nat.
Proof.
  unfold findById. intros Hf Hq. apply find_some in Hf. destruct Hf as [Hin _].
  induction c as [|x c IH]; [contradiction|].
  cbn [filter]. destruct Hin as [->|Hin].
  - rewrite Hq. cbn. lia.
  - specialize (IH Hin). destruct (q x); cbn [List.length]; lia.
Qed.

(** One account fewer satisfies [q] once the account under [id] has
    been made to fail it. *)
Lemma count_after_update (q : Admin -> bool) (id : string) (f : Admin -> Admin)
      (c : Collection) (a : Admin) :
  findById id c = Some a -> q a = true -> q (f a) = false ->
  List.length (filter q (update_first id f c))
  = pred (List.length (filter q c)).
Proof.
  unfold findById. induction c as [|x c IH]; cbn [find]; [discriminate|].
  intros Hf Hq Hqf. cbn [update_first].
  destruct (by_id id x) eqn:Hx.
  - apply Some_eq in Hf. subst x. cbn [filter]. rewrite Hq, Hqf. reflexivity.
  - cbn [filter].
    pose proof (filter_found_positive q id c a Hf Hq) as Hpos.
    specialize (IH Hf Hq Hqf).
    destruct (q x); cbn [List.length]; lia.
Qed.

(** X23.  [PUT /api/admin/:id] has no check like the one of the
    deletion: a super-admin that sends its own identifier with the role
    [admin] is answered "Admin updated successfully" and is stored as
    [admin]; from then on the same token is answered 403 by the update,
    the deletion and the listing of accounts, and the number of
    super-admins that [getStats] reports has gone down by one. *)
Theorem super_admin_can_demote_itself
        (w : World) (t : string) (decoded : JwtPayload) (raw : Admin) :
  no_space t -> t <> EmptyString ->
  jwt_verify E t (JWT_SECRET E) = Some decoded ->
  find (by_id (jwt_id decoded)) (db w) = Some raw ->
  role raw = role_super_admin ->
  let header := Some ("Bearer " ++ t)%string in
  let b := access_body (Some "admin") None in
  let w' := run (updateAdmin E header (_id raw) b) w in
  fst (result (updateAdmin E header (_id raw) b) w)
    = Responded 200 (Success "Admin updated successfully") /\
  (exists raw', findById (_id raw) (db w') = Some raw' /\ role raw' = role_admin) /\
  (forall id' b', result (updateAdmin E header id' b') w'
                  = (forbidden_for_admin, None)) /\
  (forall id', result (deleteAdmin E header id') w' = forbidden_for_admin) /\
  result (listAdmins E header) w' = inl forbidden_for_admin /\
  superAdmins (result getStats w') = pred (superAdmins (result getStats w)).
Proof.
  intros Hns Hne Hv Hfind Hrole header b w'.
  pose proof (by_id_found _ _ _ Hfind) as Hid.
  assert (Hprot : result (protect E header) w = inr (hydrate false raw)).
  { unfold result, header. rewrite protect_bearer by assumption.
    rewrite Hv, Hfind. reflexivity. }
  assert (Hfind0 : find (by_id (_id raw)) (db w) = Some raw)
    by (rewrite Hid; exact Hfind).
  destruct (updateAdmin_access_saved w header (hydrate false raw) (_id raw)
              (Some "admin") None raw Hprot)
    as [n Hrun]; auto.
  { rewrite hydrate_role. exact Hrole. }
  fold b in Hrun.
  set (d := stamped (clock E (tick w)) (edited_account E b raw)) in *.
  set (g := applyUpdate (delta d)) in *.
  assert (Hdb : db w' = update_first (_id raw) g (db w))
    by (unfold w', run; rewrite Hrun; reflexivity).
  destruct (access_edit_facts (Some "admin") None raw)
    as [_ [_ [_ [_ [_ [Hsync [Hr _]]]]]]].
  fold b in Hsync, Hr.
  assert (Hrole' : role (g raw) = role_admin).
  { apply role_get. unfold g. rewrite stored_synced.
    - unfold d. rewrite stamped_get_other by discriminate.
      apply (Hr "admin"); [reflexivity | discriminate | reflexivity].
    - unfold d. apply synced_stamped. apply Hsync; discriminate. }
  assert (Hfind' : find (by_id (jwt_id decoded)) (db w') = Some (g raw)).
  { rewrite Hdb, <- Hid. fold (findById (_id raw) (update_first (_id raw) g (db w))).
    rewrite findById_update_first by (intros x; apply applyUpdate_id).
    unfold findById. rewrite Hfind0. reflexivity. }
  assert (Hprot' : protect E header w' = (inr (hydrate false (g raw)), w')).
  { unfold header. rewrite protect_bearer by assumption.
    rewrite Hv, Hfind'. reflexivity. }
  assert (Hauth : authorize [role_super_admin] (Some (hydrate false (g raw)))
                  = Some forbidden_for_admin).
  { unfold authorize. rewrite hydrate_role, Hrole'. reflexivity. }
  split; [unfold result; rewrite Hrun; reflexivity|].
  split.
  { exists (g raw). split; [|exact Hrole'].
    rewrite <- Hid in Hfind'. exact Hfind'. }
  split.
  { intros id' b'. unfold result, updateAdmin, bind. rewrite Hprot', Hauth.
    reflexivity. }
  split.
  { intros id'. unfold result, deleteAdmin, bind. rewrite Hprot', Hauth.
    reflexivity. }
  split.
  { unfold result, listAdmins, bind. rewrite Hprot', Hauth. reflexivity. }
  unfold result. rewrite !getStats_run. cbn [fst superAdmins]. rewrite Hdb.
  apply count_after_update with (a := raw).
  - exact Hfind0.
  - rewrite Hrole. reflexivity.
  - rewrite Hrole'. reflexivity.
Qed.

(** X24.  When a super-admin sets [isActive] to false through
    [PUT /api/admin/:id], the account is stored as inactive and a login
    on it, made while it is not locked, is answered 401 "Account is
    deactivated"; a verified token for the account still passes
    [protect], which hands over the inactive account. *)
Theorem deactivation_blocks_login_but_not_sessions
        (w : World) (authorization : option string) (caller : Document)
        (id : string) (a : Admin) :
  result (protect E authorization) w = inr caller ->
  role caller = role_super_admin ->
  unique_ids (db w) ->
  find (by_id id) (db w) = Some a ->
  let b := access_body None (Some false) in
  let w' := run (updateAdmin E authorization id b) w in
  fst (result (updateAdmin E authorization id b) w)
    = Responded 200 (Success "Admin updated successfully") /\
  (exists a', findById id (db w') = Some a' /\ isActive a' = false) /\
  (forall req_email req_password,
      valid_login_request E req_email req_password ->
      find (email_is (normalizeEmail E req_email)) (db w) = Some a ->
      (forall l, lockUntil a = Some l -> l <= clock E (tick w')) ->
      result (login E req_email req_password) w' = deactivated_response) /\
  (forall t decoded,
      no_space t -> t <> EmptyString ->
      jwt_verify E t (JWT_SECRET E) = Some decoded ->
      jwt_id decoded = id ->
      exists c : Document,
        protect E (Some ("Bearer " ++ t)%string) w' = (inr c, w') /\
        _id c = id /\ isActive c = false).
Proof.
  intros Hprot Hrole Hu Hfind b w'.
  pose proof (by_id_found _ _ _ Hfind) as Hid.
  destruct (updateAdmin_access_saved w authorization caller id
              None (Some false) a Hprot Hrole eq_refl Hfind)
    as [n Hrun].
  fold b in Hrun.
  set (d := stamped (clock E (tick w)) (edited_account E b a)) in *.
  set (g := applyUpdate (delta d)) in *.
  assert (Hdb : db w' = update_first id g (db w))
    by (unfold w', run; rewrite Hrun; reflexivity).
  destruct (access_edit_facts None (Some false) a)
    as [_ [_ [_ [_ [Hemail [Hsync [_ [Hact [_ [Hemail' Hlock']]]]]]]]]].
  fold b in Hemail, Hsync, Hact, Hemail', Hlock'.
  assert (Hact' : isActive (g a) = false).
  { apply isActive_get. unfold g. rewrite stored_synced.
    - unfold d. rewrite stamped_get_other by discriminate.
      apply Hact. reflexivity.
    - unfold d. apply synced_stamped. apply Hsync; discriminate. }
  assert (Hfind' : find (by_id id) (db w') = Some (g a)).
  { rewrite Hdb. fold (findById id (update_first id g (db w))).
    rewrite findById_update_first by (intros x; apply applyUpdate_id).
    unfold findById. rewrite Hfind. reflexivity. }
  split; [unfold result; rewrite Hrun; reflexivity|].
  split; [exists (g a); auto|].
  split.
  - intros req_email req_password Hvalid Hmail Hnl.
    destruct (login_deactivated w' req_email req_password (g a)) as [k Hlogin];
      auto; [| |unfold result; rewrite Hlogin; reflexivity].
    + rewrite Hdb, <- Hid. apply find_update_first; auto.
      * intros x. apply applyUpdate_id.
      * intros x. unfold email_is.
        assert (Hx : getPath P_email (g x) = getPath P_email x).
        { unfold g. rewrite applyUpdate_delta_get. unfold d.
          rewrite stamped_isModified_other by discriminate.
          rewrite Hemail. reflexivity. }
        rewrite (email_get_eq _ _ Hx). reflexivity.
    + intros l Hl. apply Hnl. rewrite <- Hl. symmetry.
      apply lockUntil_get. unfold g. rewrite stored_synced.
      * unfold d. rewrite stamped_get_other by discriminate.
        rewrite Hlock'. reflexivity.
      * unfold d. apply synced_stamped. apply Hsync; discriminate.
  - intros t decoded Hns Hne Hv Hjid.
    rewrite protect_bearer by assumption. rewrite Hv, Hjid, Hfind'.
    exists (hydrate false (g a)). split; [reflexivity|].
    rewrite hydrate_id, hydrate_isActive. split; [|exact Hact'].
    unfold g. rewrite applyUpdate_id. exact Hid.
Qed.

(** *** A new address through [PUT /api/admin/profile] *)

(** X25.  A new address that the route accepts ([isEmail]) but that
    the pattern of the schema rejects, or that another account already
    has, makes [PUT /api/admin/profile] end in an error passed to [next];
    the store and the outbox are as before. *)
Theorem address_refused_at_save_is_not_written
        (w : World) (authorization : option string) (caller : Document)
        (raw : Admin) (e : string) :
  result (protect E authorization) w = inr caller ->
  find (by_id (_id caller)) (db w) = Some raw ->
  isEmail E e = true ->
  let address := normalizeEmail E e in
  address <> EmptyString ->
  address <> email raw ->
  (test email_pattern address = false \/
   exists other, In other (db w) /\ email other = address /\
                 _id other <> _id raw) ->
  let w' := run (updateProfile E authorization (email_body e)) w in
  result (updateProfile E authorization (email_body e)) w = (NextError, None) /\
  db w' = db w /\ outbox w' = outbox w.
Proof.
  intros Hprot Hfind He address Hne Hnew Hwhy w'.
  pose proof (protect_reads_only authorization w) as Hw.
  unfold w', result, run in *. unfold updateProfile, bind.
  destruct (protect E authorization w) as [p w0]. cbn [fst snd] in *.
  subst p w0. unfold updateProfile_handler.
  assert (Hval : negb (valid_name (body_name (email_body e))
                        && valid_email E (body_email (email_body e))) = false).
  { cbn [email_body body_name body_email valid_name valid_email andb].
    rewrite He. reflexivity. }
  rewrite Hval. monad. rewrite Hfind. cbn [option_map]. monad.
  fold (edited_profile E (email_body e) raw).
  set (d := edited_profile E (email_body e) raw).
  assert (Hd : d = assign P_email (Some (V_str address)) (hydrate false raw)).
  { unfold d, edited_profile, email_body.
    cbn [body_name body_email body_avatar option_map truthy assign_if].
    fold address. destruct address; [congruence|]. reflexivity. }
  assert (Hm : isModified d P_password = false).
  { rewrite Hd. rewrite assign_isModified_other by discriminate. reflexivity. }
  assert (Hn : isNew d = false).
  { rewrite Hd. rewrite assign_isNew. reflexivity. }
  assert (Hme : isModified d P_email = true).
  { rewrite Hd, assign_isModified_same.
    rewrite hydrate_get by discriminate. cbn [getPath].
    destruct (same_value (Some (V_str (email raw))) (Some (V_str address)))
      eqn:Hs; [|reflexivity].
    apply same_value_eq in Hs. congruence. }
  assert (Hemail : email d = address).
  { apply email_get. rewrite Hd. apply assign_get_same, well_kinded_email. }
  assert (Hidd : _id d = _id raw).
  { rewrite Hd, assign_id. apply hydrate_id. }
  destruct (save_checked_run d w Hm Hn)
    as [[w1 [Hs [Hdb Hout]]]|[Hvalid [Htaken _]]].
  - rewrite Hs. monad. auto.
  - exfalso. destruct Hwhy as [Hbad|[other [Hin [Hsame Hother]]]].
    + unfold schema_valid in Hvalid. rewrite Hme, Hemail, Hbad in Hvalid.
      cbn [negb orb] in Hvalid. rewrite !andb_false_r in Hvalid. discriminate.
    + rewrite Hme in Htaken. cbn [andb] in Htaken.
      assert (Ht : email_taken d (db w) = true); [|congruence].
      unfold email_taken. apply existsb_exists. exists other.
      split; [exact Hin|]. rewrite Hemail, Hidd.
      apply andb_true_iff. split; [apply String.eqb_eq; exact Hsame|].
      apply negb_true_iff. apply String.eqb_neq. exact Hother.
Qed.

Lemma email_taken_false (this : Document) (c : Collection) :
  (forall other, In other c -> _id other <> _id this -> email other <> email this) ->
  email_taken this c = false.
Proof.
  intros H. unfold email_taken.
  destruct (existsb _ c) eqn:Hex; [|reflexivity].
  apply existsb_exists in Hex. destruct Hex as [other [Hin Hq]].
  apply andb_true_iff in Hq. destruct Hq as [Hsame Hother].
  apply String.eqb_eq in Hsame. apply negb_true_iff in Hother.
  apply String.eqb_neq in Hother. exfalso. exact (H other Hin Hother Hsame).
Qed.

(** X26.  When [PUT /api/admin/profile] gives the caller a new
    address that the schema accepts and no other account has, the address
    is stored; an active, unlocked account then logs in under the new
    address with its password, and a login under the old address is
    answered 401 "Invalid credentials" like one for an unknown
    address. *)
Theorem new_address_is_the_one_that_logs_in
        (w : World) (authorization : option string) (caller : Document)
        (raw : Admin) (e h : string) :
  result (protect E authorization) w = inr caller ->
  unique_ids (db w) ->
  find (by_id (_id caller)) (db w) = Some raw ->
  isEmail E e = true ->
  let address := normalizeEmail E e in
  address <> EmptyString ->
  address <> email raw ->
  test email_pattern address = true ->
  (forall other, In other (db w) -> _id other <> _id raw ->
                 email other <> address /\ email other <> email raw) ->
  isActive raw = true ->
  password raw = Some h ->
  let w' := run (updateProfile E authorization (email_body e)) w in
  (forall l, lockUntil raw = Some l -> l <= clock E (tick w')) ->
  fst (result (updateProfile E authorization (email_body e)) w)
    = Responded 200 (Success "Profile updated successfully") /\
  (exists raw', findById (_id raw) (db w') = Some raw' /\ email raw' = address) /\
  (forall req_password,
      (6 <= String.length req_password)%nat ->
      bcrypt_compare E req_password h = true ->
      exists jwt profile,
        result (login E e req_password) w'
        = Responded 200 (LoginSuccess jwt profile)) /\
  (forall old req_password,
      isEmail E old = true -> normalizeEmail E old = email raw ->
      (6 <= String.length req_password)%nat ->
      result (login E old req_password) w' = invalid_credentials).
Proof.
  intros Hprot Hu Hfind He address Hne Hnew Hok Hothers Hact Hpw w' Hnl.
  pose proof (protect_reads_only authorization w) as Hw.
  pose proof (found_is_stored _ _ _ Hu Hfind) as Hst.
  pose proof (find_some _ _ Hfind) as [Hin _].
  set (d0 := edited_profile E (email_body e) raw).
  assert (Hd : d0 = assign P_email (Some (V_str address)) (hydrate false raw)).
  { unfold d0, edited_profile, email_body.
    cbn [body_name body_email body_avatar option_map truthy assign_if].
    fold address. destruct address; [congruence|]. reflexivity. }
  assert (Hm : isModified d0 P_password = false).
  { rewrite Hd. rewrite assign_isModified_other by discriminate. reflexivity. }
  assert (Hn : isNew d0 = false).
  { rewrite Hd. rewrite assign_isNew. reflexivity. }
  assert (Hmn : isModified d0 P_name = false).
  { rewrite Hd. rewrite assign_isModified_other by discriminate. reflexivity. }
  assert (Hemail : email d0 = address).
  { apply email_get. rewrite Hd. apply assign_get_same, well_kinded_email. }
  assert (Hidd : _id d0 = _id raw).
  { rewrite Hd, assign_id. apply hydrate_id. }
  assert (Hvalid : schema_valid d0 = true).
  { unfold schema_valid. rewrite Hmn, Hemail, Hok. cbn [negb orb andb].
    replace (String.eqb address EmptyString) with false
      by (symmetry; apply String.eqb_neq; exact Hne).
    cbn. apply orb_true_r. }
  assert (Hfree : isModified d0 P_email && email_taken d0 (db w) = false).
  { rewrite email_taken_false; [apply andb_false_r|].
    intros other Ho Hid. rewrite Hemail. rewrite Hidd in Hid.
    apply (Hothers other Ho Hid). }
  destruct (save_checked_accepted d0 w Hm Hn Hvalid Hfree) as [n Hs].
  set (d := stamped (clock E (tick w)) d0) in *.
  set (g := applyUpdate (delta d)) in *.
  assert (Hrun : updateProfile E authorization (email_body e) w
                 = ((Responded 200 (Success "Profile updated successfully"),
                     Some (after_save d)),
                    {| db := update_first (_id raw) g (db w);
                       tick := n; rnd := S (rnd w); outbox := outbox w |})).
  { unfold result in Hprot. unfold run in Hw. unfold updateProfile, bind.
    destruct (protect E authorization w) as [p w0]. cbn [fst snd] in *.
    subst p w0. unfold updateProfile_handler.
    assert (Hval : negb (valid_name (body_name (email_body e))
                          && valid_email E (body_email (email_body e))) = false).
    { cbn [email_body body_name body_email valid_name valid_email andb].
      rewrite He. reflexivity. }
    rewrite Hval. monad. rewrite Hfind. cbn [option_map]. monad.
    fold (edited_profile E (email_body e) raw). fold d0.
    rewrite Hs. monad. rewrite Hidd. reflexivity. }
  assert (Hdb : db w' = update_first (_id raw) g (db w))
    by (unfold w', run; rewrite Hrun; reflexivity).
  assert (Hframe : forall q, q <> P_email -> q <> P_updatedAt ->
                             getPath q (g raw) = getPath q raw).
  { intros q H1 H2. unfold g. rewrite applyUpdate_delta_get. unfold d.
    rewrite stamped_isModified_other by exact H2. rewrite Hd.
    rewrite assign_isModified_other by congruence. reflexivity. }
  assert (Hemail' : email (g raw) = address).
  { apply email_get. unfold g. rewrite stored_synced.
    - unfold d. rewrite stamped_get_other by discriminate.
      rewrite Hd. apply assign_get_same, well_kinded_email.
    - unfold d. apply synced_stamped. rewrite Hd. apply synced_assign.
      apply synced_hydrate; discriminate. }
  split; [unfold result; rewrite Hrun; reflexivity|].
  split.
  { exists (g raw). split; [|exact Hemail'].
    rewrite Hdb, findById_update_first by (intros x; apply applyUpdate_id).
    rewrite Hst. reflexivity. }
  split.
  - intros req_password Hlen Hcmp.
    assert (Hfind' : find (email_is (normalizeEmail E e)) (db w') = Some (g raw)).
    { rewrite Hdb. apply find_updated_only; auto.
      - intros b Hb Hid. unfold email_is. apply String.eqb_neq.
        apply (Hothers b Hb Hid).
      - unfold email_is. rewrite Hemail'. apply String.eqb_refl. }
    destruct (login_succeeds w' e req_password (g raw) h)
      as [profile [f [w2 [Hlogin _]]]]; auto.
    + split; assumption.
    + rewrite (isActive_get_eq _ _ (Hframe P_isActive ltac:(discriminate)
                                      ltac:(discriminate))).
      exact Hact.
    + intros l Hl. apply Hnl. rewrite <- Hl. symmetry.
      apply lockUntil_get. apply Hframe; discriminate.
    + apply password_get. rewrite Hframe by discriminate.
      cbn [getPath]. rewrite Hpw. reflexivity.
    + exists (generateAuthToken E (hydrate true (g raw))), profile.
      unfold result. rewrite Hlogin. reflexivity.
  - intros old req_password Hvo Hold Hlen.
    assert (Hnone : find (email_is (normalizeEmail E old)) (db w') = None).
    { rewrite Hdb, Hold. apply find_updated_none; auto.
      - intros b Hb Hid. unfold email_is. apply String.eqb_neq.
        apply (Hothers b Hb Hid).
      - unfold email_is. rewrite Hemail'. apply String.eqb_neq. exact Hnew. }
    unfold result. rewrite login_unknown_email; [reflexivity | | exact Hnone].
    split; assumption.
Qed.

End Properties.

(** ** The skills kept in memory *)



Lemma findIndex_nth {A : Type} (p : A -> bool) (l : list A) (i : nat) :
  Skills.findIndex p l = Some i ->
  exists x, nth_error l i = Some x /\ find p l = Some x /\ p x = true.
Proof.
  revert i. induction l as [|y l IH]; cbn; [discriminate|].
  destruct (p y) eqn:Hy.
  - intros i H. apply Some_eq in H. subst i. exists y. auto.
  - intros i H. destruct (Skills.findIndex p l) as [j|]; [|discriminate].
    apply Some_eq in H. subst i. destruct (IH j eq_refl) as [x Hx].
    exists x. exact Hx.
Qed.




Lemma splice1_In {A : Type} (i : nat) (l : list A) (x : A) :
  In x (Skills.splice1 i l) -> In x l.
Proof.
  revert i. induction l as [|y l IH]; cbn; [tauto|].
  intros [|i]; [auto|]. cbn. intros [H|H]; [auto | right; eauto].
Qed.







Lemma splice1_NoDup {A : Type} (i : nat) (l : list A) :
  NoDup l -> NoDup (Skills.splice1 i l).
Proof.
  revert i. induction l as [|y l IH]; intros i H; [destruct i; exact H|].
  inversion H as [|? ? Hy Hl]; subst.
  destruct i as [|i]; cbn; [exact Hl|].
  constructor; [|apply IH; exact Hl].
  intros Hin. apply Hy. eapply splice1_In. exact Hin.
Qed.

Lemma splice1_map {A B : Type} (f : A -> B) (i : nat) (l : list A) :
  map f (Skills.splice1 i l) = Skills.splice1 i (map f l).
Proof.
  revert i. induction l as [|y l IH]; intros [|i]; cbn; try reflexivity.
  rewrite IH. reflexivity.
Qed.

Lemma update_found_names (p : Skills.Category -> bool)
      (f : Skills.Category -> Skills.Category) (s : Skills.Store) :
  (forall c, Skills.category (f c) = Skills.category c) ->
  map (fun c => Skills.toLowerCase (Skills.category c)) (Skills.update_found p f s)
  = map (fun c => Skills.toLowerCase (Skills.category c)) s.
Proof.
  intros Hf. induction s as [|y s IH]; cbn; [reflexivity|].
  destruct (p y); cbn; [rewrite Hf | rewrite IH]; reflexivity.
Qed.

(** X29.  No two categories get the same name, whatever the case of the
    letters: an array whose names are distinct in this sense is left so
    by [POST /api/skills/category], by
    [POST /api/skills/category/:categoryId] and by
    [DELETE /api/skills/category/:categoryId], whatever the request. *)
Theorem category_names_stay_distinct
        (s : Skills.Store) (param body_category body_name : string)
        (body_level : Z) :
  Skills.distinct_names s ->
  Skills.distinct_names (snd (Skills.createCategory body_category s)) /\
  Skills.distinct_names (snd (Skills.addSkill param body_name body_level s)) /\
  Skills.distinct_names (snd (Skills.deleteCategory param s)).
Proof.
  unfold Skills.distinct_names. intros H. split; [|split].
  - unfold Skills.createCategory. destruct (negb _); [exact H|].
    destruct (find _ s) eqn:Hdup; [exact H|]. cbn [snd].
    rewrite map_app. cbn [map Skills.category].
    apply NoDup_app; [exact H | repeat constructor; intros [] |].
    intros x Hx [<-|[]]. apply in_map_iff in Hx.
    destruct Hx as [c [Hc Hin]].
    pose proof (find_none _ _ Hdup c Hin) as Hn. cbv beta in Hn.
    unfold Skills.same_name in Hn. rewrite Hc, String.eqb_refl in Hn.
    discriminate.
  - unfold Skills.addSkill. destruct (negb _); [exact H|].
    destruct (find _ s); [|exact H].
    destruct (find _ (Skills.skills c)); [exact H|]. cbn [snd].
    rewrite update_found_names; [exact H | reflexivity].
  - unfold Skills.deleteCategory.
    destruct (Skills.findIndex _ s); [|exact H]. cbn [snd].
    rewrite splice1_map. apply splice1_NoDup. exact H.
Qed.

(** ** The statements at work on the sample store *)

Lemma sample_clock_monotone : monotone_clock Sample.env.
Proof.
  intros i j H. cbv beta iota delta [Sample.env clock]. lia.
Qed.

Lemma sample_unique_ids (x : Admin) :
  _id x = "a2" -> unique_ids [Sample.root; x].
Proof.
  intros H. unfold unique_ids. simpl. rewrite H.
  repeat constructor; simpl; intuition discriminate.
Qed.

Lemma sample_valid (p : string) :
  (6 <= String.length p)%nat ->
  valid_login_request Sample.env "ed@example.com" p.
Proof. intros H. split; [reflexivity | exact H]. Qed.

Lemma failed_login_updates_counter_witness :
  result (login Sample.env "ed@example.com" "wrong-pw")
         (Sample.world [Sample.root; Sample.editor (Some 4) None])
  = invalid_credentials.
Proof.
  refine (proj1 (failed_login_updates_counter Sample.env
                   (Sample.world [Sample.root; Sample.editor (Some 4) None])
                   "ed@example.com" "wrong-pw" (Sample.editor (Some 4) None)
                   "$s$admin123" sample_clock_monotone _ _ _ _ _ _ _)).
  - apply sample_valid. simpl. lia.
  - apply sample_unique_ids. reflexivity.
  - reflexivity.
  - reflexivity.
  - simpl. intros l H. discriminate.
  - reflexivity.
  - reflexivity.
Defined.

Lemma locked_account_refuses_login_witness :
  result (login Sample.env "ed@example.com" "admin123")
         (Sample.world [Sample.root; Sample.editor (Some 5) (Some 9000000)])
  = locked_response
  /\
  result (attempt_all Sample.env "ed@example.com"
            ["wrong-1"; "wrong-2"; "wrong-3"; "wrong-4"; "wrong-5"])
         (Sample.world [Sample.root; Sample.editor (Some 0) None])
  = repeat invalid_credentials 5.
Proof.
  split.
  - refine (proj1 (proj1 (locked_account_refuses_login Sample.env)
                     (Sample.world [Sample.root; Sample.editor (Some 5) (Some 9000000)])
                     "ed@example.com" "admin123"
                     (Sample.editor (Some 5) (Some 9000000)) 9000000 _ _ _ _)).
    + apply sample_valid. simpl. lia.
    + reflexivity.
    + reflexivity.
    + vm_compute. reflexivity.
  - refine (proj1 (proj2 (locked_account_refuses_login Sample.env)
                     (Sample.world [Sample.root; Sample.editor (Some 0) None])
                     "ed@example.com" "$s$admin123" "admin123"
                     ["wrong-1"; "wrong-2"; "wrong-3"; "wrong-4"; "wrong-5"]
                     _ _ _ _ _)).
    + reflexivity.
    + reflexivity.
    + repeat (constructor; [split; [simpl; lia | reflexivity]|]). constructor.
    + simpl. lia.
    + split; [apply sample_unique_ids; reflexivity|].
      exists (Sample.editor (Some 0) None). repeat split; reflexivity.
Defined.

Lemma successful_login_resets_counter_witness :
  exists a' : Admin,
    findById "a2"
      (db (run (login Sample.env "ed@example.com" "admin123")
               (Sample.world [Sample.root; Sample.editor (Some 3) None])))
    = Some a' /\
    attempts_of a' = 0 /\ lockUntil a' = None.
Proof.
  destruct (successful_login_resets_counter Sample.env
              (Sample.world [Sample.root; Sample.editor (Some 3) None])
              "ed@example.com" "admin123" (Sample.editor (Some 3) None)
              "$s$admin123")
    as [a' [k [H1 [H2 [H3 _]]]]].
  - apply sample_valid. simpl. lia.
  - apply sample_unique_ids. reflexivity.
  - reflexivity.
  - reflexivity.
  - simpl. intros l H. discriminate.
  - reflexivity.
  - reflexivity.
  - exists a'. auto.
Defined.

Lemma hashing_hook_rehashes_unmodified_password_witness :
  hash_calls
    (result (pre_save_hash Sample.env
               (assign P_lastLogin (Some (V_num 7))
                  (hydrate true (Sample.editor (Some 0) None))))
            (Sample.world []))
  = 1%nat.
Proof.
  refine (proj1 (proj2 (proj2
            (hashing_hook_rehashes_unmodified_password Sample.env
               (assign P_lastLogin (Some (V_num 7))
                  (hydrate true (Sample.editor (Some 0) None)))
               (Sample.world []) "$s$admin123" _ _)))).
  - reflexivity.
  - reflexivity.
Defined.

Lemma reset_request_never_mails_the_token_witness :
  (let w := Sample.world [Sample.root; Sample.editor (Some 0) None] in
   let w1 := run (forgotPassword Sample.env "ed@example.com") w in
   result (forgotPassword Sample.env "ed@example.com") w = mail_failed /\
   outbox w1 = [] /\
   result (resetPassword Sample.env "c0ffee" "newpass1") w1 = reset_refused)
  /\
  (let w := Sample.world [Sample.root; Sample.editor (Some 0) None] in
   let w0 := run (forgotPassword_issue Sample.env "ed@example.com") w in
   exists a1, findById "a2" (db w0) = Some a1 /\
              passwordResetToken a1 = Some "#c0ffee" /\
              passwordResetExpires a1 = Some 4600000)
  /\
  (let w := Sample.world [Sample.root;
                          Sample.editor_resetting (Some 0) None 4600000] in
   let w2 := run (resetPassword Sample.env "c0ffee" "newpass1") w in
   result (resetPassword Sample.env "c0ffee" "newpass1") w = reset_done /\
   result (resetPassword Sample.env "c0ffee" "another1") w2 = reset_refused)
  /\
  result (resetPassword Sample.env "c0ffee" "newpass1")
         (Sample.world [Sample.root;
                        Sample.editor_resetting (Some 0) None 1000000])
  = reset_refused.
Proof.
  split; [|split; [|split]].
  - destruct (proj1 (reset_request_never_mails_the_token Sample.env)
                (Sample.world [Sample.root; Sample.editor (Some 0) None])
                "ed@example.com" "newpass1" (Sample.editor (Some 0) None))
      as [_ [H2 [H3 [H4 _]]]].
    + reflexivity.
    + simpl. lia.
    + apply sample_unique_ids. reflexivity.
    + reflexivity.
    + simpl. intros b [<-|[<-|[]]] H; simpl; congruence.
    + split; [exact H2 | split; [exact H3 | exact H4]].
  - refine (proj2 (proj1 (proj2 (reset_request_never_mails_the_token Sample.env))
                     (Sample.world [Sample.root; Sample.editor (Some 0) None])
                     "ed@example.com" (Sample.editor (Some 0) None) _ _ _)).
    + reflexivity.
    + apply sample_unique_ids. reflexivity.
    + reflexivity.
  - destruct (proj1 (proj2 (proj2
                (reset_request_never_mails_the_token Sample.env)))
                (Sample.world [Sample.root;
                               Sample.editor_resetting (Some 0) None 4600000])
                "c0ffee" "newpass1" "another1"
                (Sample.editor_resetting (Some 0) None 4600000))
      as [H1 [_ [H3 _]]].
    + simpl. lia.
    + simpl. lia.
    + apply sample_unique_ids. reflexivity.
    + reflexivity.
    + simpl. intros b [<-|[<-|[]]] H; simpl;
        [congruence | exfalso; apply H; reflexivity].
    + split; [exact H1 | exact H3].
  - refine (proj1 (proj2 (proj2 (proj2
                     (reset_request_never_mails_the_token Sample.env)))
                     (Sample.world [Sample.root;
                                    Sample.editor_resetting (Some 0) None 1000000])
                     "c0ffee" "newpass1" _ _)).
    + simpl. lia.
    + simpl. intros b e [<-|[<-|[]]]; simpl; intros Ht He;
        [discriminate | injection He as <-; lia].
Defined.

Lemma failed_mail_clears_reset_token_witness :
  let w := Sample.world [Sample.root;
                         Sample.editor_resetting (Some 0) None 4600000] in
  let w' := run (forgotPassword Sample.env "ed@example.com") w in
  result (forgotPassword Sample.env "ed@example.com") w = mail_failed /\
  outbox w' = [] /\
  exists a', findById "a2" (db w') = Some a' /\
             passwordResetToken a' = None /\
             passwordResetExpires a' = None.
Proof.
  destruct (failed_mail_clears_reset_token Sample.env
              (Sample.world [Sample.root;
                             Sample.editor_resetting (Some 0) None 4600000])
              "ed@example.com"
              (Sample.editor_resetting (Some 0) None 4600000))
    as [H1 [H2 [a' [H3 [H4 [H5 _]]]]]].
  - reflexivity.
  - apply sample_unique_ids. reflexivity.
  - reflexivity.
  - split; [exact H1 | split; [exact H2|]].
    exists a'. split; [exact H3 | split; [exact H4 | exact H5]].
Defined.

Lemma unknown_email_answers_like_wrong_password_witness :
  result (login Sample.env "nobody@example.com" "whatever")
         (Sample.world [Sample.root; Sample.editor (Some 0) None])
  = result (login Sample.env "ed@example.com" "wrong-pw")
           (Sample.world [Sample.root; Sample.editor (Some 0) None]).
Proof.
  refine (proj1 (unknown_email_answers_like_wrong_password Sample.env
                   (Sample.world [Sample.root; Sample.editor (Some 0) None])
                   (Sample.world [Sample.root; Sample.editor (Some 0) None])
                   "nobody@example.com" "whatever" "ed@example.com" "wrong-pw"
                   (Sample.editor (Some 0) None) "$s$admin123"
                   _ _ _ _ _ _ _ _)).
  - split; [reflexivity | simpl; lia].
  - apply sample_valid. simpl. lia.
  - reflexivity.
  - reflexivity.
  - reflexivity.
  - simpl. intros l H. discriminate.
  - reflexivity.
  - reflexivity.
Defined.

Lemma super_admin_cannot_delete_own_account_witness :
  result (deleteAdmin Sample.env (Some "Bearer a1.super-admin.secret") "a1")
         (Sample.world [Sample.root; Sample.editor (Some 0) None])
  = Responded 400 (Failure "Cannot delete your own account").
Proof.
  refine (proj1 (proj1 (super_admin_cannot_delete_own_account Sample.env
                   (Sample.world [Sample.root; Sample.editor (Some 0) None])
                   (Some "Bearer a1.super-admin.secret") "a1"
                   (hydrate false Sample.root) _ _ _) _)).
  - apply sample_unique_ids. reflexivity.
  - reflexivity.
  - reflexivity.
  - reflexivity.
Defined.

Lemma increments_are_applied_by_the_store_witness :
  exists a' : Admin,
    findById "a2"
      (db (run (count_all Sample.env
                  [hydrate true (Sample.editor (Some 3) None);
                   hydrate true (Sample.editor (Some 3) None)])
               (Sample.world [Sample.root; Sample.editor (Some 3) None])))
    = Some a' /\
    attempts_of a' = 5 /\ lockUntil a' = None.
Proof.
  destruct (increments_are_applied_by_the_store Sample.env "a2"
              [hydrate true (Sample.editor (Some 3) None);
               hydrate true (Sample.editor (Some 3) None)])
    with (w := Sample.world [Sample.root; Sample.editor (Some 3) None])
         (a := Sample.editor (Some 3) None)
    as [a' [H1 [H2 H3]]].
  - repeat constructor.
  - reflexivity.
  - exists a'. split; [exact H1|]. split; [exact H2|].
    apply H3. repeat constructor; simpl; intros n H; injection H as <-;
      unfold lock_threshold; lia.
Defined.

Lemma reset_keeps_counter_and_lock_witness :
  result (resetPassword Sample.env "c0ffee" "newpass1")
         (Sample.world [Sample.root;
                        Sample.editor_resetting (Some 5) (Some 9000000) 5000000])
  = reset_done.
Proof.
  refine (proj1 (proj2 (reset_keeps_counter_and_lock Sample.env)
                   (Sample.world [Sample.root;
                      Sample.editor_resetting (Some 5) (Some 9000000) 5000000])
                   "c0ffee" "newpass1"
                   (Sample.editor_resetting (Some 5) (Some 9000000) 5000000)
                   _ _ _)).
  - simpl. lia.
  - apply sample_unique_ids. reflexivity.
  - reflexivity.
Defined.

(** ** Where the code departs from the claims *)

(** C9, counterexample.  Two wrong passwords are submitted for an account
    that has counted three failures.  When both requests read the
    account before either writes, each sees 3, neither locks, and the
    store ends with a count of 5 and no lock; one after the other, the
    second request locks the account.  After an expired lock, two such
    requests both restart the count at 1, and one failure is lost. *)
Lemma interleaved_failures_miss_the_lock :
  let w := Sample.world [Sample.root; Sample.editor (Some 3) None] in
  let expired := Sample.world [Sample.root; Sample.editor (Some 5) (Some 5)] in
  result (interleaved_logins Sample.env "ed@example.com" "wrong-1" "wrong-2") w
    = (invalid_credentials, invalid_credentials) /\
  counter_and_lock "a2"
    (run (interleaved_logins Sample.env "ed@example.com" "wrong-1" "wrong-2") w)
    = Some (Some 5, None) /\
  counter_and_lock "a2"
    (run (consecutive_logins Sample.env "ed@example.com" "wrong-1" "wrong-2") w)
    = Some (Some 5, Some 8200001) /\
  counter_and_lock "a2"
    (run (interleaved_logins Sample.env "ed@example.com" "wrong-1" "wrong-2")
         expired)
    = Some (Some 1, None) /\
  counter_and_lock "a2"
    (run (consecutive_logins Sample.env "ed@example.com" "wrong-1" "wrong-2")
         expired)
    = Some (Some 2, None).
Proof. vm_compute. repeat split; reflexivity. Qed.

(** C10, counterexample.  A successful reset also writes
    [passwordChangedAt] (and [updatedAt]): the change is not confined to
    the password and the two reset paths. *)
Lemma reset_also_dates_the_change :
  ~ reset_touches_only Sample.env
      [P_password; P_passwordResetToken; P_passwordResetExpires].
Proof.
  intros H.
  pose (a := Sample.editor_resetting (Some 5) (Some 9000000) 5000000).
  pose (w := Sample.world [Sample.root; a]).
  destruct (findById (_id a)
              (db (run (resetPassword Sample.env "c0ffee" "newpass1") w)))
    as [a'|] eqn:Hst; [|vm_compute in Hst; discriminate].
  specialize (H w "c0ffee" "newpass1" a a' (sample_unique_ids a eq_refl)
                eq_refl eq_refl Hst P_passwordChangedAt eq_refl).
  vm_compute in Hst. apply Some_eq in Hst. subst a'.
  vm_compute in H. discriminate.
Qed.

(** C6, counterexample.  The rollback does not leave the reset state as
    it was: a request made while a token from an earlier request is
    pending ends, its mail having failed, with that token and its expiry
    removed from the account. *)
Lemma failed_mail_destroys_a_pending_token :
  ~ failed_mail_keeps_reset_state Sample.env.
Proof.
  intros H.
  pose (a := Sample.editor_resetting (Some 0) None 4600000).
  pose (w := Sample.world [Sample.root; a]).
  destruct (findById (_id a)
              (db (run (forgotPassword Sample.env "ed@example.com") w)))
    as [a'|] eqn:Hst; [|vm_compute in Hst; discriminate].
  specialize (H w "ed@example.com" a a' (sample_unique_ids a eq_refl)
                eq_refl eq_refl Hst).
  vm_compute in Hst. apply Some_eq in Hst. subst a'.
  destruct H as [H _]. vm_compute in H. discriminate.
Qed.

(** ** The further properties at work on the sample store *)

Lemma no_space_check (t : string) :
  forallb (fun c => negb (Ascii.eqb c " "%char)) (list_ascii_of_string t) = true ->
  no_space t.
Proof.
  intros H c Hin Hc. rewrite forallb_forall in H. specialize (H c Hin).
  subst c. discriminate.
Qed.

Lemma issued_token_authenticates_witness :
  protect Sample.env SampleMore.editor_header SampleMore.store
  = (inr (hydrate false SampleMore.editor), SampleMore.store).
Proof.
  refine (proj1 (issued_token_authenticates Sample.env SampleMore.store
                   SampleMore.editor role_admin "24h" _ _ _ _)).
  - reflexivity.
  - apply no_space_check. reflexivity.
  - discriminate.
  - reflexivity.
Defined.

Lemma inactive_account_cannot_log_in_witness :
  result (login Sample.env "ed@example.com" "admin123")
         (Sample.world [Sample.root; SampleMore.dormant])
  = deactivated_response.
Proof.
  refine (proj1 (inactive_account_cannot_log_in Sample.env
                   (Sample.world [Sample.root; SampleMore.dormant])
                   "ed@example.com" "admin123" SampleMore.dormant _ _ _ _)).
  - apply sample_valid. simpl. lia.
  - reflexivity.
  - simpl. intros l H. discriminate.
  - reflexivity.
Defined.

Lemma login_writes_only_after_comparing_witness :
  db (run (login Sample.env "ed@example.com" "admin123")
          (Sample.world [Sample.root; SampleMore.dormant]))
  = [Sample.root; SampleMore.dormant].
Proof.
  refine (proj1 (login_writes_only_after_comparing Sample.env
                   (Sample.world [Sample.root; SampleMore.dormant])
                   "ed@example.com" "admin123" _)).
  right. right. reflexivity.
Defined.

Lemma failed_login_touches_only_the_counter_witness :
  outbox (run (login Sample.env "ed@example.com" "wrong-pw") SampleMore.store)
  = [].
Proof.
  refine (proj1 (failed_login_touches_only_the_counter Sample.env
                   SampleMore.store "ed@example.com" "wrong-pw"
                   SampleMore.editor "$s$admin123" _ _ _ _ _ _ _)).
  - apply sample_valid. simpl. lia.
  - apply sample_unique_ids. reflexivity.
  - reflexivity.
  - reflexivity.
  - simpl. intros l H. discriminate.
  - reflexivity.
  - reflexivity.
Defined.

Lemma stored_role_decides_not_the_token_witness :
  deleteAdmin Sample.env SampleMore.editor_header "a1" SampleMore.store
  = (forbidden_for_admin, SampleMore.store).
Proof.
  refine (proj1 (stored_role_decides_not_the_token Sample.env SampleMore.store
                   "a2.admin.secret" "a1"
                   {| jwt_id := "a2"; jwt_role := role_admin |}
                   SampleMore.editor _ _ _ _ _)).
  - apply no_space_check. reflexivity.
  - discriminate.
  - reflexivity.
  - reflexivity.
  - reflexivity.
Defined.

Lemma deleted_account_is_locked_out_witness :
  result (protect Sample.env SampleMore.editor_header)
         (run (deleteAdmin Sample.env SampleMore.root_header "a2")
              SampleMore.store)
  = inl (Responded 401 (Failure "Token is not valid")).
Proof.
  refine (f_equal fst
            (proj1 (deleted_account_is_locked_out Sample.env SampleMore.store
                      SampleMore.root_header "a2" "a2.admin.secret"
                      {| jwt_id := "a2"; jwt_role := role_admin |}
                      _ _ _ _ _ _))).
  - apply sample_unique_ids. reflexivity.
  - reflexivity.
  - apply no_space_check. reflexivity.
  - discriminate.
  - reflexivity.
  - reflexivity.
Defined.

Lemma wrong_current_password_changes_nothing_witness :
  changePassword Sample.env SampleMore.editor_header "wrong-pw" "newpass1"
                 SampleMore.store
  = (Responded 400 (Failure "Current password is incorrect"), SampleMore.store).
Proof.
  refine (wrong_current_password_changes_nothing Sample.env SampleMore.store
            SampleMore.editor_header "wrong-pw" "newpass1" "$s$admin123"
            (hydrate false SampleMore.editor) SampleMore.editor _ _ _ _ _ _).
  - reflexivity.
  - simpl. lia.
  - simpl. lia.
  - reflexivity.
  - reflexivity.
  - reflexivity.
Defined.

Lemma password_change_touches_only_the_password_witness :
  result (changePassword Sample.env SampleMore.editor_header
            "admin123" "newpass1") SampleMore.store
  = Responded 200 (Success "Password changed successfully").
Proof.
  refine (proj1 (password_change_touches_only_the_password Sample.env
                   SampleMore.store SampleMore.editor_header
                   "admin123" "newpass1" "$s$admin123"
                   (hydrate false SampleMore.editor) SampleMore.editor
                   _ _ _ _ _ _ _ _)).
  - reflexivity.
  - simpl. lia.
  - simpl. lia.
  - apply sample_unique_ids. reflexivity.
  - reflexivity.
  - reflexivity.
  - reflexivity.
  - discriminate.
Defined.

Lemma password_change_ends_no_session_witness :
  (exists c' : Document,
     result (protect Sample.env SampleMore.editor_header)
            (run (changePassword Sample.env SampleMore.editor_header
                    "admin123" "newpass1") SampleMore.store)
     = inr c' /\ _id c' = "a2")
  /\
  (exists c' : Document,
     result (protect Sample.env SampleMore.editor_header)
            (run (resetPassword Sample.env "c0ffee" "newpass1")
                 (Sample.world [Sample.root;
                                Sample.editor_resetting (Some 0) None 5000000]))
     = inr c' /\ _id c' = "a2").
Proof.
  split.
  - refine (proj2 (proj1 (password_change_ends_no_session Sample.env)
                     SampleMore.store SampleMore.editor_header
                     SampleMore.editor_header "admin123" "newpass1"
                     "$s$admin123" (hydrate false SampleMore.editor)
                     (hydrate false SampleMore.editor) SampleMore.editor
                     _ _ _ _ _ _ _ _)).
    + reflexivity.
    + simpl. lia.
    + simpl. lia.
    + reflexivity.
    + reflexivity.
    + reflexivity.
    + discriminate.
    + reflexivity.
  - refine (proj2 (proj2 (password_change_ends_no_session Sample.env)
                     (Sample.world [Sample.root;
                                    Sample.editor_resetting (Some 0) None 5000000])
                     "c0ffee" "newpass1" SampleMore.editor_header
                     (hydrate false (Sample.editor_resetting (Some 0) None 5000000))
                     (Sample.editor_resetting (Some 0) None 5000000)
                     _ _ _)).
    + simpl. lia.
    + reflexivity.
    + reflexivity.
Defined.

Lemma changed_password_is_the_one_that_logs_in_witness :
  (exists token profile,
     result (login Sample.env "ed@example.com" "newpass1")
            (run (changePassword Sample.env SampleMore.editor_header
                    "admin123" "newpass1") SampleMore.store)
     = Responded 200 (LoginSuccess token profile))
  /\
  result (login Sample.env "ed@example.com" "admin123")
         (run (changePassword Sample.env SampleMore.editor_header
                 "admin123" "newpass1") SampleMore.store)
  = invalid_credentials.
Proof.
  destruct (changed_password_is_the_one_that_logs_in Sample.env
              SampleMore.store SampleMore.editor_header
              "admin123" "newpass1" "$s$admin123" "ed@example.com"
              (hydrate false SampleMore.editor) SampleMore.editor)
    as [H1 H2].
  - reflexivity.
  - reflexivity.
  - simpl. lia.
  - simpl. lia.
  - apply sample_unique_ids. reflexivity.
  - reflexivity.
  - reflexivity.
  - reflexivity.
  - discriminate.
  - reflexivity.
  - reflexivity.
  - reflexivity.
  - simpl. intros l H. discriminate.
  - split; [exact H1|]. apply H2; [simpl; lia | reflexivity].
Defined.

Lemma reset_password_is_the_one_that_logs_in_witness :
  exists jwt profile,
    result (login Sample.env "ed@example.com" "newpass1")
           (run (resetPassword Sample.env "c0ffee" "newpass1")
                (Sample.world [Sample.root;
                               Sample.editor_resetting (Some 0) None 5000000]))
    = Responded 200 (LoginSuccess jwt profile).
Proof.
  refine (proj1 (reset_password_is_the_one_that_logs_in Sample.env
                   (Sample.world [Sample.root;
                                  Sample.editor_resetting (Some 0) None 5000000])
                   "c0ffee" "newpass1" "ed@example.com"
                   (Sample.editor_resetting (Some 0) None 5000000)
                   _ _ _ _ _ _ _ _)).
  - reflexivity.
  - simpl. lia.
  - apply sample_unique_ids. reflexivity.
  - reflexivity.
  - reflexivity.
  - reflexivity.
  - reflexivity.
  - simpl. intros l H. discriminate.
Defined.

Lemma reset_request_cancels_the_pending_token_witness :
  let w := Sample.world [Sample.root;
                         Sample.editor_resetting (Some 0) None 5000000] in
  let w1 := run (forgotPassword Sample.env "ed@example.com") w in
  result (resetPassword Sample.env "c0ffee" "newpass1") w = reset_done /\
  result (resetPassword Sample.env "c0ffee" "newpass1") w1 = reset_refused.
Proof.
  destruct (reset_request_cancels_the_pending_token Sample.env
              (Sample.world [Sample.root;
                             Sample.editor_resetting (Some 0) None 5000000])
              "ed@example.com" "c0ffee" "newpass1"
              (Sample.editor_resetting (Some 0) None 5000000))
    as [H1 [_ [_ [_ [H5 _]]]]].
  - reflexivity.
  - simpl. lia.
  - apply sample_unique_ids. reflexivity.
  - reflexivity.
  - reflexivity.
  - simpl. intros b [<-|[<-|[]]] H; simpl;
      [congruence | exfalso; apply H; reflexivity].
  - split; [exact H1 | exact H5].
Defined.

Lemma super_admin_sees_every_account_without_password_witness :
  exists listed stats,
    listAdmins Sample.env SampleMore.root_header SampleMore.store
      = (inr listed, SampleMore.store) /\
    adminStats Sample.env SampleMore.root_header SampleMore.store
      = (inr stats, SampleMore.store) /\
    map (fun d : Document => _id d) listed = ["a1"; "a2"] /\
    Forall (fun d : Document => password d = None) listed /\
    total stats = List.length listed.
Proof.
  refine (super_admin_sees_every_account_without_password Sample.env
            SampleMore.store SampleMore.root_header
            (hydrate false Sample.root) _ _).
  - reflexivity.
  - reflexivity.
Defined.

Lemma profile_route_returns_the_caller_witness :
  getProfile Sample.env SampleMore.editor_header SampleMore.store
  = (inr (Some (hydrate false SampleMore.editor)), SampleMore.store).
Proof.
  refine (proj1 (profile_route_returns_the_caller Sample.env SampleMore.store
                   SampleMore.editor_header (hydrate false SampleMore.editor) _)).
  reflexivity.
Defined.

Lemma login_token_opens_the_session_witness :
  exists c : Document,
    protect Sample.env SampleMore.editor_header
      (run (login Sample.env "ed@example.com" "admin123") SampleMore.store)
    = (inr c, run (login Sample.env "ed@example.com" "admin123") SampleMore.store)
    /\ _id c = "a2" /\ password c = None.
Proof.
  refine (proj2 (login_token_opens_the_session Sample.env SampleMore.store
                   "ed@example.com" "admin123" "$s$admin123" SampleMore.editor
                   _ _ _ _ _ _ _ _ _ _)).
  - apply sample_valid. simpl. lia.
  - apply sample_unique_ids. reflexivity.
  - reflexivity.
  - reflexivity.
  - simpl. intros l H. discriminate.
  - reflexivity.
  - reflexivity.
  - reflexivity.
  - apply no_space_check. reflexivity.
  - discriminate.
Defined.

Lemma reset_request_tells_whether_the_account_exists_witness :
  run (forgotPassword Sample.env "nobody@example.com") SampleMore.store
  = SampleMore.store.
Proof.
  refine (proj2 (reset_request_tells_whether_the_account_exists Sample.env
                   SampleMore.store "nobody@example.com" _) _).
  - reflexivity.
  - reflexivity.
Defined.

Lemma schema_email_shape_witness :
  exists local domain tld : list ascii,
    list_ascii_of_string "ed@example.com"
    = (local ++ "@"%char :: domain ++ "."%char :: tld)%list /\
    local <> [] /\ domain <> [] /\
    forallb (fun c => is_word c || is_dot_or_dash c) local = true /\
    forallb (fun c => is_word c || is_dot_or_dash c) domain = true /\
    forallb is_word tld = true /\
    (2 <= List.length tld <= 3)%nat.
Proof.
  refine (schema_email_shape "ed@example.com" _).
  vm_compute. reflexivity.
Defined.

Lemma sample_plain (s : string) :
  (if String.eqb s EmptyString then false
   else forallb is_word (list_ascii_of_string s)) = true ->
  plain s.
Proof.
  destruct (String.eqb_spec s EmptyString) as [->|Hne]; [discriminate|].
  intros H. split; assumption.
Qed.

Lemma schema_email_top_level_label_witness :
  test email_pattern "ed@example.info" = false.
Proof.
  destruct (test email_pattern "ed@example.info") eqn:Ht; [|reflexivity].
  exfalso.
  pose proof (proj1 (schema_email_top_level_label "ed" "example" "info"
                       (sample_plain "ed" eq_refl)
                       (sample_plain "example" eq_refl)
                       (sample_plain "info" eq_refl)) Ht) as H.
  simpl in H. lia.
Defined.

Lemma account_edit_writes_only_its_paths_witness :
  exists a',
    findById "a2"
      (db (run (updateAdmin Sample.env SampleMore.root_header "a2"
                  (access_body (Some "super-admin") (Some false)))
               SampleMore.store))
    = Some a' /\
    password a' = Some "$s$admin123".
Proof.
  destruct (proj2 (proj2 (account_edit_writes_only_its_paths Sample.env
                            SampleMore.store SampleMore.root_header "a2"
                            (access_body (Some "super-admin") (Some false))))
              "a2" SampleMore.editor eq_refl)
    as [a' [H1 [_ [H3 _]]]].
  exists a'. split; [exact H1 | exact H3].
Defined.

Lemma profile_edit_cannot_change_access_witness :
  exists a',
    findById "a2"
      (db (run (updateProfile Sample.env SampleMore.editor_header
                  {| body_name := Some "Edith"; body_email := None;
                     body_role := Some "super-admin";
                     body_isActive := None; body_avatar := None |})
               SampleMore.store))
    = Some a' /\
    role a' = role_admin.
Proof.
  destruct (proj2 (proj2 (profile_edit_cannot_change_access Sample.env
                            SampleMore.store SampleMore.editor_header
                            {| body_name := Some "Edith"; body_email := None;
                               body_role := Some "super-admin";
                               body_isActive := None; body_avatar := None |}))
              "a2" SampleMore.editor eq_refl)
    as [a' [H1 [_ [H3 _]]]].
  exists a'. split; [exact H1 | exact H3].
Defined.

Lemma super_admin_can_demote_itself_witness :
  result (listAdmins Sample.env SampleMore.root_header)
         (run (updateAdmin Sample.env SampleMore.root_header "a1"
                 (access_body (Some "admin") None)) SampleMore.store)
  = inl forbidden_for_admin.
Proof.
  refine (proj1 (proj2 (proj2 (proj2 (proj2
            (super_admin_can_demote_itself Sample.env SampleMore.store
               "a1.super-admin.secret"
               {| jwt_id := "a1"; jwt_role := role_super_admin |}
               Sample.root _ _ _ _ _)))))).
  - apply no_space_check. reflexivity.
  - discriminate.
  - reflexivity.
  - reflexivity.
  - reflexivity.
Defined.

Lemma deactivation_blocks_login_but_not_sessions_witness :
  let w' := run (updateAdmin Sample.env SampleMore.root_header "a2"
                   (access_body None (Some false))) SampleMore.store in
  result (login Sample.env "ed@example.com" "admin123") w' = deactivated_response
  /\
  exists c : Document,
    protect Sample.env SampleMore.editor_header w' = (inr c, w') /\
    _id c = "a2" /\ isActive c = false.
Proof.
  destruct (deactivation_blocks_login_but_not_sessions Sample.env
              SampleMore.store SampleMore.root_header
              (hydrate false Sample.root) "a2" SampleMore.editor)
    as [_ [_ [H3 H4]]].
  - reflexivity.
  - reflexivity.
  - apply sample_unique_ids. reflexivity.
  - reflexivity.
  - split.
    + apply H3.
      * apply sample_valid. simpl. lia.
      * reflexivity.
      * simpl. intros l H. discriminate.
    + apply (H4 "a2.admin.secret" {| jwt_id := "a2"; jwt_role := role_admin |}).
      * apply no_space_check. reflexivity.
      * discriminate.
      * reflexivity.
      * reflexivity.
Defined.

Lemma address_refused_at_save_is_not_written_witness :
  result (updateProfile Sample.env SampleMore.editor_header
            (email_body "ed@example.info")) SampleMore.store
    = (NextError, None)
  /\
  result (updateProfile Sample.env SampleMore.editor_header
            (email_body "root@example.com")) SampleMore.store
    = (NextError, None).
Proof.
  split.
  - refine (proj1 (address_refused_at_save_is_not_written Sample.env
                     SampleMore.store SampleMore.editor_header
                     (hydrate false SampleMore.editor) SampleMore.editor
                     "ed@example.info" _ _ _ _ _ _)).
    + reflexivity.
    + reflexivity.
    + reflexivity.
    + discriminate.
    + discriminate.
    + left. vm_compute. reflexivity.
  - refine (proj1 (address_refused_at_save_is_not_written Sample.env
                     SampleMore.store SampleMore.editor_header
                     (hydrate false SampleMore.editor) SampleMore.editor
                     "root@example.com" _ _ _ _ _ _)).
    + reflexivity.
    + reflexivity.
    + reflexivity.
    + discriminate.
    + discriminate.
    + right. exists Sample.root. split; [left; reflexivity|].
      split; [reflexivity | discriminate].
Defined.

Lemma new_address_is_the_one_that_logs_in_witness :
  let w' := run (updateProfile Sample.env SampleMore.editor_header
                   (email_body "ed@new.org")) SampleMore.store in
  (exists jwt profile,
     result (login Sample.env "ed@new.org" "admin123") w'
     = Responded 200 (LoginSuccess jwt profile))
  /\
  result (login Sample.env "ed@example.com" "admin123") w' = invalid_credentials.
Proof.
  destruct (new_address_is_the_one_that_logs_in Sample.env
              SampleMore.store SampleMore.editor_header
              (hydrate false SampleMore.editor) SampleMore.editor
              "ed@new.org" "$s$admin123")
    as [_ [_ [H3 H4]]].
  - reflexivity.
  - apply sample_unique_ids. reflexivity.
  - reflexivity.
  - reflexivity.
  - discriminate.
  - discriminate.
  - vm_compute. reflexivity.
  - simpl. intros other [<-|[<-|[]]] H;
      [split; discriminate | exfalso; apply H; reflexivity].
  - reflexivity.
  - reflexivity.
  - simpl. intros l H. discriminate.
  - split.
    + apply H3; [simpl; lia | reflexivity].
    + apply H4; [reflexivity | reflexivity | simpl; lia].
Defined.



Lemma category_names_stay_distinct_witness :
  Skills.distinct_names (snd (Skills.createCategory "Cloud" Skills.initial)).
Proof.
  refine (proj1 (category_names_stay_distinct Skills.initial "1" "Cloud"
                   "Docker" 50 _)).
  unfold Skills.distinct_names. simpl.
  repeat constructor; simpl; intuition discriminate.
Defined.
